(** * whale_watcher.py: a shallow embedding and its checked properties

    The development follows the layout of [whale_watcher.py]:

    - [Py]: the few Python built-ins the program relies on (string case
      folding, prefixes, [bytes.hex] / [bytes.fromhex], truthiness of
      floats) and the exception discipline ([try] / [except Exception]);
    - [Uniswap]: [parse_uniswap_call];
    - [Pricing]: [get_native_usd];
    - [Evm]: the per-transaction body of [watch_evm] (normalisation,
      classification, alert text);
    - [Json]: the text format written by [json.dump] and read by [json.load];
    - [Yaml]: the configuration document;
    - [Learn]: the [AutoLearn] class ([__init__], [_save_state],
      [_reset_day_if_needed], [consider]) and [main]'s construction of it;
    - [Watcher]: the call of [consider] at the end of the loop body;
    - [Channel]: the reconnecting generators [evm_ws_sub] and
      [solana_logs_sub];
    - [Sample]: concrete libraries, configurations and messages for the
      examples;
    - [Discord]: [discord_send];
    - [Loop]: the head of the loop of [watch_evm] (resolving a pending
      hash) and the loop itself;
    - [Solana]: [watch_solana] and its [handle_filter];
    - [GenConfig]: [csv_env] and the whale list of [generate_config.py];
    - [Prefixed], [Decoded]: the libraries with selectors that carry a
      prefix, and with addresses decoded to strings.

    The properties follow in modules named after these ([PyFacts],
    [UniswapFacts], [EvmFacts], ...).

    Conventions.  Python [float]s for money amounts are IEEE binary64 values
    ([PrimFloat.float]).  Python [str] is a sequence of 8-bit characters
    ([string]); case folding acts on the ASCII letters, which is what hex
    addresses are made of.  Clock readings ([time.time()]) are whole
    numbers of seconds, so that [now - t <= window] is exact; in the state
    file a reading is written as the float it is ([1735689600.0]), and the
    round trip of the file is proved for timestamps that are arbitrary
    float literals.  A float in a JSON document is held as its literal.
    An operation of a third-party library (eth_abi, web3, float
    formatting) is a parameter of the section that uses it. *)

From Stdlib Require Import ZArith Lia String Ascii List Bool Floats Uint63.
From Stdlib Require Import DecimalFacts DecimalPos DecimalN DecimalZ.
From Stdlib.Strings Require Import Byte.
From stdpp Require Import gmap strings list.

Local Open Scope Z_scope.

(* ===================================================================== *)
(** * Python built-ins                                                    *)
(* ===================================================================== *)

Module Py.

(** Exceptions: every class below derives from [Exception]. *)
Inductive exn : Type :=
| ValueError | TypeError | AttributeError | IndexError | KeyError
| ConnectionError | LibraryError.

(** The outcome of running a piece of code. *)
Inductive res (A : Type) : Type :=
| Ret (a : A)
| Raise (e : exn).
Arguments Ret {A} a.
Arguments Raise {A} e.

Definition bind {A B} (c : res A) (k : A -> res B) : res B :=
  match c with
  | Ret a => k a
  | Raise e => Raise e
  end.

(** [try: c  except Exception: h] *)
Definition try_except {A} (c : res A) (h : exn -> res A) : res A :=
  match c with
  | Ret a => Ret a
  | Raise e => h e
  end.

Definition raises {A} (c : res A) : Prop := exists e, c = Raise e.
Definition returns {A} (c : res A) : Prop := exists a, c = Ret a.

(** [try: x = c  except Exception: x = d] *)
Definition try_or {A} (c : res A) (d : A) : A :=
  match c with
  | Ret a => a
  | Raise _ => d
  end.

Fixpoint mapM {A B} (f : A -> res B) (l : list A) : res (list B) :=
  match l with
  | [] => Ret []
  | x :: r => bind (f x) (fun y => bind (mapM f r) (fun ys => Ret (y :: ys)))
  end.

(** [str.lower()] and [str.upper()]. *)
Definition lower_ascii (c : ascii) : ascii :=
  let n := N_of_ascii c in
  if ((65 <=? n) && (n <=? 90))%N then ascii_of_N (n + 32) else c.

Definition upper_ascii (c : ascii) : ascii :=
  let n := N_of_ascii c in
  if ((97 <=? n) && (n <=? 122))%N then ascii_of_N (n - 32) else c.

Fixpoint lower (s : string) : string :=
  match s with
  | EmptyString => EmptyString
  | String c r => String (lower_ascii c) (lower r)
  end.

Fixpoint upper (s : string) : string :=
  match s with
  | EmptyString => EmptyString
  | String c r => String (upper_ascii c) (upper r)
  end.

(** [s.startswith(p)] *)
Fixpoint startswith (p s : string) : bool :=
  match p, s with
  | EmptyString, _ => true
  | String a p', String b s' => if Ascii.eqb a b then startswith p' s' else false
  | String _ _, EmptyString => false
  end.

(** [len(s)] *)
Definition len (s : string) : Z := Z.of_nat (String.length s).

(** [s[n:]] for [0 <= n] *)
Fixpoint str_drop (n : nat) (s : string) : string :=
  match n, s with
  | O, _ => s
  | S n', String _ r => str_drop n' r
  | S _, EmptyString => EmptyString
  end.

(** [x or d] on an optional string: [None] and [""] are both falsy. *)
Definition str_or (o : option string) (d : string) : string :=
  match o with
  | Some (String c r) => String c r
  | _ => d
  end.

(** Truthiness of a float: everything but [0.0] and [-0.0] (NaN included). *)
Definition float_truthy (f : float) : bool := negb (PrimFloat.eqb f 0%float).

(** [x or 0] on an optional float, as used in comparisons. *)
Definition float_or_zero (o : option float) : float :=
  match o with
  | Some f => if float_truthy f then f else 0%float
  | None => 0%float
  end.

(** [a >= b] and [a < b] on floats. *)
Definition ge (a b : float) : bool := PrimFloat.leb b a.
Definition lt (a b : float) : bool := PrimFloat.ltb a b.

(** [bytes.hex()]: two lower-case digits per byte. *)
Definition hex_digit (n : N) : ascii :=
  if (n <? 10)%N then ascii_of_N (48 + n) else ascii_of_N (87 + n).

Definition byte_hex (b : byte) : string :=
  let n := Byte.to_N b in
  String (hex_digit (n / 16)) (String (hex_digit (n mod 16)) EmptyString).

Fixpoint bytes_hex (bs : list byte) : string :=
  match bs with
  | [] => EmptyString
  | b :: r => byte_hex b +:+ bytes_hex r
  end.

(** [bytes.fromhex(s)]: pairs of hex digits of either case, ASCII white
    space allowed between pairs; anything else is a [ValueError]. *)
Definition hex_val (c : ascii) : option N :=
  let n := N_of_ascii c in
  if ((48 <=? n) && (n <=? 57))%N then Some (n - 48)%N
  else if ((97 <=? n) && (n <=? 102))%N then Some (n - 87)%N
  else if ((65 <=? n) && (n <=? 70))%N then Some (n - 55)%N
  else None.

Definition is_space (c : ascii) : bool :=
  let n := N_of_ascii c in
  ((n =? 32) || ((9 <=? n) && (n <=? 13)))%N.

Definition byte_of_N (n : N) : byte :=
  match Byte.of_N n with
  | Some b => b
  | None => x00
  end.

Fixpoint fromhex (s : string) : res (list byte) :=
  match s with
  | EmptyString => Ret []
  | String c r =>
      if is_space c then fromhex r
      else
        match hex_val c, r with
        | Some h, String d r' =>
            match hex_val d with
            | Some l =>
                bind (fromhex r') (fun bs => Ret (byte_of_N (16 * h + l) :: bs))
            | None => Raise ValueError
            end
        | _, _ => Raise ValueError
        end
  end.

End Py.

Import Py.

#[global] Instance res_ret : MRet Py.res := @Py.Ret.
#[global] Instance res_bind : MBind Py.res := fun A B k c => Py.bind c k.

(* ===================================================================== *)
(** * Third-party operations                                              *)
(* ===================================================================== *)

(** What the program calls in web3, eth_abi and the float formatter.  Decoded
    ABI values are opaque Python objects.

    - the three selectors are [keccak(text=...)[:4].hex()], computed once at
      import time;
    - [abi_decode types data] is [_abi_decode(types, data)];
    - [obj_iter v] is iteration over a decoded array, [obj_hex p] is
      [p.hex()], [to_checksum_address] is [Web3.to_checksum_address];
    - [int_base16 s] is [int(s, 16)];
    - [from_wei_ether v] is [float(Web3.from_wei(v, "ether"))];
    - [format_4f x] is [f"{x:.4f}"], [format_usd x] is [f"{x:,.0f}"].

    Each of the first group may raise. *)
Class Libs : Type := {
  SIG_V2_SWAP_EXACT_ETH_FOR_TOKENS : string;
  SIG_V2_SWAP_EXACT_TOKENS_FOR_TOKENS : string;
  SIG_V3_EXACT_INPUT_SINGLE : string;
  abi_obj : Type;
  abi_decode : list string -> list byte -> res (list abi_obj);
  obj_iter : abi_obj -> res (list abi_obj);
  obj_hex : abi_obj -> res string;
  to_checksum_address : string -> res string;
  int_base16 : string -> res Z;
  from_wei_ether : Z -> res float;
  format_4f : float -> string;
  format_usd : float -> string
}.

(* ===================================================================== *)
(** * Minimal selectors and [parse_uniswap_call]                          *)
(* ===================================================================== *)

Module Uniswap.

(** The Swap Descriptor: the dictionary [parse_uniswap_call] returns. *)
Record SwapInfo : Type := {
  dex : string;
  method : string;
  token_in : string;
  token_out : string
}.

Section WithLibraries.

Context `{Libs}.

(** [vals[i]] *)
Definition index {A} (l : list A) (i : nat) : res A :=
  match nth_error l i with
  | Some x => Ret x
  | None => Raise IndexError
  end.

(** [path[-1]] *)
Definition index_last {A} (l : list A) : res A :=
  match List.rev l with
  | x :: _ => Ret x
  | [] => Raise IndexError
  end.

(** The body of the two V2 branches: decode, read the path at
    position [ipath], return first and last hop. *)
Definition decode_v2 (types : list string) (ipath : nat) (meth : string)
    (data : list byte) : res (option SwapInfo) :=
  raw ← fromhex (bytes_hex data);
  vals ← abi_decode types raw;
  hops ← index vals ipath;
  ps ← obj_iter hops;
  path ← mapM (fun p => h ← obj_hex p; to_checksum_address h) ps;
  tin ← index path 0;
  tout ← index_last path;
  Ret (Some {| dex := "V2"; method := meth; token_in := tin; token_out := tout |}).

(** The body of the V3 branch. *)
Definition decode_v3 (data : list byte) : res (option SwapInfo) :=
  raw ← fromhex (bytes_hex data);
  vals ← abi_decode
            ["address"; "address"; "uint24"; "address";
             "uint256"; "uint256"; "uint256"; "uint160"] raw;
  v0 ← index vals 0;
  h0 ← obj_hex v0;
  tin ← to_checksum_address h0;
  v1 ← index vals 1;
  h1 ← obj_hex v1;
  tout ← to_checksum_address h1;
  Ret (Some {| dex := "V3"; method := "exactInputSingle";
               token_in := tin; token_out := tout |}).

Definition parse_uniswap_call (input_data : list byte) : res (option SwapInfo) :=
  if (Z.of_nat (length input_data) <? 4) then Ret None
  else
    let sig := bytes_hex (take 4 input_data) in
    let data := drop 4 input_data in
    if String.eqb sig SIG_V2_SWAP_EXACT_ETH_FOR_TOKENS then
      try_except
        (decode_v2 ["uint256"; "address[]"; "address"; "uint256"] 1
           "swapExactETHForTokens" data)
        (fun _ => Ret None)
    else if String.eqb sig SIG_V2_SWAP_EXACT_TOKENS_FOR_TOKENS then
      try_except
        (decode_v2 ["uint256"; "uint256"; "address[]"; "address"; "uint256"] 2
           "swapExactTokensForTokens" data)
        (fun _ => Ret None)
    else if String.eqb sig SIG_V3_EXACT_INPUT_SINGLE then
      try_except (decode_v3 data) (fun _ => Ret None)
    else Ret None.

End WithLibraries.

End Uniswap.

(* ===================================================================== *)
(** * Native-coin pricing                                                 *)
(* ===================================================================== *)

Module Pricing.

(** [_price_cache]: per id, the price [p] and the time [t] it was fetched.
    The price is whatever the reply held under ["usd"]: a number, or
    [None] for a JSON [null]; it is stored unchecked. *)
Record PriceEntry : Type := { p : option float; t : Z }.

(** [get_native_usd].  [now] is [time.time()]; [fetch] is the outcome of
    the HTTP request and of reading [r.json()[coingecko_id]["usd"]]: the
    value read, or an exception.  Returns the result and the cache
    afterwards. *)
Definition get_native_usd (cache : gmap string PriceEntry) (now : Z)
    (fetch : res (option float)) (coingecko_id : string) (cache_seconds : Z)
    : option float * gmap string PriceEntry :=
  if String.eqb coingecko_id "" then (None, cache)
  else
    let request :=
      match fetch with
      | Ret usd => (usd, <[coingecko_id := {| p := usd; t := now |}]> cache)
      | Raise _ => (None, cache)
      end in
    match cache !! coingecko_id with
    | Some e => if now - t e <? cache_seconds then (p e, cache) else request
    | None => request
    end.

End Pricing.

(* ===================================================================== *)
(** * EVM watcher: the body of the loop over pending transactions         *)
(* ===================================================================== *)

Module Evm.
Import Uniswap.

Record EvmChainCfg : Type := {
  name : string;
  ws : string;
  http : option string;
  explorer : string;
  native_symbol : string;
  native_coingecko : string;
  routers : list (string * string);   (* name -> address, in insertion order *)
  min_usd : float;
  min_native : float;
  whales : gset string
}.

(** The ["value"] field of a resolved transaction: an [int] (Web3), a hex
    string (raw JSON-RPC), or anything else (such as [None]). A missing
    key reads as [ValInt 0]. *)
Inductive TxValue : Type :=
| ValInt (n : Z)
| ValHex (s : string)
| ValOther.

(** The ["input"] field: a [str] (raw JSON-RPC), non-empty bytes (Web3), or
    missing / [None] / empty. *)
Inductive TxInput : Type :=
| InStr (s : string)
| InBytes (b : list byte)
| InNone.

(** A resolved transaction, as far as the loop body reads it. *)
Record Tx : Type := {
  tx_to : option string;
  tx_from : option string;
  tx_value : TxValue;
  tx_input : TxInput
}.

(** The embed handed to [discord_send]. *)
Record Embed : Type := {
  title : string;
  description : string;
  color : Z;
  url : string;
  footer : string
}.

Definition nl : string := String "010"%char EmptyString.

Section WithLibraries.

Context `{Libs}.

(** [native_usd = get_native_usd(price_cache_id) or 0.0] *)
Definition native_usd_of (rate : option float) : float :=
  match rate with
  | Some r => if float_truthy r then r else 0%float
  | None => 0%float
  end.

(** [routers_lc = {addr.lower(): name for name, addr in cfg.routers.items()}] *)
Definition routers_lc (cfg : EvmChainCfg) : gmap string string :=
  foldl (fun m na => <[lower na.2 := na.1]> m) ∅ (routers cfg).

(** [whales_lc = set(a.lower() for a in cfg.whales)] *)
Definition whales_lc (cfg : EvmChainCfg) : gset string :=
  set_map lower (whales cfg).

Definition to_addr (tx : Tx) : string := lower (str_or (tx_to tx) "").
Definition frm (tx : Tx) : string := lower (str_or (tx_from tx) "").

Definition is_router (cfg : EvmChainCfg) (tx : Tx) : bool :=
  bool_decide (is_Some (routers_lc cfg !! to_addr tx)).

(** The [try] block computing [value_native]. *)
Definition value_native (tx : Tx) : float :=
  try_or
    (v ← match tx_value tx with
         | ValInt n => Ret n
         | ValHex s => int_base16 s
         | ValOther => Raise TypeError
         end;
     from_wei_ether v)
    0%float.

(** [est_usd = value_native * native_usd if native_usd else None] *)
Definition est_usd (native_usd : float) (tx : Tx) : option float :=
  if float_truthy native_usd
  then Some (PrimFloat.mul (value_native tx) native_usd)
  else None.

(** [swap_info] *)
Definition swap_info (cfg : EvmChainCfg) (tx : Tx) : option SwapInfo :=
  match tx_input tx with
  | InStr inp =>
      if is_router cfg tx && startswith "0x" inp && (10 <=? len inp)
      then try_or (b ← fromhex (str_drop 2 inp); parse_uniswap_call b) None
      else None
  | InBytes _ | InNone => None
  end.

Definition is_whale (cfg : EvmChainCfg) (tx : Tx) : bool :=
  bool_decide (frm tx ∈ whales_lc cfg).
Definition big_native (cfg : EvmChainCfg) (tx : Tx) : bool :=
  ge (value_native tx) (min_native cfg).
Definition big_usd (cfg : EvmChainCfg) (native_usd : float) (tx : Tx) : bool :=
  ge (float_or_zero (est_usd native_usd tx)) (min_usd cfg).

(** [usd_str = f" (~${est_usd:,.0f})" if est_usd else ""] *)
Definition usd_str (e : option float) : string :=
  match e with
  | Some u => if float_truthy u then " (~$" +:+ format_usd u +:+ ")" else ""
  | None => ""
  end.

Definition alertable (cfg : EvmChainCfg) (native_usd : float) (tx : Tx) : bool :=
  is_router cfg tx
  && (is_whale cfg tx || big_native cfg tx || big_usd cfg native_usd tx
      || bool_decide (is_Some (swap_info cfg tx))).

(** One iteration of the loop in [watch_evm], from "normalize fields" to
    [discord_send(embeds=[embed])]: the embed sent, if any. *)
Definition watch_evm_body (cfg : EvmChainCfg) (native_usd : float)
    (tx_hash : string) (tx : Tx) : option Embed :=
  if alertable cfg native_usd tx then
    let link := explorer cfg +:+ tx_hash in
    let desc :=
      "**From:** `" +:+ frm tx +:+ "`" +:+ nl
      +:+ "**To:** " +:+ default "Router" (routers_lc cfg !! to_addr tx)
      +:+ " (`" +:+ to_addr tx +:+ "`)" +:+ nl
      +:+ "**Value:** " +:+ format_4f (value_native tx) +:+ " "
      +:+ native_symbol cfg +:+ usd_str (est_usd native_usd tx) +:+ nl in
    let desc :=
      match swap_info cfg tx with
      | Some si =>
          desc +:+ "**Method:** " +:+ method si +:+ " • **TokenOut:** `"
          +:+ token_out si +:+ "`" +:+ nl
      | None => desc
      end in
    Some {| title := upper (name cfg) +:+ " • Possible Whale Buy";
            description := desc;
            color := 0x2ECC71;
            url := link;
            footer := tx_hash |}
  else None.

(** *** The rules in the specification's words

    Addresses are compared without regard to case; an absent field
    reads as the empty address. *)
Definition same_address (a b : string) : Prop := lower a = lower b.

Definition destination (tx : Tx) : string := str_or (tx_to tx) "".
Definition sender (tx : Tx) : string := str_or (tx_from tx) "".

Definition known_router (cfg : EvmChainCfg) (a : string) : Prop :=
  exists nm r, (nm, r) ∈ routers cfg /\ same_address r a.

Definition known_whale (cfg : EvmChainCfg) (a : string) : Prop :=
  exists w, w ∈ whales cfg /\ same_address w a.

(** "A Swap Descriptor was decoded from the input." *)
Definition swap_decoded (tx : Tx) : Prop :=
  exists inp b d,
    tx_input tx = InStr inp /\ startswith "0x" inp = true /\ 10 <= len inp
    /\ fromhex (str_drop 2 inp) = Ret b
    /\ parse_uniswap_call b = Ret (Some d).

(** "The estimated fiat value is greater than or equal to the
    configured fiat threshold": there is an estimate, and it is. *)
Definition fiat_reached (cfg : EvmChainCfg) (native_usd : float) (tx : Tx) : Prop :=
  exists u, est_usd native_usd tx = Some u /\ ge u (min_usd cfg) = true.

(** The same with an absent estimate counted as 0. *)
Definition fiat_or_zero_reached (cfg : EvmChainCfg) (native_usd : float)
    (tx : Tx) : Prop :=
  ge (default 0%float (est_usd native_usd tx)) (min_usd cfg) = true.

Definition native_reached (cfg : EvmChainCfg) (tx : Tx) : Prop :=
  ge (value_native tx) (min_native cfg) = true.

(** The rule as claimed. *)
Definition claimed_rule (cfg : EvmChainCfg) (native_usd : float) (tx : Tx) : Prop :=
  known_router cfg (destination tx)
  /\ (known_whale cfg (sender tx) \/ native_reached cfg tx
      \/ fiat_reached cfg native_usd tx \/ swap_decoded tx).

(** The rule with the fiat estimate defaulting to 0. *)
Definition amended_rule (cfg : EvmChainCfg) (native_usd : float) (tx : Tx) : Prop :=
  known_router cfg (destination tx)
  /\ (known_whale cfg (sender tx) \/ native_reached cfg tx
      \/ fiat_or_zero_reached cfg native_usd tx \/ swap_decoded tx).

End WithLibraries.

End Evm.

(* ===================================================================== *)
(** * JSON documents and their text                                       *)
(* ===================================================================== *)

(** The values [json.load] produces and [json.dump] accepts, with Python's
    [dict] as an association list in insertion order.  A [float] is kept as
    the literal that denotes it.  [dumps] follows the encoder's defaults
    (separators [", "] and [": "], [ensure_ascii]); [loads] follows the
    decoder (white space, escapes, the number grammar, later duplicate keys
    replacing earlier ones).  An escape that denotes a code point above 255
    has no counterpart in [string] and is refused. *)
Module Json.

#[local] Unset Elimination Schemes.

Inductive json : Type :=
| JNull
| JBool (b : bool)
| JInt (n : Z)
| JFloat (lit : string)
| JStr (s : string)
| JArr (l : list json)
| JObj (m : list (string * json)).

#[local] Set Elimination Schemes.

(** Induction that reaches inside arrays and objects. *)
Definition json_nested_ind (P : json -> Prop)
    (Hnull : P JNull)
    (Hbool : forall b, P (JBool b))
    (Hint : forall n, P (JInt n))
    (Hfloat : forall lit, P (JFloat lit))
    (Hstr : forall s, P (JStr s))
    (Harr : forall l, Forall P l -> P (JArr l))
    (Hobj : forall m, Forall (fun kv => P kv.2) m -> P (JObj m))
    : forall j, P j :=
  fix go (j : json) : P j :=
    match j with
    | JNull => Hnull
    | JBool b => Hbool b
    | JInt n => Hint n
    | JFloat lit => Hfloat lit
    | JStr s => Hstr s
    | JArr l =>
        Harr l ((fix all (l : list json) : Forall P l :=
                   match l with
                   | [] => @List.Forall_nil _ P
                   | x :: r => @List.Forall_cons _ P x r (go x) (all r)
                   end) l)
    | JObj m =>
        Hobj m ((fix all (m : list (string * json)) : Forall (fun kv => P kv.2) m :=
                   match m with
                   | [] => @List.Forall_nil _ (fun kv => P kv.2)
                   | kv :: r => @List.Forall_cons _ (fun kv => P kv.2) kv r (go kv.2) (all r)
                   end) m)
    end.

(** ** Dictionaries in insertion order *)

Fixpoint dict_get {V} (k : string) (d : list (string * V)) : option V :=
  match d with
  | [] => None
  | (k', v) :: r => if String.eqb k k' then Some v else dict_get k r
  end.

(** [d[k] = v]: in place when [k] is present, at the end otherwise. *)
Fixpoint dict_set {V} (k : string) (v : V) (d : list (string * V)) : list (string * V) :=
  match d with
  | [] => [(k, v)]
  | (k', v') :: r =>
      if String.eqb k k' then (k', v) :: r else (k', v') :: dict_set k v r
  end.

(** [dict(pairs)] *)
Definition dict_of_pairs {V} (l : list (string * V)) : list (string * V) :=
  foldl (fun d kv => dict_set kv.1 kv.2 d) [] l.

(** ** Characters *)

Definition quote : ascii := "034"%char.
Definition backslash : ascii := "092"%char.

Definition chars (s : string) : list ascii := list_ascii_of_string s.
Definition text (cs : list ascii) : string := string_of_list_ascii cs.

Definition is_ws (c : ascii) : bool :=
  match N_of_ascii c with
  | 32 | 9 | 10 | 13 => true
  | _ => false
  end%N.

Definition is_digit (c : ascii) : bool :=
  let n := N_of_ascii c in ((48 <=? n) && (n <=? 57))%N.

Fixpoint skip_ws (cs : list ascii) : list ascii :=
  match cs with
  | c :: r => if is_ws c then skip_ws r else cs
  | [] => []
  end.

(** ** Encoder *)

Definition escape_char (c : ascii) : list ascii :=
  match N_of_ascii c with
  | 34 => [backslash; quote]
  | 92 => [backslash; backslash]
  | 10 => [backslash; "n"%char]
  | 13 => [backslash; "r"%char]
  | 9 => [backslash; "t"%char]
  | 8 => [backslash; "b"%char]
  | 12 => [backslash; "f"%char]
  | n =>
      if ((32 <=? n) && (n <=? 126))%N then [c]
      else [backslash; "u"%char; "0"%char; "0"%char;
            hex_digit (n / 16); hex_digit (n mod 16)]
  end%N.

Fixpoint escape (cs : list ascii) : list ascii :=
  match cs with
  | [] => []
  | c :: r => escape_char c ++ escape r
  end.

Definition dump_string (s : string) : list ascii :=
  quote :: escape (chars s) ++ [quote].

Fixpoint uint_chars (u : Decimal.uint) : list ascii :=
  match u with
  | Decimal.Nil => []
  | Decimal.D0 u => "0"%char :: uint_chars u
  | Decimal.D1 u => "1"%char :: uint_chars u
  | Decimal.D2 u => "2"%char :: uint_chars u
  | Decimal.D3 u => "3"%char :: uint_chars u
  | Decimal.D4 u => "4"%char :: uint_chars u
  | Decimal.D5 u => "5"%char :: uint_chars u
  | Decimal.D6 u => "6"%char :: uint_chars u
  | Decimal.D7 u => "7"%char :: uint_chars u
  | Decimal.D8 u => "8"%char :: uint_chars u
  | Decimal.D9 u => "9"%char :: uint_chars u
  end.

(** [int.__repr__] *)
Definition dump_int (n : Z) : list ascii :=
  match Z.to_int n with
  | Decimal.Pos u => uint_chars u
  | Decimal.Neg u => "-"%char :: uint_chars u
  end.

(** [", ".join(items)] *)
Fixpoint join (items : list (list ascii)) : list ascii :=
  match items with
  | [] => []
  | [x] => x
  | x :: r => x ++ ","%char :: " "%char :: join r
  end.

Fixpoint dumps (j : json) : list ascii :=
  match j with
  | JNull => chars "null"
  | JBool true => chars "true"
  | JBool false => chars "false"
  | JInt n => dump_int n
  | JFloat lit => chars lit
  | JStr s => dump_string s
  | JArr l => "["%char :: join (map dumps l) ++ ["]"%char]
  | JObj m =>
      "{"%char
      :: join (map (fun kv => dump_string kv.1 ++ ":"%char :: " "%char :: dumps kv.2) m)
      ++ ["}"%char]
  end.

(** ** Decoder *)

Definition hex4 (a b c d : ascii) : option N :=
  match hex_val a, hex_val b, hex_val c, hex_val d with
  | Some x, Some y, Some z, Some w => Some (((x * 16 + y) * 16 + z) * 16 + w)%N
  | _, _, _, _ => None
  end.

Definition unescape (e : ascii) : option ascii :=
  match N_of_ascii e with
  | 34 => Some quote
  | 92 => Some backslash
  | 47 => Some "/"%char
  | 98 => Some "008"%char
  | 102 => Some "012"%char
  | 110 => Some "010"%char
  | 114 => Some "013"%char
  | 116 => Some "009"%char
  | _ => None
  end%N.

(** The body of a string, after its opening quote: the characters and
    what follows the closing quote. *)
Fixpoint scan_string (cs : list ascii) : option (list ascii * list ascii) :=
  match cs with
  | [] => None
  | c :: r =>
      if Ascii.eqb c quote then Some ([], r)
      else if Ascii.eqb c backslash then
        match r with
        | [] => None
        | e :: r1 =>
            if Ascii.eqb e "u"%char then
              match r1 with
              | h1 :: h2 :: h3 :: h4 :: r2 =>
                  match hex4 h1 h2 h3 h4 with
                  | Some n =>
                      if (n <? 256)%N then
                        match scan_string r2 with
                        | Some (s, r3) => Some (ascii_of_N n :: s, r3)
                        | None => None
                        end
                      else None
                  | None => None
                  end
              | _ => None
              end
            else
              match unescape e with
              | Some c' =>
                  match scan_string r1 with
                  | Some (s, r3) => Some (c' :: s, r3)
                  | None => None
                  end
              | None => None
              end
        end
      else if (N_of_ascii c <? 32)%N then None
      else
        match scan_string r with
        | Some (s, r3) => Some (c :: s, r3)
        | None => None
        end
  end.

Definition digit_cons (c : ascii) (u : Decimal.uint) : Decimal.uint :=
  match N_of_ascii c with
  | 48 => Decimal.D0 u | 49 => Decimal.D1 u | 50 => Decimal.D2 u
  | 51 => Decimal.D3 u | 52 => Decimal.D4 u | 53 => Decimal.D5 u
  | 54 => Decimal.D6 u | 55 => Decimal.D7 u | 56 => Decimal.D8 u
  | _ => Decimal.D9 u
  end%N.

(** The longest run of digits. *)
Fixpoint scan_digits (cs : list ascii) : Decimal.uint * list ascii :=
  match cs with
  | c :: r =>
      if is_digit c then
        let '(u, r') := scan_digits r in (digit_cons c u, r')
      else (Decimal.Nil, cs)
  | [] => (Decimal.Nil, [])
  end.

(** [0|[1-9][0-9]*] *)
Definition scan_int_part (cs : list ascii) : option (Decimal.uint * list ascii) :=
  match cs with
  | c :: r =>
      if Ascii.eqb c "0"%char then Some (Decimal.D0 Decimal.Nil, r)
      else if is_digit c then Some (scan_digits cs)
      else None
  | [] => None
  end.

(** [(\.[0-9]+)?]: the text matched and what follows. *)
Definition scan_frac (cs : list ascii) : list ascii * list ascii :=
  match cs with
  | c :: d :: r =>
      if Ascii.eqb c "."%char && is_digit d then
        let '(u, r') := scan_digits (d :: r) in (c :: uint_chars u, r')
      else ([], cs)
  | _ => ([], cs)
  end.

(** [([eE][-+]?[0-9]+)?] *)
Definition scan_exp (cs : list ascii) : list ascii * list ascii :=
  match cs with
  | c :: r =>
      if Ascii.eqb c "e"%char || Ascii.eqb c "E"%char then
        match r with
        | s :: d :: r1 =>
            if (Ascii.eqb s "-"%char || Ascii.eqb s "+"%char) && is_digit d then
              let '(u, r') := scan_digits (d :: r1) in (c :: s :: uint_chars u, r')
            else if is_digit s then
              let '(u, r') := scan_digits r in (c :: uint_chars u, r')
            else ([], cs)
        | [d] =>
            if is_digit d then (c :: [d], []) else ([], cs)
        | [] => ([], cs)
        end
      else ([], cs)
  | [] => ([], cs)
  end.

Definition scan_number (cs : list ascii) : option (json * list ascii) :=
  let '(neg, cs1) :=
    match cs with
    | c :: r => if Ascii.eqb c "-"%char then (true, r) else (false, cs)
    | [] => (false, cs)
    end in
  match scan_int_part cs1 with
  | None => None
  | Some (u, cs2) =>
      let '(frac, cs3) := scan_frac cs2 in
      let '(ex, cs4) := scan_exp cs3 in
      match frac, ex with
      | [], [] =>
          Some (JInt (Z.of_int (if neg then Decimal.Neg u else Decimal.Pos u)), cs4)
      | _, _ =>
          Some (JFloat (text ((if neg then ["-"%char] else [])
                              ++ uint_chars u ++ frac ++ ex)), cs4)
      end
  end.

(** [prefix p cs]: what follows [p] at the head of [cs]. *)
Fixpoint prefix (p cs : list ascii) : option (list ascii) :=
  match p, cs with
  | [], _ => Some cs
  | a :: p', b :: cs' => if Ascii.eqb a b then prefix p' cs' else None
  | _ :: _, [] => None
  end.

(** [NaN], [Infinity] and [-Infinity], which the decoder accepts where no
    number matches. *)
Definition scan_constant (cs : list ascii) : option (json * list ascii) :=
  match prefix (chars "NaN") cs with
  | Some r => Some (JFloat "NaN", r)
  | None =>
      match prefix (chars "Infinity") cs with
      | Some r => Some (JFloat "Infinity", r)
      | None =>
          match prefix (chars "-Infinity") cs with
          | Some r => Some (JFloat "-Infinity", r)
          | None => None
          end
      end
  end.

(** [parse_value] reads one value at the head of the text;
    [parse_elems] the elements of an array up to its bracket;
    [parse_members] the members of an object up to its brace.
    [fuel] bounds the nesting of calls. *)
Fixpoint parse_value (fuel : nat) (cs : list ascii) : option (json * list ascii) :=
  match fuel with
  | O => None
  | S fuel' =>
      match cs with
      | [] => None
      | c :: r =>
          if Ascii.eqb c quote then
            match scan_string r with
            | Some (s, r') => Some (JStr (text s), r')
            | None => None
            end
          else if Ascii.eqb c "["%char then
            match skip_ws r with
            | c1 :: r1 =>
                if Ascii.eqb c1 "]"%char then Some (JArr [], r1)
                else
                  match parse_elems fuel' (c1 :: r1) with
                  | Some (l, r2) => Some (JArr l, r2)
                  | None => None
                  end
            | [] => None
            end
          else if Ascii.eqb c "{"%char then
            match skip_ws r with
            | c1 :: r1 =>
                if Ascii.eqb c1 "}"%char then Some (JObj [], r1)
                else
                  match parse_members fuel' (c1 :: r1) with
                  | Some (m, r2) => Some (JObj (dict_of_pairs m), r2)
                  | None => None
                  end
            | [] => None
            end
          else
            match prefix (chars "null") cs with
            | Some r' => Some (JNull, r')
            | None =>
                match prefix (chars "true") cs with
                | Some r' => Some (JBool true, r')
                | None =>
                    match prefix (chars "false") cs with
                    | Some r' => Some (JBool false, r')
                    | None =>
                        match scan_number cs with
                        | Some v => Some v
                        | None => scan_constant cs
                        end
                    end
                end
            end
      end
  end
with parse_elems (fuel : nat) (cs : list ascii) : option (list json * list ascii) :=
  match fuel with
  | O => None
  | S fuel' =>
      match parse_value fuel' cs with
      | Some (v, r) =>
          match skip_ws r with
          | c :: r1 =>
              if Ascii.eqb c ","%char then
                match parse_elems fuel' (skip_ws r1) with
                | Some (vs, r2) => Some (v :: vs, r2)
                | None => None
                end
              else if Ascii.eqb c "]"%char then Some ([v], r1)
              else None
          | [] => None
          end
      | None => None
      end
  end
with parse_members (fuel : nat) (cs : list ascii)
    : option (list (string * json) * list ascii) :=
  match fuel with
  | O => None
  | S fuel' =>
      match cs with
      | q :: r =>
          if Ascii.eqb q quote then
            match scan_string r with
            | Some (k, r1) =>
                match skip_ws r1 with
                | c :: r2 =>
                    if Ascii.eqb c ":"%char then
                      match parse_value fuel' (skip_ws r2) with
                      | Some (v, r3) =>
                          match skip_ws r3 with
                          | c' :: r4 =>
                              if Ascii.eqb c' ","%char then
                                match parse_members fuel' (skip_ws r4) with
                                | Some (m, r5) => Some ((text k, v) :: m, r5)
                                | None => None
                                end
                              else if Ascii.eqb c' "}"%char then Some ([(text k, v)], r4)
                              else None
                          | [] => None
                          end
                      | None => None
                      end
                    else None
                | [] => None
                end
            | None => None
            end
          else None
      | [] => None
      end
  end.

(** [json.loads]: one value, white space around it, nothing else. *)
Definition loads (s : string) : option json :=
  let cs := skip_ws (chars s) in
  match parse_value (2 * length cs + 2) cs with
  | Some (j, r) =>
      match skip_ws r with
      | [] => Some j
      | _ :: _ => None
      end
  | None => None
  end.

(** [json.dumps] as a string. *)
Definition dumps_str (j : json) : string := text (dumps j).

(** A decimal numeral that starts with a digit other than 0. *)
Definition nonzero_head (u : Decimal.uint) : Prop :=
  match u with
  | Decimal.Nil | Decimal.D0 _ => False
  | _ => True
  end.

(** ** Float literals

    A float is held as the literal [float.__repr__] writes for it, which
    is the text [json.dump] writes and [json.load] reads: an optional
    sign, an integer part without leading zeros, and a fraction, an
    exponent, or both ([1735689600.5], [0.001], [1e+16], [1.5e-07]). *)
Record exponent : Type := {
  upper : bool;
  esign : option bool;
  edigits : Decimal.uint
}.

Definition frac_text (f : option Decimal.uint) : list ascii :=
  match f with
  | Some d => "."%char :: uint_chars d
  | None => []
  end.

Definition exp_text (e : option exponent) : list ascii :=
  match e with
  | Some x =>
      (if upper x then "E"%char else "e"%char)
      :: match esign x with
         | Some true => ["-"%char]
         | Some false => ["+"%char]
         | None => []
         end
      ++ uint_chars (edigits x)
  | None => []
  end.

Definition float_text (neg : bool) (u : Decimal.uint) (f : option Decimal.uint)
    (e : option exponent) : list ascii :=
  (if neg then ["-"%char] else []) ++ uint_chars u ++ frac_text f ++ exp_text e.

Definition float_literal (lit : string) : Prop :=
  exists neg u f e,
    lit = text (float_text neg u f e)
    /\ (u = Decimal.D0 Decimal.Nil \/ nonzero_head u)
    /\ f <> Some Decimal.Nil
    /\ (forall x, e = Some x -> edigits x <> Decimal.Nil)
    /\ (is_Some f \/ is_Some e).

(** Documents whose objects have distinct keys, as every [dict] has, and
    whose floats are finite, held as their literals. *)
Fixpoint plain (j : json) : Prop :=
  match j with
  | JNull | JBool _ | JInt _ | JStr _ => True
  | JFloat lit => float_literal lit
  | JArr l => (fix all (l : list json) : Prop :=
                 match l with
                 | [] => True
                 | x :: r => plain x /\ all r
                 end) l
  | JObj m => NoDup (map fst m)
              /\ (fix all (m : list (string * json)) : Prop :=
                    match m with
                    | [] => True
                    | kv :: r => plain kv.2 /\ all r
                    end) m
  end.

(** A bound on the nesting of calls [parse_value] needs for a document. *)
Fixpoint depth (j : json) : nat :=
  match j with
  | JArr l => S ((fix sum (l : list json) : nat :=
                    match l with
                    | [] => O
                    | x :: r => S (depth x + sum r)
                    end) l)
  | JObj m => S ((fix sum (m : list (string * json)) : nat :=
                    match m with
                    | [] => O
                    | kv :: r => S (depth kv.2 + sum r)
                    end) m)
  | _ => 1
  end.

(** What may follow a number: not a character that would extend it. *)
Definition ends_number (rest : list ascii) : Prop :=
  match rest with
  | [] => True
  | c :: _ =>
      is_digit c = false /\ c <> "."%char /\ c <> "e"%char /\ c <> "E"%char
  end.

(** Not white space, and neither closing bracket. *)
Definition opens_value (cs : list ascii) : Prop :=
  match cs with
  | [] => False
  | c :: _ =>
      is_ws c = false /\ Ascii.eqb c "]"%char = false
      /\ Ascii.eqb c "}"%char = false
  end.

(** The same bound for the elements of an array and the members of an
    object, and the text of one member. *)
Fixpoint depth_elems (l : list json) : nat :=
  match l with
  | [] => O
  | x :: r => S (depth x + depth_elems r)
  end.

Fixpoint depth_members (m : list (string * json)) : nat :=
  match m with
  | [] => O
  | kv :: r => S (depth kv.2 + depth_members r)
  end.

Definition dump_member (kv : string * json) : list ascii :=
  dump_string kv.1 ++ ":"%char :: " "%char :: dumps kv.2.

(** A document is read back from its text, whatever follows. *)
Definition reads_back (j : json) : Prop :=
  plain j ->
  forall fuel rest,
    (depth j <= fuel)%nat -> ends_number rest ->
    parse_value fuel (dumps j ++ rest) = Some (j, rest).

End Json.

(* ===================================================================== *)
(** * The durable configuration document                                  *)
(* ===================================================================== *)

(** What [yaml.safe_load] produces and [yaml.safe_dump] accepts: the
    configuration is handled as a document, not as text. *)
Module Yaml.

#[local] Unset Elimination Schemes.

Inductive yaml : Type :=
| YNull
| YBool (b : bool)
| YInt (n : Z)
| YFloat (f : float)
| YStr (s : string)
| YSeq (l : list yaml)
| YMap (m : list (string * yaml)).

#[local] Set Elimination Schemes.

(** Truthiness, as [x or {}] tests it. *)
Definition truthy (y : yaml) : bool :=
  match y with
  | YNull => false
  | YBool b => b
  | YInt n => negb (n =? 0)
  | YFloat f => float_truthy f
  | YStr s => negb (String.eqb s "")
  | YSeq l => match l with [] => false | _ :: _ => true end
  | YMap m => match m with [] => false | _ :: _ => true end
  end.

(** [[a.lower() for a in lst]] on a list: every element must be a [str]. *)
Fixpoint lowered (l : list yaml) : res (list string) :=
  match l with
  | [] => Ret []
  | YStr a :: r => bind (lowered r) (fun ls => Ret (lower a :: ls))
  | _ :: _ => Raise AttributeError
  end.

End Yaml.

(* ===================================================================== *)
(** * Auto-learn (EVM)                                                    *)
(* ===================================================================== *)

Module Learn.
Import Json Yaml.

(** The settings [AutoLearn.__init__] reads from the ["autolearn"] block. *)
Record AutoLearn : Type := {
  enabled : bool;
  min_usd : float;
  occurrences : Z;
  window_hours : Z;
  max_new_per_day : Z;
  persist_to_config : bool
}.

(** [self.state], for a document of the documented shape. *)
Record State : Type := {
  counters : list (string * list Z);
  day : string;
  added_today : Z
}.

(** What [consider] reads and writes: [self.whales_set], [self.state], and
    the two files [self.state_file] and [self.config_path] ([None]: the
    file cannot be opened for reading). *)
Record World : Type := {
  whales_set : gset string;
  state : State;
  state_file : option string;
  config_file : option yaml
}.

(** What one call observes of its surroundings: [time.time()],
    [date.today().isoformat()], and whether each file can be written. *)
Record Env : Type := {
  now : Z;
  today : string;
  state_writable : bool;
  config_writable : bool
}.

(** [float.__repr__] of a clock reading.  A whole number of seconds is a
    float that is written with its digits and [.0] (up to 2^53, and so
    for every reading of a clock). *)
Definition stamp_repr (t : Z) : string := text (dump_int t ++ chars ".0").

(** The dictionary a [State] stands for: [consider] stores the float
    [time.time()] returned. *)
Definition state_doc (st : State) : json :=
  JObj [("counters",
         JObj (map (fun kv => (kv.1, JArr (map (fun t => JFloat (stamp_repr t)) kv.2)))
                 (counters st)));
        ("day", JStr (day st));
        ("added_today", JInt (added_today st))].

(** A timestamp as a counter may hold it: a finite float, which is what
    [consider] appends, or an [int] (from a file written by hand). *)
Definition timestamp (j : json) : Prop :=
  match j with
  | JInt _ => True
  | JFloat lit => float_literal lit
  | _ => False
  end.

(** The state dictionary in general: counters from distinct addresses to
    lists of timestamps, a day and a count. *)
Definition counter_state (doc : json) : Prop :=
  exists cs d n,
    doc = JObj [("counters", JObj cs); ("day", JStr d); ("added_today", JInt n)]
    /\ NoDup (map fst cs)
    /\ Forall (fun kv => exists ts, kv.2 = JArr ts /\ Forall timestamp ts) cs.

(** [{"counters": {}, "day": self._today(), "added_today": 0}] *)
Definition fresh_state (today : string) : State :=
  {| counters := []; day := today; added_today := 0 |}.

(** The [try] block of [__init__]: the state document after construction. *)
Definition init_state_doc (today : string) (file : option string) : json :=
  match file with
  | Some txt =>
      match loads txt with
      | Some j => j
      | None => state_doc (fresh_state today)
      end
  | None => state_doc (fresh_state today)
  end.

(** [_save_state], on the state document. *)
Definition save_doc (writable : bool) (doc : json) (file : option string)
    : option string :=
  if writable then Some (dumps_str doc) else file.

Definition _save_state (env : Env) (w : World) : World :=
  {| whales_set := whales_set w;
     state := state w;
     state_file := save_doc (state_writable env) (state_doc (state w)) (state_file w);
     config_file := config_file w |}.

Definition _reset_day_if_needed (today : string) (st : State) : State :=
  if String.eqb (day st) today then st
  else {| counters := counters st; day := today; added_today := 0 |}.

(** [[t for t in c if now - t <= window]] *)
Definition prune (now window : Z) (c : list Z) : list Z :=
  filter (fun t => now - t <= window) c.

(** [cfg_full = yaml.safe_load(f) or {}], as a value that has [get]. *)
Definition load_mapping (doc : yaml) : res (list (string * yaml)) :=
  if truthy doc
  then match doc with
       | YMap m => Ret m
       | _ => Raise AttributeError
       end
  else Ret [].

(** [lst = cfg_full.get("whales_evm", [])], as a value that has [append]. *)
Definition whales_evm_list (cfg_full : list (string * yaml)) : res (list yaml) :=
  match dict_get "whales_evm" cfg_full with
  | None => Ret []
  | Some (YSeq l) => Ret l
  | Some _ => Raise AttributeError
  end.

(** The [try] block that rewrites the configuration: the document to
    write, if any. *)
Definition updated_config (address addr : string) (file : option yaml)
    : res (option yaml) :=
  match file with
  | None => Raise ConnectionError
  | Some doc =>
      cfg_full ← load_mapping doc;
      lst ← whales_evm_list cfg_full;
      lows ← lowered lst;
      if bool_decide (addr ∈ lows) then Ret None
      else Ret (Some (YMap (dict_set "whales_evm" (YSeq (lst ++ [YStr address])) cfg_full)))
  end.

Definition persist (env : Env) (address addr : string) (file : option yaml)
    : option yaml :=
  match updated_config address addr file with
  | Ret (Some doc) => if config_writable env then Some doc else file
  | Ret None | Raise _ => file
  end.

(** [consider]: the value returned and the world afterwards. *)
Definition consider (al : AutoLearn) (env : Env) (address : string)
    (est_usd : option float) (w : World) : option string * World :=
  if negb (enabled al) then (None, w)
  else
    let addr := lower address in
    if bool_decide (addr ∈ whales_set w) then (None, w)
    else if lt (float_or_zero est_usd) (min_usd al) then (None, w)
    else
      let window := window_hours al * 3600 in
      let c := prune (now env) window
                 (default [] (dict_get addr (counters (state w)))) ++ [now env] in
      let st1 := {| counters := dict_set addr c (counters (state w));
                    day := day (state w);
                    added_today := added_today (state w) |} in
      let st2 := _reset_day_if_needed (today env) st1 in
      if (occurrences al <=? Z.of_nat (length c))
         && (added_today st2 <? max_new_per_day al)
      then
        let st3 := {| counters := counters st2; day := day st2;
                      added_today := added_today st2 + 1 |} in
        let cf := if persist_to_config al
                  then persist env address addr (config_file w)
                  else config_file w in
        (Some address,
         _save_state env {| whales_set := whales_set w ∪ {[addr]};
                            state := st3;
                            state_file := state_file w;
                            config_file := cf |})
      else
        (None,
         _save_state env {| whales_set := whales_set w;
                            state := st2;
                            state_file := state_file w;
                            config_file := config_file w |}).

(** A run of calls, oldest first: the values returned and the final world. *)
Record Call : Type := {
  call_env : Env;
  call_address : string;
  call_est_usd : option float
}.

Fixpoint run (al : AutoLearn) (calls : list Call) (w : World)
    : list (option string) * World :=
  match calls with
  | [] => ([], w)
  | c :: r =>
      let '(o, w1) := consider al (call_env c) (call_address c) (call_est_usd c) w in
      let '(os, w2) := run al r w1 in
      (o :: os, w2)
  end.

(** A call that passes the three guards at the head of [consider]. *)
Definition qualifying (al : AutoLearn) (address : string) (est_usd : option float)
    (w : World) : Prop :=
  enabled al = true
  /\ (lower address ∉ whales_set w)
  /\ lt (float_or_zero est_usd) (min_usd al) = false.

(** The timestamps [consider] keeps for an address before the new one. *)
Definition stored (addr : string) (w : World) : list Z :=
  default [] (dict_get addr (counters (state w))).

(** [window = self.window_hours * 3600] *)
Definition window (al : AutoLearn) : Z := window_hours al * 3600.

(** The list written for the address by a call that passes the guards. *)
Definition counted (al : AutoLearn) (env : Env) (address : string) (w : World)
    : list Z :=
  prune (now env) (window al) (stored (lower address) w) ++ [now env].

(** The state after [_reset_day_if_needed] in such a call. *)
Definition counted_state (al : AutoLearn) (env : Env) (address : string)
    (w : World) : State :=
  _reset_day_if_needed (today env)
    {| counters := dict_set (lower address) (counted al env address w)
                     (counters (state w));
       day := day (state w);
       added_today := added_today (state w) |}.

(** Every timestamp of the list is within [W] of every later one. *)
Fixpoint all_within (W : Z) (l : list Z) : Prop :=
  match l with
  | [] => True
  | t :: r => Forall (fun t' => t' - t <= W) r /\ all_within W r
  end.

(** Non-decreasing clock readings. *)
Fixpoint ascending (l : list Z) : Prop :=
  match l with
  | [] => True
  | t :: r => Forall (fun t' => t <= t') r /\ ascending r
  end.

(** The window as the specification words it: only events strictly within
    [W] count. *)
Definition prune_strict (now W : Z) (c : list Z) : list Z :=
  filter (fun t => now - t < W) c.

(** The calls of a run that all concern [addr] and pass the value guard. *)
Definition buys (al : AutoLearn) (addr : string) (calls : list Call) : Prop :=
  Forall (fun c => lower (call_address c) = addr
                   /\ lt (float_or_zero (call_est_usd c)) (min_usd al) = false)
    calls.

Definition times (calls : list Call) : list Z :=
  map (fun c => now (call_env c)) calls.

(** The times of the calls of a run that count as events for [addr]:
    the calls for that address, case apart, whose value reaches the
    threshold. *)
Definition events (al : AutoLearn) (addr : string) (calls : list Call) : list Z :=
  times (filter (fun c => lower (call_address c) = addr
                          /\ lt (float_or_zero (call_est_usd c)) (min_usd al) = false)
           calls).

(** [main]: [set(cfg.get("whales_evm", []))], the set handed to [AutoLearn]. *)
Definition main_whales_set (whales_evm : list string) : gset string :=
  list_to_set whales_evm.

(** [build_evm_cfgs]: [set(a.lower() for a in c.get("whales_evm", []))]. *)
Definition build_evm_cfgs_whales (whales_evm : list string) : gset string :=
  list_to_set (map lower whales_evm).

End Learn.

(* ===================================================================== *)
(** * EVM watcher: learning from an alert                                 *)
(* ===================================================================== *)

Module Watcher.

Section WithLibraries.

Context `{Libs}.

(** One iteration of the loop in [watch_evm] on a resolved transaction:
    the embed sent, the address announced as newly learned, and the
    auto-learn world afterwards.  [consider] is called only after an alert,
    with the lower-cased sender; the announcement is sent when what it
    returns is truthy. *)
Definition watch_evm_step (cfg : Evm.EvmChainCfg) (native_usd : float)
    (autolearn : option Learn.AutoLearn) (env : Learn.Env)
    (tx_hash : string) (tx : Evm.Tx) (w : Learn.World)
    : option Evm.Embed * option string * Learn.World :=
  match Evm.watch_evm_body cfg native_usd tx_hash tx with
  | Some embed =>
      match autolearn with
      | Some al =>
          let '(learned, w') :=
            Learn.consider al env (Evm.frm tx) (Evm.est_usd native_usd tx) w in
          (Some embed,
           match learned with
           | Some (String c r) => Some (String c r)
           | _ => None
           end,
           w')
      | None => (Some embed, None, w)
      end
  | None => (None, None, w)
  end.

End WithLibraries.

End Watcher.

(* ===================================================================== *)
(** * Reconnecting subscriptions                                          *)
(* ===================================================================== *)

(** [evm_ws_sub] and [solana_logs_sub] share one loop.  What the network
    does is given as a list of connection attempts, oldest first: an
    attempt is either refused (connecting or subscribing raises) or
    connected, in which case it delivers some messages and then [recv]
    raises.  The generator's observable behaviour is the list of items it
    yields and of delays it sleeps.  A connection that is still open has
    yielded what [receive] gives for the messages delivered so far. *)
Module Channel.
Import Json.

Inductive attempt : Type :=
| Refused
| Connected (msgs : list string).

Inductive output (A : Type) : Type :=
| Yield (item : A)
| Sleep (seconds : Z).
Arguments Yield {A} item.
Arguments Sleep {A} seconds.

(** [backoff = min(backoff * 2, 30)] *)
Definition next_backoff (backoff : Z) : Z := Z.min (backoff * 2) 30.

(** [msg.get(k)]: only a [dict] has [get]. *)
Definition py_get (msg : json) (k : string) : res (option json) :=
  match msg with
  | JObj m => Ret (dict_get k m)
  | _ => Raise AttributeError
  end.

(** [obj[k]] with a string key. *)
Definition py_item (obj : json) (k : string) : res json :=
  match obj with
  | JObj m =>
      match dict_get k m with
      | Some v => Ret v
      | None => Raise KeyError
      end
  | _ => Raise TypeError
  end.

(** [x == s] for a string [s]. *)
Definition is_str (x : option json) (s : string) : bool :=
  match x with
  | Some (JStr s') => String.eqb s' s
  | _ => false
  end.

(** [json.loads(raw)] *)
Definition json_loads (raw : string) : res json :=
  match loads raw with
  | Some j => Ret j
  | None => Raise ValueError
  end.

(** The inner loop body of [evm_ws_sub] on one message: the hash to
    yield, if any. *)
Definition evm_on_message (raw : string) : res (option string) :=
  msg ← json_loads raw;
  meth ← py_get msg "method";
  if is_str meth "eth_subscription" then
    params ← py_get msg "params";
    txh ← py_get (default (JObj []) params) "result";
    match txh with
    | Some (JStr s) =>
        if startswith "0x" s && (len s =? 66) then Ret (Some s) else Ret None
    | _ => Ret None
    end
  else Ret None.

(** The inner loop body of [solana_logs_sub]. *)
Definition solana_on_message (raw : string) : res (option json) :=
  msg ← json_loads raw;
  meth ← py_get msg "method";
  if is_str meth "logsNotification" then
    params ← py_item msg "params";
    result ← py_item params "result";
    Ret (Some result)
  else Ret None.

Section Generator.

Context {A : Type} (on_message : string -> res (option A)).

(** The inner [while True] on the messages one connection delivers: an
    exception ends it, whatever was still to come. *)
Fixpoint receive (msgs : list string) : list (output A) :=
  match msgs with
  | [] => []
  | raw :: r =>
      match on_message raw with
      | Ret (Some x) => Yield x :: receive r
      | Ret None => receive r
      | Raise _ => []
      end
  end.

(** The outer [while True]: each attempt ends in the [except] branch. *)
Fixpoint subscribe (backoff : Z) (attempts : list attempt)
    : list (output A) * Z :=
  match attempts with
  | [] => ([], backoff)
  | a :: r =>
      let got := match a with
                 | Refused => []
                 | Connected msgs => receive msgs
                 end in
      let '(out, b) := subscribe (next_backoff backoff) r in
      (got ++ Sleep backoff :: out, b)
  end.

(** The delays slept, in order. *)
Fixpoint delays (out : list (output A)) : list Z :=
  match out with
  | [] => []
  | Sleep s :: r => s :: delays r
  | Yield _ :: r => delays r
  end.

(** The items yielded, in order. *)
Fixpoint items (out : list (output A)) : list A :=
  match out with
  | [] => []
  | Yield x :: r => x :: items r
  | Sleep _ :: r => items r
  end.

(** What one attempt hands to the consumer. *)
Definition delivered (a : attempt) : list A :=
  match a with
  | Refused => []
  | Connected msgs => items (receive msgs)
  end.

End Generator.

(** The delay slept after the [i]-th failure, counting from 0. *)
Definition delay_at (i : nat) : Z := Z.min (2 * 2 ^ Z.of_nat i) 30.

(** The shape of a transaction hash: ["0x"] and 66 characters in all. *)
Definition is_hash (x : string) : Prop := startswith "0x" x = true /\ len x = 66.

(** [backoff = 2] before the loop. *)
Definition evm_ws_sub (attempts : list attempt) : list (output string) * Z :=
  subscribe evm_on_message 2 attempts.

Definition solana_logs_sub (attempts : list attempt) : list (output json) * Z :=
  subscribe solana_on_message 2 attempts.

End Channel.

(* ===================================================================== *)
(** * A stand-in for the libraries, to run the definitions on examples    *)
(* ===================================================================== *)

Module Sample.
Import Uniswap Evm.

(** [int(s, 16)] on an optional ["0x"] and hex digits. *)
Fixpoint hex_value (acc : Z) (s : string) : res Z :=
  match s with
  | EmptyString => Ret acc
  | String c r =>
      match hex_val c with
      | Some d => hex_value (16 * acc + Z.of_N d) r
      | None => Raise ValueError
      end
  end.

(** Consecutive 32-byte words. *)
Fixpoint words (n : nat) (data : list byte) : list (list byte) :=
  match n with
  | O => []
  | S n' => take 32 data :: words n' (drop 32 data)
  end.

(** Selectors as web3 computes them; static ABI types decode to their
    32-byte words, an address word reads as its last 20 bytes.  Decoded
    values are byte strings here, whose [hex()] succeeds; [Decoded] below
    has them as eth_abi returns them. *)
#[export] Instance libs : Libs := {|
  SIG_V2_SWAP_EXACT_ETH_FOR_TOKENS := "7ff36ab5";
  SIG_V2_SWAP_EXACT_TOKENS_FOR_TOKENS := "38ed1739";
  SIG_V3_EXACT_INPUT_SINGLE := "414bf389";
  abi_obj := list byte;
  abi_decode := fun types data =>
    if bool_decide ("address[]" ∈ types) then Raise LibraryError
    else if (length data <? 32 * length types)%nat then Raise LibraryError
    else Ret (words (length types) data);
  obj_iter := fun _ => Raise TypeError;
  obj_hex := fun w => Ret (bytes_hex (drop 12 w));
  to_checksum_address := fun h => Ret ("0x" +:+ h);
  int_base16 := fun s =>
    if startswith "0x" s then hex_value 0 (str_drop 2 s) else hex_value 0 s;
  from_wei_ether := fun v =>
    if (0 <=? v) && (v <? 2 ^ 63)
    then Ret (PrimFloat.div (PrimFloat.of_uint63 (Uint63.of_Z v)) 1e18%float)
    else Raise ValueError;
  format_4f := fun _ => "#.####";
  format_usd := fun _ => "#,###"
|}.

Definition router : string := "0x7a250d5630B4cF539739dF2C5dAcb4c659F2488D".

(** The chain configuration [build_evm_cfgs] makes for the given
    thresholds and [whales_evm] list. *)
Definition cfg (min_usd min_native : float) (whales_evm : list string) : EvmChainCfg :=
  {| name := "ethereum"; ws := "wss://node"; http := Some "https://node";
     explorer := "https://etherscan.io/tx/"; native_symbol := "ETH";
     native_coingecko := "ethereum";
     routers := [("UniswapV2", router)];
     min_usd := min_usd; min_native := min_native;
     whales := Learn.build_evm_cfgs_whales whales_evm |}.

(** An address no configuration lists. *)
Definition buyer : string := "0x00000000000000000000000000000000000000aa".

(** A transfer of [wei] to [dest] from a sender nobody knows. *)
Definition transfer (dest : string) (wei : Z) : Tx :=
  {| tx_to := Some dest;
     tx_from := Some buyer;
     tx_value := ValInt wei;
     tx_input := InStr "0x" |}.

(** Call data of [exactInputSingle] from token [0x...0111] to token
    [0x...0222], every other argument zero. *)
Definition address_word (hi lo : byte) : list byte := replicate 30 x00 ++ [hi; lo].

Definition exact_input_single : list byte :=
  [x41; x4b; xf3; x89] ++ address_word x01 x11 ++ address_word x02 x22
  ++ replicate (6 * 32) x00.

(** A call of the router with that data and no value. *)
Definition swap_call : Tx :=
  {| tx_to := Some router;
     tx_from := Some "0x00000000000000000000000000000000000000aa";
     tx_value := ValHex "0x0";
     tx_input := InStr ("0x" +:+ bytes_hex exact_input_single) |}.

(** Auto-learn settings: threshold 250000 USD, [k] occurrences within one
    hour, at most [quota] promotions a day, configuration rewritten. *)
Definition settings (k quota : Z) : Learn.AutoLearn :=
  {| Learn.enabled := true; Learn.min_usd := 250000%float;
     Learn.occurrences := k; Learn.window_hours := 1;
     Learn.max_new_per_day := quota; Learn.persist_to_config := true |}.

(** A configuration document with the given static whales. *)
Definition config_doc (whales_evm : list string) : Yaml.yaml :=
  Yaml.YMap
    [("chains",
      Yaml.YMap [("ethereum",
                  Yaml.YMap [("ws", Yaml.YStr "wss://node");
                             ("explorer", Yaml.YStr "https://etherscan.io/tx/")])]);
     ("whales_evm", Yaml.YSeq (map Yaml.YStr whales_evm));
     ("thresholds", Yaml.YMap [("min_usd", Yaml.YInt 50000);
                               ("min_native", Yaml.YInt 10)])].

(** The watcher just started by [main] on that configuration, with no
    state file yet. *)
Definition started (whales_evm : list string) (today : string)
    (added : Z) : Learn.World :=
  {| Learn.whales_set := Learn.main_whales_set whales_evm;
     Learn.state := {| Learn.counters := []; Learn.day := today;
                       Learn.added_today := added |};
     Learn.state_file := None;
     Learn.config_file := Some (config_doc whales_evm) |}.

(** A purchase worth 300000 USD seen at time [t] on day [d]. *)
Definition big_buy (t : Z) (d : string) (address : string) : Learn.Call :=
  {| Learn.call_env := {| Learn.now := t; Learn.today := d;
                          Learn.state_writable := true;
                          Learn.config_writable := true |};
     Learn.call_address := address;
     Learn.call_est_usd := Some 300000%float |}.

(** A world with two addresses being counted and one promotion made
    today. *)
Definition counting : Learn.World :=
  {| Learn.whales_set := ∅;
     Learn.state :=
       {| Learn.counters :=
            [("0x00000000000000000000000000000000000000aa", [1735689600; 1735693200]);
             ("0x00000000000000000000000000000000000000bb", [1735700000])];
          Learn.day := "2025-01-01";
          Learn.added_today := 1 |};
     Learn.state_file := None;
     Learn.config_file := None |}.

(** A pending-transaction notification, as the node sends it. *)
Definition tx_hash : string :=
  "0x88df016429689c079f3b2f6ad39fa052532c56795b733da78a91ebe6a713944b".

Definition notification : string :=
  Json.dumps_str
    (Json.JObj [("jsonrpc", Json.JStr "2.0");
                ("method", Json.JStr "eth_subscription");
                ("params",
                 Json.JObj [("subscription", Json.JStr "0x9cef478923ff08bf67fde6c64013158d");
                            ("result", Json.JStr tx_hash)])]).

(** The reply to the subscription request. *)
Definition subscribed : string :=
  Json.dumps_str
    (Json.JObj [("jsonrpc", Json.JStr "2.0"); ("id", Json.JInt 1);
                ("result", Json.JStr "0x9cef478923ff08bf67fde6c64013158d")]).

(** A JSON-RPC batch (an array), and a notification without parameters. *)
Definition batch : string := "[]".

Definition null_params : string :=
  Json.dumps_str
    (Json.JObj [("jsonrpc", Json.JStr "2.0");
                ("method", Json.JStr "eth_subscription");
                ("params", Json.JNull)]).

End Sample.

(* ===================================================================== *)
(** * Discord helper                                                      *)
(* ===================================================================== *)

Module Discord.

(** [s[:n]] *)
Fixpoint str_take (n : nat) (s : string) : string :=
  match n, s with
  | O, _ => EmptyString
  | S n', String c r => String c (str_take n' r)
  | S _, EmptyString => EmptyString
  end.

(** The JSON body posted to the webhook; [embeds] is a key only when there
    are embeds. *)
Record Payload (E : Type) : Type := {
  content : string;
  embeds : option (list E)
}.
Arguments content {E} _.
Arguments embeds {E} _.

(** What [discord_send] prints. *)
Inductive Log : Type :=
| WarnNoWebhook
| ErrStatus (status : Z)
| ErrSend (e : exn).

(** [discord_send]: the payload handed to [requests.post], if any, and the
    lines printed.  [WEBHOOK] is the module's global; [post] is the outcome
    of the request (the status code, or an exception). *)
Definition discord_send {E} (WEBHOOK : option string) (post : Payload E -> res Z)
    (text : string) (embed_list : option (list E)) : option (Payload E) * list Log :=
  match WEBHOOK with
  | Some (String _ _) =>
      let payload :=
        {| content := str_take 1900 text;
           embeds := match embed_list with
                     | Some (e :: r) => Some (take 10 (e :: r))
                     | _ => None
                     end |} in
      (Some payload,
       match post payload with
       | Ret status => if 300 <=? status then [ErrStatus status] else []
       | Raise e => [ErrSend e]
       end)
  | _ => (None, [WarnNoWebhook])
  end.

End Discord.

(* ===================================================================== *)
(** * EVM watcher: resolving a pending transaction, and the loop          *)
(* ===================================================================== *)

Module Loop.

(** What the two ways of fetching a transaction give for one hash:
    [w3_http.eth.get_transaction(tx_hash)] and the raw
    [eth_getTransactionByHash] request, each a transaction, nothing
    (a falsy result), or an exception. *)
Record Lookup : Type := {
  primary : res (option Evm.Tx);
  fallback : res (option Evm.Tx)
}.

(** Truthiness of an optional string. *)
Definition str_truthy (o : option string) : bool :=
  match o with
  | Some (String _ _) => true
  | _ => false
  end.

(** Whether [w3_http] is set after the preamble of [watch_evm]: only when
    [cfg.http] is set and constructing the provider did not raise. *)
Definition w3_http (cfg : Evm.EvmChainCfg) (built : bool) : bool :=
  str_truthy (Evm.http cfg) && built.

(** The head of the loop body: the transaction the iteration goes on with,
    or [None] for [continue]. *)
Definition resolve (cfg : Evm.EvmChainCfg) (built : bool) (lk : Lookup)
    : option Evm.Tx :=
  let tx := if w3_http cfg built then try_or (primary lk) None else None in
  match tx with
  | Some t => Some t
  | None =>
      if str_truthy (Evm.http cfg) then try_or (fallback lk) None else None
  end.

(** One hash yielded by the subscription, with what its iteration
    observes. *)
Record Pending : Type := {
  tx_hash : string;
  lookup : Lookup;
  env : Learn.Env
}.

Section WithLibraries.

Context `{Libs}.

(** One iteration of [async for tx_hash in evm_ws_sub(cfg.ws)]. *)
Definition watch_evm_iteration (cfg : Evm.EvmChainCfg) (built : bool)
    (native_usd : float) (autolearn : option Learn.AutoLearn)
    (p : Pending) (w : Learn.World)
    : option Evm.Embed * option string * Learn.World :=
  match resolve cfg built (lookup p) with
  | Some tx =>
      Watcher.watch_evm_step cfg native_usd autolearn (env p) (tx_hash p) tx w
  | None => (None, None, w)
  end.

(** [watch_evm] over the hashes yielded so far: per hash, the embed sent
    and the address announced; and the auto-learn world at the end.
    [rate] is what [get_native_usd] returned before the loop. *)
Fixpoint watch_evm_from (cfg : Evm.EvmChainCfg) (built : bool)
    (native_usd : float) (autolearn : option Learn.AutoLearn)
    (pending : list Pending) (w : Learn.World)
    : list (option Evm.Embed * option string) * Learn.World :=
  match pending with
  | [] => ([], w)
  | p :: r =>
      let '(e, a, w1) := watch_evm_iteration cfg built native_usd autolearn p w in
      let '(out, w2) := watch_evm_from cfg built native_usd autolearn r w1 in
      ((e, a) :: out, w2)
  end.

Definition watch_evm (cfg : Evm.EvmChainCfg) (built : bool)
    (rate : option float) (autolearn : option Learn.AutoLearn)
    (pending : list Pending) (w : Learn.World)
    : list (option Evm.Embed * option string) * Learn.World :=
  watch_evm_from cfg built (Evm.native_usd_of rate) autolearn pending w.

End WithLibraries.

End Loop.

(* ===================================================================== *)
(** * Solana logs watcher                                                 *)
(* ===================================================================== *)

Module Solana.
Import Discord.

Record SolanaCfg : Type := {
  http : string;
  wss : string;
  explorer_tx : string;
  program_ids : list string;
  whales : list string
}.

(** The [result] of a [logsNotification], as far as [handle_filter] reads
    it: [signature] a string or missing, [logs] a list of strings or
    missing. *)
Record LogsResult : Type := {
  signature : option string;
  logs : option (list string)
}.

(** The identifiers of [filters], one subscription each:
    [[{"mentions": pk} for pk in (cfg.program_ids + cfg.whales)]]. *)
Definition filters (cfg : SolanaCfg) : list string :=
  program_ids cfg ++ whales cfg.

(** [(log_lines[0] if log_lines else "")[:180]] with
    [log_lines = res.get("logs") or []]. *)
Definition first_line (res : LogsResult) : string :=
  str_take 180
    match logs res with
    | Some (l :: _) => l
    | _ => ""
    end.

(** The body of the loop in [handle_filter]: the embed sent, if any. *)
Definition handle_result (cfg : SolanaCfg) (res : LogsResult) : option Evm.Embed :=
  match signature res with
  | Some (String c r) =>
      let sig := String c r in
      Some {| Evm.title := "SOLANA • Whale/DEX Mention";
              Evm.description :=
                "**Signature:** `" +:+ sig +:+ "`" +:+ Evm.nl
                +:+ "**First log:** `" +:+ first_line res +:+ "`" +:+ Evm.nl;
              Evm.color := 0x5865F2;
              Evm.url := explorer_tx cfg +:+ sig;
              Evm.footer := "logsSubscribe mention" |}
  | _ => None
  end.

(** [handle_filter] on what one subscription yields. *)
Definition handle_filter (cfg : SolanaCfg) (results : list LogsResult)
    : list Evm.Embed :=
  omap (handle_result cfg) results.

(** [watch_solana]: [yielded pk] is what the subscription mentioning [pk]
    yields; the embeds sent by each of the gathered tasks. *)
Definition watch_solana (cfg : SolanaCfg) (yielded : string -> list LogsResult)
    : list (string * list Evm.Embed) :=
  map (fun pk => (pk, handle_filter cfg (yielded pk))) (filters cfg).

End Solana.

(* ===================================================================== *)
(** * generate_config.py                                                  *)
(* ===================================================================== *)

Module GenConfig.
Import Json.

(** [str.isspace] on one character. *)
Definition is_space (c : ascii) : bool :=
  let n := N_of_ascii c in
  (((9 <=? n) && (n <=? 13)) || ((28 <=? n) && (n <=? 32))
   || (n =? 133) || (n =? 160))%N.

Fixpoint lstrip (cs : list ascii) : list ascii :=
  match cs with
  | c :: r => if is_space c then lstrip r else cs
  | [] => []
  end.

Definition rstrip (cs : list ascii) : list ascii :=
  reverse (lstrip (reverse cs)).

(** [x.strip()] *)
Definition strip (cs : list ascii) : list ascii := rstrip (lstrip cs).

(** [v.split(",")] *)
Fixpoint split_comma (cs : list ascii) : list (list ascii) :=
  match cs with
  | [] => [[]]
  | c :: r =>
      if Ascii.eqb c ","%char then [] :: split_comma r
      else
        match split_comma r with
        | x :: xs => (c :: x) :: xs
        | [] => [[c]]
        end
  end.

(** [",".join(items)] *)
Fixpoint join_comma (items : list (list ascii)) : list ascii :=
  match items with
  | [] => []
  | [x] => x
  | x :: r => x ++ ","%char :: join_comma r
  end.

(** [csv_env], on the value [os.getenv(name, "")] gives:
    [[x.strip() for x in v.split(",") if x.strip()]]. *)
Definition csv_chars (cs : list ascii) : list (list ascii) :=
  filter (fun x => x <> []) (map strip (split_comma cs)).

Definition csv_env (v : string) : list string :=
  map text (csv_chars (chars v)).

(** [WHALES_EVM = [w.lower() for w in csv_env("WHALES_EVM")]] *)
Definition WHALES_EVM (v : string) : list string := map lower (csv_env v).

(** An item [csv_env] gives back as it is: not empty, no comma, no white
    space at either end. *)
Definition clean (x : list ascii) : Prop :=
  x <> [] /\ (","%char ∉ x) /\ strip x = x.

End GenConfig.

(* ===================================================================== *)
(** * The libraries with prefixed selectors                               *)
(* ===================================================================== *)

(** The stand-in of [Sample] with the three selectors as [HexBytes.hex()]
    returns them when it writes the ["0x"] prefix (hexbytes before 1.0). *)
Module Prefixed.

#[export] Instance libs : Libs := {|
  SIG_V2_SWAP_EXACT_ETH_FOR_TOKENS := "0x7ff36ab5";
  SIG_V2_SWAP_EXACT_TOKENS_FOR_TOKENS := "0x38ed1739";
  SIG_V3_EXACT_INPUT_SINGLE := "0x414bf389";
  abi_obj := @abi_obj Sample.libs;
  abi_decode := @abi_decode Sample.libs;
  obj_iter := @obj_iter Sample.libs;
  obj_hex := @obj_hex Sample.libs;
  to_checksum_address := @to_checksum_address Sample.libs;
  int_base16 := @int_base16 Sample.libs;
  from_wei_ether := @from_wei_ether Sample.libs;
  format_4f := @format_4f Sample.libs;
  format_usd := @format_usd Sample.libs
|}.

End Prefixed.

(* ===================================================================== *)
(** * The libraries with addresses decoded to strings                     *)
(* ===================================================================== *)

(** The stand-in of [Sample] with decoded values as eth_abi returns
    them: an [address] is a [str], and a [str] has no [hex] method, so
    [p.hex()] raises [AttributeError]. *)
Module Decoded.

#[export] Instance libs : Libs := {|
  SIG_V2_SWAP_EXACT_ETH_FOR_TOKENS := "7ff36ab5";
  SIG_V2_SWAP_EXACT_TOKENS_FOR_TOKENS := "38ed1739";
  SIG_V3_EXACT_INPUT_SINGLE := "414bf389";
  abi_obj := string;
  abi_decode := fun types data =>
    if bool_decide ("address[]" ∈ types) then Raise LibraryError
    else if (length data <? 32 * length types)%nat then Raise LibraryError
    else Ret (map (fun w => "0x" +:+ bytes_hex (drop 12 w))
                (Sample.words (length types) data));
  obj_iter := fun _ => Raise TypeError;
  obj_hex := fun _ => Raise AttributeError;
  to_checksum_address := @to_checksum_address Sample.libs;
  int_base16 := @int_base16 Sample.libs;
  from_wei_ether := @from_wei_ether Sample.libs;
  format_4f := @format_4f Sample.libs;
  format_usd := @format_usd Sample.libs
|}.

End Decoded.

(* ===================================================================== *)
(** * Properties                                                          *)
(* ===================================================================== *)

(** ** Python built-ins *)

Module PyFacts.

Lemma fromhex_byte_hex (b : byte) (rest : string) :
  fromhex (byte_hex b +:+ rest)
  = Py.bind (fromhex rest) (fun bs => Ret (b :: bs)).
Proof. destruct b; reflexivity. Qed.

(** [bytes.fromhex(data.hex())] is [data]. *)
Lemma fromhex_bytes_hex (bs : list byte) : fromhex (bytes_hex bs) = Ret bs.
Proof.
  induction bs as [|b bs IH]; [reflexivity|].
  change (bytes_hex (b :: bs)) with (byte_hex b +:+ bytes_hex bs).
  rewrite fromhex_byte_hex, IH. reflexivity.
Qed.

(** On a float that compares equal to zero, [x or 0] changes nothing a
    comparison can see. *)
Lemma ge_zero_sign (u thr : float) :
  PrimFloat.eqb u 0%float = true -> ge u thr = ge 0%float thr.
Proof.
  unfold ge. rewrite FloatAxioms.eqb_spec, !FloatAxioms.leb_spec.
  replace (Prim2SF 0%float) with (S754_zero false) by reflexivity.
  destruct (Prim2SF u) as [s| s| |s m e]; cbn;
    try discriminate; try (destruct s; discriminate).
  intros _.
  destruct (Prim2SF thr) as [s'| s'| |s' m' e']; destruct s;
    try destruct s'; reflexivity.
Qed.

Lemma ge_float_or_zero (u thr : float) :
  ge (float_or_zero (Some u)) thr = ge u thr.
Proof.
  unfold float_or_zero, float_truthy.
  destruct (PrimFloat.eqb u 0%float) eqn:E; cbn; [|reflexivity].
  symmetry. apply ge_zero_sign, E.
Qed.

Lemma lower_idempotent (s : string) : lower (lower s) = lower s.
Proof.
  induction s as [|c s IH]; [reflexivity|].
  cbn. rewrite IH. f_equal.
  destruct c as [[] [] [] [] [] [] [] []]; reflexivity.
Qed.

Lemma str_or_empty (s : string) : str_or (Some s) "" = s.
Proof. destruct s; reflexivity. Qed.

End PyFacts.

(** ** [parse_uniswap_call] *)

Module UniswapFacts.
Import Uniswap PyFacts.

Section WithLibraries.

Context `{Libs}.

Lemma catch_returns {A} (c : res (option A)) :
  exists r, try_except c (fun _ => Ret None) = Ret r.
Proof. destruct c; cbn; eauto. Qed.

Lemma catch_raise {A} (c : res (option A)) :
  raises c -> try_except c (fun _ => Ret None) = Ret None.
Proof. intros [e ->]. reflexivity. Qed.

Lemma decode_v2_raises types ipath meth data :
  raises (abi_decode types data) -> raises (decode_v2 types ipath meth data).
Proof.
  intros [e He]. exists e. unfold decode_v2.
  rewrite fromhex_bytes_hex. cbn. rewrite He. reflexivity.
Qed.

Lemma decode_v3_raises data :
  raises (abi_decode ["address"; "address"; "uint24"; "address";
                      "uint256"; "uint256"; "uint256"; "uint160"] data)
  -> raises (decode_v3 data).
Proof.
  intros [e He]. exists e. unfold decode_v3.
  rewrite fromhex_bytes_hex. cbn. rewrite He. reflexivity.
Qed.

(** C5.  For every byte string, [parse_uniswap_call] returns (it never
    raises); and it returns [None] when the input has fewer than 4
    bytes, when the hex of its first 4 bytes is none of the three
    selectors, and when the selector is recognised but decoding its
    arguments raises (in [_abi_decode] or anywhere in the branch). *)
Theorem parse_uniswap_call_total (input_data : list byte) :
  let sig := bytes_hex (take 4 input_data) in
  let data := drop 4 input_data in
  let v2a := decode_v2 ["uint256"; "address[]"; "address"; "uint256"] 1
               "swapExactETHForTokens" data in
  let v2b := decode_v2 ["uint256"; "uint256"; "address[]"; "address"; "uint256"] 2
               "swapExactTokensForTokens" data in
  let v3 := decode_v3 data in
  returns (parse_uniswap_call input_data)
  /\ ((length input_data < 4)%nat -> parse_uniswap_call input_data = Ret None)
  /\ (sig <> SIG_V2_SWAP_EXACT_ETH_FOR_TOKENS ->
      sig <> SIG_V2_SWAP_EXACT_TOKENS_FOR_TOKENS ->
      sig <> SIG_V3_EXACT_INPUT_SINGLE ->
      parse_uniswap_call input_data = Ret None)
  /\ (sig = SIG_V2_SWAP_EXACT_ETH_FOR_TOKENS -> raises v2a ->
      parse_uniswap_call input_data = Ret None)
  /\ (sig <> SIG_V2_SWAP_EXACT_ETH_FOR_TOKENS ->
      sig = SIG_V2_SWAP_EXACT_TOKENS_FOR_TOKENS -> raises v2b ->
      parse_uniswap_call input_data = Ret None)
  /\ (sig <> SIG_V2_SWAP_EXACT_ETH_FOR_TOKENS ->
      sig <> SIG_V2_SWAP_EXACT_TOKENS_FOR_TOKENS ->
      sig = SIG_V3_EXACT_INPUT_SINGLE -> raises v3 ->
      parse_uniswap_call input_data = Ret None)
  /\ ((forall types, raises (abi_decode types data)) ->
      parse_uniswap_call input_data = Ret None).
Proof.
  intros sig data v2a v2b v3. unfold parse_uniswap_call.
  fold sig data v2a v2b v3.
  destruct (Z.of_nat (length input_data) <? 4) eqn:Hlen.
  { repeat split; intros; solve [reflexivity | eexists; reflexivity]. }
  apply Z.ltb_ge in Hlen.
  destruct (String.eqb_spec sig SIG_V2_SWAP_EXACT_ETH_FOR_TOKENS) as [E1|E1];
    [|destruct (String.eqb_spec sig SIG_V2_SWAP_EXACT_TOKENS_FOR_TOKENS) as [E2|E2];
      [|destruct (String.eqb_spec sig SIG_V3_EXACT_INPUT_SINGLE) as [E3|E3]]].
  all: repeat split; intros;
    try solve [ reflexivity | lia | congruence | apply catch_returns
              | apply catch_raise; assumption
              | eexists; reflexivity
              | apply catch_raise;
                first [apply decode_v2_raises | apply decode_v3_raises]; auto ].
Qed.

End WithLibraries.

(** *** Examples, with [Sample.libs] for the libraries *)

Import Sample.

Example exact_input_single_decoded :
  parse_uniswap_call exact_input_single
  = Ret (Some {| dex := "V3"; method := "exactInputSingle";
                 token_in := "0x0000000000000000000000000000000000000111";
                 token_out := "0x0000000000000000000000000000000000000222" |}).
Proof. vm_compute. reflexivity. Qed.

(** C5, at instances: two bytes; an unknown selector; a known selector
    whose arguments are cut short. *)
Lemma parse_uniswap_call_total_witness :
  parse_uniswap_call [x41; x4b] = Ret None
  /\ parse_uniswap_call [xa9; x05; x9c; xbb; x00; x00] = Ret None
  /\ parse_uniswap_call (take 40 exact_input_single) = Ret None.
Proof.
  pose proof (parse_uniswap_call_total [x41; x4b]) as H1.
  pose proof (parse_uniswap_call_total [xa9; x05; x9c; xbb; x00; x00]) as H2.
  pose proof (parse_uniswap_call_total (take 40 exact_input_single)) as H3.
  cbv zeta in H1, H2, H3.
  destruct H1 as (_ & Hshort & _).
  destruct H2 as (_ & _ & Hother & _).
  destruct H3 as (_ & _ & _ & _ & _ & Hcut & _).
  split; [|split].
  - apply Hshort. repeat constructor.
  - apply Hother; by vm_compute.
  - apply Hcut; try by vm_compute. exists LibraryError. by vm_compute.
Defined.

End UniswapFacts.

(** ** Classification of EVM transactions *)

Module EvmFacts.
Import Uniswap Evm PyFacts.

Section WithLibraries.

Context `{Libs}.

Lemma routers_fold_lookup (l : list (string * string)) (m : gmap string string)
    (k : string) :
  is_Some (foldl (fun m na => <[lower na.2 := na.1]> m) m l !! k)
  <-> is_Some (m !! k) \/ exists nm r, (nm, r) ∈ l /\ lower r = k.
Proof.
  revert m. induction l as [|[nm r] l IH]; intros m; cbn.
  - split; [auto|]. intros [?|(? & ? & Hin & _)]; [done|]. inversion Hin.
  - rewrite IH. rewrite lookup_insert_is_Some. split.
    + intros [[E|[_ ?]]|(nm' & r' & Hin & E)]; [|by left|].
      * right. exists nm, r. split; [left|done].
      * right. exists nm', r'. split; [by right|done].
    + intros [?|(nm' & r' & Hin & E)].
      * left. destruct (decide (lower r = k)); auto.
      * apply elem_of_cons in Hin as [[= -> ->]|Hin]; [auto|].
        right. eauto.
Qed.

Lemma is_router_spec cfg tx :
  is_router cfg tx = true <-> known_router cfg (destination tx).
Proof.
  unfold is_router, known_router, routers_lc, same_address.
  rewrite bool_decide_eq_true, routers_fold_lookup.
  rewrite lookup_empty. split.
  - intros [[? ?]|?]; [done|]. done.
  - intros ?. by right.
Qed.

Lemma is_whale_spec cfg tx :
  is_whale cfg tx = true <-> known_whale cfg (sender tx).
Proof.
  unfold is_whale, known_whale, whales_lc, same_address.
  rewrite bool_decide_eq_true, elem_of_map. split.
  - intros (w & E & Hw). eauto.
  - intros (w & Hw & E). eauto.
Qed.

Lemma big_usd_spec cfg native_usd tx :
  big_usd cfg native_usd tx = true <-> fiat_or_zero_reached cfg native_usd tx.
Proof.
  unfold big_usd, fiat_or_zero_reached.
  destruct (est_usd native_usd tx) as [u|]; cbn [default];
    [rewrite ge_float_or_zero|]; reflexivity.
Qed.

Lemma swap_info_spec cfg tx :
  is_router cfg tx = true ->
  is_Some (swap_info cfg tx) <-> swap_decoded tx.
Proof.
  intros Hr. unfold swap_info, swap_decoded. rewrite Hr. cbn [andb].
  destruct (tx_input tx) as [inp|b|]; cycle 1.
  { split; [intros [? [=]]|]. intros (? & ? & ? & [=] & _). }
  { split; [intros [? [=]]|]. intros (? & ? & ? & [=] & _). }
  destruct (startswith "0x" inp) eqn:Hs; cbn [andb]; cycle 1.
  { split; [intros [? [=]]|].
    intros (? & ? & ? & ? & ? & _). simplify_eq; congruence. }
  destruct (10 <=? len inp) eqn:Hl; cycle 1.
  { apply Z.leb_gt in Hl. split; [intros [? [=]]|].
    intros (? & ? & ? & ? & _ & ? & _). simplify_eq; lia. }
  apply Z.leb_le in Hl.
  destruct (fromhex (str_drop 2 inp)) as [b|e] eqn:Hb; cbn -[str_drop]; cycle 1.
  { split; [intros [? [=]]|].
    intros (? & ? & ? & ? & _ & _ & ? & _). simplify_eq; congruence. }
  destruct (parse_uniswap_call b) as [[d|]|e] eqn:Hp; cbn -[str_drop].
  - split; [|eauto]. intros _. exists inp, b, d. auto.
  - split; [intros [? [=]]|].
    intros (? & ? & ? & ? & _ & _ & ? & ?). simplify_eq; congruence.
  - split; [intros [? [=]]|].
    intros (? & ? & ? & ? & _ & _ & ? & ?). simplify_eq; congruence.
Qed.

Lemma alertable_spec cfg native_usd tx :
  alertable cfg native_usd tx = true <-> amended_rule cfg native_usd tx.
Proof.
  unfold alertable, amended_rule.
  rewrite andb_true_iff, !orb_true_iff, bool_decide_eq_true.
  rewrite is_router_spec, is_whale_spec, big_usd_spec.
  split.
  - intros [Hr Hd]. split; [done|].
    apply is_router_spec in Hr.
    rewrite (swap_info_spec _ _ Hr) in Hd. unfold native_reached.
    tauto.
  - intros [Hr Hd]. split; [done|].
    apply is_router_spec in Hr.
    rewrite (swap_info_spec _ _ Hr). unfold native_reached, big_native in *.
    tauto.
Qed.

(** C1, as amended.  An alert is sent for a resolved transaction if and
    only if its destination is a known router address and the sender is
    a known whale, or the native value reaches the native threshold
    (boundary included), or the estimated fiat value, counted as 0 when
    there is no estimate, reaches the fiat threshold, or a Swap
    Descriptor was decoded from the input. *)
Theorem alert_iff_amended_rule cfg native_usd tx_hash tx :
  is_Some (watch_evm_body cfg native_usd tx_hash tx)
  <-> amended_rule cfg native_usd tx.
Proof.
  rewrite <- alertable_spec. unfold watch_evm_body.
  destruct (alertable cfg native_usd tx); split; intros Ha;
    first [done | by eexists | by destruct Ha].
Qed.

(** A transaction to an address that is no router is never alerted on. *)
Lemma non_router_never_alerted cfg native_usd tx_hash tx :
  ~ known_router cfg (destination tx) ->
  watch_evm_body cfg native_usd tx_hash tx = None.
Proof.
  intros Hn. destruct (watch_evm_body cfg native_usd tx_hash tx) eqn:E; [|done].
  exfalso. apply Hn. unfold watch_evm_body in E.
  destruct (alertable cfg native_usd tx) eqn:Ha; [|done].
  by apply alertable_spec in Ha as [? _].
Qed.

(** With no usable rate there is no estimate. *)
Lemma est_usd_no_rate rate tx :
  rate = None \/ (exists r, rate = Some r /\ PrimFloat.eqb r 0%float = true) ->
  est_usd (native_usd_of rate) tx = None.
Proof.
  unfold est_usd, native_usd_of, float_truthy.
  intros [->|(r & -> & Hr)]; [reflexivity|]. rewrite Hr. reflexivity.
Qed.

(** C6, as amended.  Without a native-asset rate (the lookup returned
    [None], or a rate equal to zero) there is no fiat estimate, the
    alert text carries no fiat figure, and the fiat rule compares 0
    with the fiat threshold: when 0 does not reach the threshold (any
    positive threshold) the rule does not fire and alerting rests on the
    other three reasons.  With a rate, the estimate is the native
    amount times the rate.  A price request that fails with nothing
    cached makes [get_native_usd] return [None]; it does not raise. *)
Theorem fiat_estimate_without_rate cfg rate tx :
  let native_usd := native_usd_of rate in
  ((rate = None \/ (exists r, rate = Some r /\ PrimFloat.eqb r 0%float = true)) ->
     est_usd native_usd tx = None
     /\ usd_str (est_usd native_usd tx) = ""
     /\ big_usd cfg native_usd tx = ge 0%float (min_usd cfg)
     /\ (ge 0%float (min_usd cfg) = false ->
         big_usd cfg native_usd tx = false
         /\ alertable cfg native_usd tx
            = is_router cfg tx
              && (is_whale cfg tx || big_native cfg tx
                  || bool_decide (is_Some (swap_info cfg tx)))))
  /\ (forall r, rate = Some r -> PrimFloat.eqb r 0%float = false ->
      est_usd native_usd tx = Some (PrimFloat.mul (value_native tx) r))
  /\ (forall cache now e id secs,
      cache !! id = None ->
      Pricing.get_native_usd cache now (Raise e) id secs = (None, cache)).
Proof.
  intros native_usd. split; [|split]; cycle 2.
  { intros cache now e id secs Hc. unfold Pricing.get_native_usd.
    destruct (String.eqb id ""); [done|]. by rewrite Hc. }
  - intros Hno. pose proof (est_usd_no_rate rate tx Hno) as E.
    fold native_usd in E. unfold big_usd, alertable, big_usd. rewrite E. cbn.
    split; [done|]. split; [done|]. split; [done|].
    intros Hz. split; [done|]. rewrite Hz, orb_false_r. reflexivity.
  - intros r -> Hr. unfold native_usd, est_usd, native_usd_of, float_truthy.
    rewrite Hr. cbn. rewrite Hr. reflexivity.
Qed.

End WithLibraries.

(** *** Examples, with [Sample.libs] for the libraries *)

Import Sample.

(** The specification's scenario: thresholds 50000 USD and 10 native, rate
    2000, value 5, unknown sender, no swap: not alertable. *)
Example scenario_below_thresholds :
  watch_evm_body (cfg 50000 10 []) (native_usd_of (Some 2000%float)) "0xh"
    (transfer router (5 * 10 ^ 18)) = None.
Proof. vm_compute. reflexivity. Qed.

(** Value exactly at the native threshold: alertable. *)
Example scenario_native_boundary :
  is_Some (watch_evm_body (cfg 50000 5 []) (native_usd_of (Some 2000%float)) "0xh"
             (transfer router (5 * 10 ^ 18))).
Proof. vm_compute. eexists. reflexivity. Qed.

(** The specification's scenario: a call of the router with no value whose
    input decodes as [exactInputSingle]: alertable by the swap alone. *)
Example scenario_swap_detected :
  is_Some (watch_evm_body (cfg 50000 10 []) (native_usd_of (Some 2000%float)) "0xh"
             swap_call)
  /\ is_whale (cfg 50000 10 []) swap_call = false
  /\ big_native (cfg 50000 10 []) swap_call = false
  /\ big_usd (cfg 50000 10 []) (native_usd_of (Some 2000%float)) swap_call = false.
Proof. vm_compute. repeat split; try reflexivity. eexists. reflexivity. Qed.

(** C1, counterexample.  Router destination, unknown sender, 5 native
    against a threshold of 10, no swap data, no rate, fiat threshold 0:
    an alert is sent although none of the four claimed reasons holds
    (there is no fiat estimate to compare). *)
Lemma alert_without_claimed_reason :
  let c := cfg 0 10 [] in
  let tx := transfer router (5 * 10 ^ 18) in
  is_Some (watch_evm_body c (native_usd_of None) "0xh" tx)
  /\ ~ claimed_rule c (native_usd_of None) tx.
Proof.
  split; [vm_compute; eexists; reflexivity|].
  intros [_ [(w & Hw & _)|[Hn|[(u & Hu & _)|(inp & b & d & Hi & _ & Hl & _)]]]].
  - vm_compute in Hw. discriminate.
  - vm_compute in Hn. discriminate.
  - vm_compute in Hu. discriminate.
  - injection Hi as <-. vm_compute in Hl. by apply Hl.
Qed.

(** C6, counterexample.  The lookup returns a rate of zero, the fiat
    threshold is -1: the transaction is alertable, and only the fiat rule
    says so. *)
Lemma fiat_rule_fires_without_rate :
  let c := cfg (-1) 10 [] in
  let tx := transfer router 1 in
  let native_usd := native_usd_of (Some 0%float) in
  est_usd native_usd tx = None
  /\ big_usd c native_usd tx = true
  /\ is_whale c tx = false
  /\ big_native c tx = false
  /\ swap_info c tx = None
  /\ alertable c native_usd tx = true
  /\ is_Some (watch_evm_body c native_usd "0xh" tx).
Proof. vm_compute. repeat split; try reflexivity. eexists. reflexivity. Qed.

(** C6, at an instance: no rate and a threshold of 50000. *)
Lemma fiat_estimate_without_rate_witness :
  let c := cfg 50000 10 [] in
  let tx := transfer router (5 * 10 ^ 18) in
  usd_str (est_usd (native_usd_of None) tx) = ""
  /\ big_usd c (native_usd_of None) tx = false
  /\ est_usd (native_usd_of (Some 2000%float)) tx
     = Some (PrimFloat.mul (value_native tx) 2000%float).
Proof.
  intros c tx.
  destruct (fiat_estimate_without_rate c None tx) as [Hno _].
  destruct (fiat_estimate_without_rate c (Some 2000%float) tx) as (_ & Hyes & _).
  destruct (Hno (or_introl eq_refl)) as (_ & Hs & _ & Hb).
  split; [exact Hs|]. split; [exact (proj1 (Hb eq_refl))|].
  exact (Hyes _ eq_refl eq_refl).
Defined.

End EvmFacts.

(** ** Dictionaries *)

Module DictFacts.
Import Json.

Section Dict.

Context {V : Type}.
Implicit Types (d : list (string * V)) (k : string) (v : V).

Lemma dict_get_set_eq d k v : dict_get k (dict_set k v d) = Some v.
Proof.
  induction d as [|[k' v'] d IH]; cbn.
  - by rewrite String.eqb_refl.
  - destruct (String.eqb_spec k k') as [->|Hne]; cbn.
    + by rewrite String.eqb_refl.
    + destruct (String.eqb_spec k k'); [done|]. exact IH.
Qed.

Lemma dict_get_set_ne d k k' v : k' <> k -> dict_get k' (dict_set k v d) = dict_get k' d.
Proof.
  intros Hne. induction d as [|[k0 v0] d IH]; cbn.
  - destruct (String.eqb_spec k' k); [done|reflexivity].
  - destruct (String.eqb_spec k k0) as [->|Hk]; cbn.
    + destruct (String.eqb_spec k' k0); [done|reflexivity].
    + destruct (String.eqb_spec k' k0); [reflexivity|exact IH].
Qed.


(** The keys keep their order; a new key goes to the end. *)
Lemma dict_set_keys d k v :
  map fst (dict_set k v d)
  = match dict_get k d with
    | Some _ => map fst d
    | None => map fst d ++ [k]
    end.
Proof.
  induction d as [|[k' v'] d IH]; cbn; [reflexivity|].
  destruct (String.eqb_spec k k') as [->|Hne]; cbn; [reflexivity|].
  rewrite IH. by destruct (dict_get k d).
Qed.

Lemma dict_set_fresh d k v : k ∉ map fst d -> dict_set k v d = d ++ [(k, v)].
Proof.
  induction d as [|[k' v'] d IH]; cbn; [reflexivity|].
  rewrite not_elem_of_cons. intros [Hne Hnin].
  destruct (String.eqb_spec k k'); [done|]. by rewrite IH.
Qed.

Lemma dict_of_pairs_acc (acc l : list (string * V)) :
  NoDup (map fst (acc ++ l)) ->
  foldl (fun d kv => dict_set kv.1 kv.2 d) acc l = acc ++ l.
Proof.
  revert acc. induction l as [|[k v] l IH]; intros acc Hnd; cbn.
  - by rewrite app_nil_r.
  - assert (Hk : k ∉ map fst acc).
    { rewrite map_app in Hnd. cbn in Hnd.
      apply NoDup_app in Hnd as (_ & Hd & _).
      intros Hin. apply (Hd k Hin). left. }
    rewrite (dict_set_fresh _ _ _ Hk). rewrite IH.
    + by rewrite <- app_assoc.
    + by rewrite <- app_assoc.
Qed.

(** [dict(pairs)] of pairs with distinct keys is those pairs. *)
Lemma dict_of_pairs_nodup (l : list (string * V)) :
  NoDup (map fst l) -> dict_of_pairs l = l.
Proof. intros Hnd. unfold dict_of_pairs. by rewrite dict_of_pairs_acc. Qed.

End Dict.

End DictFacts.

(** ** Auto-learn *)

Module LearnFacts.
Import Json Yaml Learn DictFacts.

(** The guards at the head of [consider]. *)
Lemma consider_disabled al env address est w :
  enabled al = false -> consider al env address est w = (None, w).
Proof. intros E. unfold consider. by rewrite E. Qed.

(** An address whose lower-case form is in [whales_set] is left alone:
    nothing is returned and nothing changes. *)
Lemma consider_in_whales_set al env address est w :
  lower address ∈ whales_set w -> consider al env address est w = (None, w).
Proof.
  intros Hin. unfold consider. destruct (enabled al); [|done]. cbn [negb].
  by rewrite (bool_decide_eq_true_2 _ Hin).
Qed.

Lemma consider_below_min al env address est w :
  lt (float_or_zero est) (min_usd al) = true ->
  consider al env address est w = (None, w).
Proof.
  intros Hlt. unfold consider. destruct (enabled al); [|done]. cbn [negb].
  case_bool_decide; [done|]. by rewrite Hlt.
Qed.

(** What a call that passes the guards does, by the test at the centre of
    [consider]. *)
Lemma consider_qualifying al env address est w :
  qualifying al address est w ->
  consider al env address est w
  = if (occurrences al <=? Z.of_nat (length (counted al env address w)))
       && (added_today (counted_state al env address w) <? max_new_per_day al)
    then
      (Some address,
       _save_state env
         {| whales_set := whales_set w ∪ {[lower address]};
            state := {| counters := counters (counted_state al env address w);
                        day := day (counted_state al env address w);
                        added_today :=
                          added_today (counted_state al env address w) + 1 |};
            state_file := state_file w;
            config_file := if persist_to_config al
                           then persist env address (lower address) (config_file w)
                           else config_file w |})
    else
      (None,
       _save_state env
         {| whales_set := whales_set w;
            state := counted_state al env address w;
            state_file := state_file w;
            config_file := config_file w |}).
Proof.
  intros (He & Hw & Hm). unfold consider. rewrite He. cbn [negb].
  rewrite (bool_decide_eq_false_2 _ Hw), Hm. reflexivity.
Qed.

Lemma reset_same_day today st :
  day st = today -> _reset_day_if_needed today st = st.
Proof. intros <-. unfold _reset_day_if_needed. by rewrite String.eqb_refl. Qed.

Lemma reset_added_today today st :
  added_today (_reset_day_if_needed today st) = added_today st
  \/ added_today (_reset_day_if_needed today st) = 0.
Proof. unfold _reset_day_if_needed. destruct (String.eqb _ _); auto. Qed.

Lemma reset_counters today st :
  counters (_reset_day_if_needed today st) = counters st.
Proof. unfold _reset_day_if_needed. by destruct (String.eqb _ _). Qed.

Lemma reset_day today st : day (_reset_day_if_needed today st) = today.
Proof.
  unfold _reset_day_if_needed.
  destruct (String.eqb_spec (day st) today); [done|reflexivity].
Qed.

(** One call with the quota used up and the day unchanged. *)
Lemma consider_quota_used al env address est w :
  added_today (state w) = max_new_per_day al ->
  today env = day (state w) ->
  let r := consider al env address est w in
  r.1 = None
  /\ whales_set r.2 = whales_set w
  /\ added_today (state r.2) = added_today (state w)
  /\ day (state r.2) = day (state w)
  /\ config_file r.2 = config_file w.
Proof.
  intros Hq Hd. cbn zeta. unfold consider.
  destruct (enabled al); cbn [negb]; [|done].
  case_bool_decide; [done|].
  destruct (lt _ _); [done|].
  rewrite reset_same_day by (cbn; congruence). cbn [added_today].
  rewrite Hq, Z.ltb_irrefl, andb_false_r. done.
Qed.

Lemma consider_quota_used_counted al env address est w :
  added_today (state w) = max_new_per_day al ->
  today env = day (state w) ->
  qualifying al address est w ->
  stored (lower address) (consider al env address est w).2
  = counted al env address w.
Proof.
  intros Hq Hd Hqual. rewrite (consider_qualifying _ _ _ _ _ Hqual).
  unfold counted_state. rewrite reset_same_day by (cbn; congruence).
  cbn [added_today]. rewrite Hq, Z.ltb_irrefl, andb_false_r.
  unfold stored at 1. cbn. by rewrite dict_get_set_eq.
Qed.

Lemma consider_new_day_promotes al env address est w :
  today env <> day (state w) ->
  qualifying al address est w ->
  0 < max_new_per_day al ->
  occurrences al <= Z.of_nat (length (counted al env address w)) ->
  (consider al env address est w).1 = Some address.
Proof.
  intros Hd Hqual Hmax Hocc. rewrite (consider_qualifying _ _ _ _ _ Hqual).
  unfold counted_state, _reset_day_if_needed. cbn [day].
  destruct (String.eqb_spec (day (state w)) (today env)); [congruence|].
  cbn [added_today].
  rewrite (proj2 (Z.leb_le _ _) Hocc), (proj2 (Z.ltb_lt _ _) Hmax). reflexivity.
Qed.

Lemma run_quota_used al calls : forall w,
  added_today (state w) = max_new_per_day al ->
  Forall (fun c => today (call_env c) = day (state w)) calls ->
  Forall (fun o => o = None) (run al calls w).1
  /\ whales_set (run al calls w).2 = whales_set w
  /\ added_today (state (run al calls w).2) = max_new_per_day al
  /\ day (state (run al calls w).2) = day (state w).
Proof.
  induction calls as [|c calls IH]; intros w Hq Hday; cbn.
  - auto.
  - apply Forall_cons in Hday as [Hc Hrest].
    pose proof (consider_quota_used al (call_env c) (call_address c)
                  (call_est_usd c) w Hq Hc) as (Hr & Hw & Ha & Hd & _).
    cbn zeta in *.
    destruct (consider al (call_env c) (call_address c) (call_est_usd c) w)
      as [o w1]. cbn in *.
    destruct (IH w1) as (IH1 & IH2 & IH3 & IH4).
    { congruence. }
    { eapply Forall_impl; [exact Hrest|]. cbn. congruence. }
    destruct (run al calls w1) as [os w2]. cbn in *.
    repeat split; [by constructor|congruence..].
Qed.

(** C4.  With [added_today] equal to [max_new_per_day], no call promotes
    for as long as the day does not change: every call returns [None],
    [whales_set] and [added_today] stay as they are, however many calls
    arrive.  A call that passes the guards still records its timestamp, so
    the address stays counted, and the same test is applied to it on its
    next such call: once the day has changed and the quota is positive, a
    call that finds enough timestamps promotes. *)
Theorem quota_used_no_promotion al w :
  added_today (state w) = max_new_per_day al ->
  (forall calls,
     Forall (fun c => today (call_env c) = day (state w)) calls ->
     Forall (fun o => o = None) (run al calls w).1
     /\ whales_set (run al calls w).2 = whales_set w
     /\ added_today (state (run al calls w).2) = max_new_per_day al
     /\ day (state (run al calls w).2) = day (state w))
  /\ (forall env address est,
        today env = day (state w) -> qualifying al address est w ->
        stored (lower address) (consider al env address est w).2
        = counted al env address w)
  /\ (forall env address est,
        today env <> day (state w) -> qualifying al address est w ->
        0 < max_new_per_day al ->
        occurrences al <= Z.of_nat (length (counted al env address w)) ->
        (consider al env address est w).1 = Some address).
Proof.
  intros Hq. split; [|split].
  - intros calls Hday. by apply run_quota_used.
  - intros env address est Hd Hqual. by apply consider_quota_used_counted.
  - intros env address est. apply consider_new_day_promotes.
Qed.

(** *** Counting up to a promotion *)

Lemma prune_all now W ts : Forall (fun t => now - t <= W) ts -> prune now W ts = ts.
Proof.
  unfold prune. induction 1 as [|t ts Ht _ IH]; [reflexivity|].
  rewrite filter_cons_True by exact Ht. by rewrite IH.
Qed.

Lemma all_within_before W l1 x l2 :
  all_within W (l1 ++ x :: l2) -> Forall (fun t => x - t <= W) l1.
Proof.
  induction l1 as [|t l1 IH]; cbn; [constructor|].
  intros [Hall Hrest]. constructor; [|by apply IH].
  apply Forall_app in Hall as [_ Hx]. by apply Forall_cons in Hx as [? _].
Qed.

Lemma ascending_last l T :
  ascending l -> last l = Some T -> Forall (fun t => t <= T) l.
Proof.
  induction l as [|t l IH]; cbn; [constructor|].
  intros [Hle Hasc] Hlast. destruct l as [|t' l].
  - cbn in Hlast. injection Hlast as ->. constructor; [lia|constructor].
  - rewrite last_cons_cons in Hlast. constructor; [|by apply IH].
    apply last_Some_elem_of in Hlast.
    by apply (proj1 (Forall_forall _ _) Hle).
Qed.

Lemma all_within_span W T l :
  Forall (fun t => t <= T) l -> Forall (fun t => T - t <= W) l -> all_within W l.
Proof.
  induction l as [|t l IH]; cbn; [done|].
  intros Hle Hw. apply Forall_cons in Hle as [_ Hle].
  apply Forall_cons in Hw as [Ht Hw]. split; [|by apply IH].
  eapply Forall_impl; [exact Hle|]. cbn. lia.
Qed.

Lemma stored_after_count al env address w :
  stored (lower address)
    (_save_state env
       {| whales_set := whales_set w;
          state := counted_state al env address w;
          state_file := state_file w;
          config_file := config_file w |})
  = counted al env address w.
Proof.
  unfold stored, _save_state, counted_state. cbn [state].
  rewrite reset_counters. cbn [counters]. by rewrite dict_get_set_eq.
Qed.

Lemma run_counts_to_promotion al addr calls : forall w,
  enabled al = true ->
  calls <> [] ->
  buys al addr calls ->
  addr ∉ whales_set w ->
  all_within (window al) (stored addr w ++ times calls) ->
  0 <= added_today (state w) < max_new_per_day al ->
  Z.of_nat (length (stored addr w) + length calls) = occurrences al ->
  exists c,
    last calls = Some c
    /\ (run al calls w).1
       = replicate (length calls - 1) None ++ [Some (call_address c)]
    /\ addr ∈ whales_set (run al calls w).2.
Proof.
  induction calls as [|c calls IH]; intros w Hen Hne Hbuys Hw Hwin Hq Hk; [done|].
  apply Forall_cons in Hbuys as [[Ha Hv] Hbuys].
  assert (Hqual : qualifying al (call_address c) (call_est_usd c) w).
  { unfold qualifying. by rewrite Ha. }
  assert (Hcounted : counted al (call_env c) (call_address c) w
                     = stored addr w ++ [now (call_env c)]).
  { unfold counted. rewrite Ha, prune_all; [done|].
    by apply (all_within_before _ _ _ (times calls)). }
  cbn [run]. rewrite (consider_qualifying _ _ _ _ _ Hqual), Hcounted.
  rewrite length_app. cbn [length].
  pose proof (reset_added_today (today (call_env c))
                {| counters := dict_set (lower (call_address c))
                                 (counted al (call_env c) (call_address c) w)
                                 (counters (state w));
                   day := day (state w);
                   added_today := added_today (state w) |}) as Hreset.
  fold (counted_state al (call_env c) (call_address c) w) in Hreset.
  cbn [added_today] in Hreset.
  destruct calls as [|c' calls].
  - (* the k-th call *)
    exists c. split; [reflexivity|].
    rewrite (proj2 (Z.leb_le _ _)) by (cbn in Hk; lia).
    rewrite (proj2 (Z.ltb_lt _ _)) by lia.
    cbn. split; [reflexivity|]. rewrite Ha.
    apply elem_of_union. right. by apply elem_of_singleton.
  - (* an earlier call *)
    rewrite (proj2 (Z.leb_gt _ _)) by (cbn in Hk; lia).
    cbn [andb].
    set (w1 := _save_state (call_env c) _).
    assert (Hs : stored addr w1 = stored addr w ++ [now (call_env c)]).
    { rewrite <- Hcounted, <- Ha. apply stored_after_count. }
    destruct (IH w1) as (cl & Hlast & Hrun & Hin).
    + exact Hen.
    + done.
    + exact Hbuys.
    + exact Hw.
    + rewrite Hs, <- app_assoc. exact Hwin.
    + unfold w1. cbn. lia.
    + rewrite Hs, length_app. cbn in *. lia.
    + exists cl. split; [by rewrite last_cons_cons|].
      destruct (run al (c' :: calls) w1) as [os w2] eqn:Hr.
      cbn in Hrun, Hin |- *. rewrite Hrun. split; [|exact Hin].
      cbn. by rewrite Nat.sub_0_r.
Qed.

(** A call that finds too few timestamps never promotes. *)
Lemma consider_too_few al env address est w :
  Z.of_nat (length (counted al env address w)) < occurrences al ->
  (consider al env address est w).1 = None
  /\ whales_set (consider al env address est w).2 = whales_set w.
Proof.
  intros Hfew. unfold consider.
  destruct (enabled al); cbn [negb]; [|done].
  case_bool_decide; [done|].
  destruct (lt _ _); [done|].
  fold (window al). fold (stored (lower address) w).
  fold (counted al env address w).
  by rewrite (proj2 (Z.leb_gt _ _) Hfew).
Qed.

(** *** Rewriting the configuration *)

(** A call that returns an address has promoted it. *)
Lemma consider_promoted al env address est w a :
  (consider al env address est w).1 = Some a ->
  a = address
  /\ lower address ∈ whales_set (consider al env address est w).2
  /\ config_file (consider al env address est w).2
     = (if persist_to_config al
        then persist env address (lower address) (config_file w)
        else config_file w).
Proof.
  unfold consider.
  destruct (enabled al); cbn [negb]; [|done].
  case_bool_decide; [done|].
  destruct (lt _ _); [done|].
  destruct (_ && _); [|done].
  cbn. intros [= <-]. split; [done|]. split; [|done].
  apply elem_of_union. right. by apply elem_of_singleton.
Qed.

Lemma lowered_strs (old : list string) :
  lowered (map YStr old) = Ret (map lower old).
Proof. induction old as [|a old IH]; [done|]. cbn. by rewrite IH. Qed.

(** C9.  When a call promotes with [persist_to_config] on, and the
    configuration file holds a mapping whose [whales_evm] is the list of
    strings [old], or is absent ([old] empty), and can be written: if the
    address is already among [old], case apart, the document is left as it
    is; otherwise [whales_evm] becomes [old] followed by the address
    exactly as it was passed, every other field keeps its value, and the
    fields keep their order (a new [whales_evm] comes last). *)
Theorem promotion_merges_config al env address est w m old :
  persist_to_config al = true ->
  config_writable env = true ->
  (consider al env address est w).1 = Some address ->
  config_file w = Some (YMap m) ->
  dict_get "whales_evm" m = Some (YSeq (map YStr old))
  \/ (dict_get "whales_evm" m = None /\ old = []) ->
  let after := config_file (consider al env address est w).2 in
  if bool_decide (lower address ∈ map lower old) then after = Some (YMap m)
  else
    exists m',
      after = Some (YMap m')
      /\ dict_get "whales_evm" m' = Some (YSeq (map YStr (old ++ [address])))
      /\ (forall k, k <> "whales_evm" -> dict_get k m' = dict_get k m)
      /\ map fst m'
         = (if bool_decide (is_Some (dict_get "whales_evm" m))
            then map fst m
            else map fst m ++ ["whales_evm"]).
Proof.
  intros Hp Hcw Hret Hfile Hlist after.
  destruct (consider_promoted _ _ _ _ _ _ Hret) as (_ & _ & Hcf).
  unfold after. rewrite Hcf, Hp, Hfile. clear Hcf after.
  assert (Hmap : load_mapping (YMap m) = Ret m).
  { unfold load_mapping, truthy. by destruct m. }
  assert (Hlst : whales_evm_list m = Ret (map YStr old)).
  { unfold whales_evm_list. by destruct Hlist as [->|[-> ->]]. }
  unfold persist, updated_config. rewrite Hmap. cbn. rewrite Hlst. cbn.
  rewrite lowered_strs. cbn.
  destruct (bool_decide (lower address ∈ map lower old)); [reflexivity|].
  rewrite Hcw. eexists. split; [reflexivity|].
  split; [by rewrite dict_get_set_eq, map_app|].
  split; [intros k Hk; by apply dict_get_set_ne|].
  rewrite dict_set_keys.
  destruct Hlist as [->|[-> _]]; [by rewrite bool_decide_eq_true_2|].
  rewrite bool_decide_eq_false_2; [done|]. by intros [x Hx].
Qed.

(** *** Examples *)

Import Sample.

(** C9, at instances: a new address is appended to a list that holds
    another one; an address listed in mixed case and seen in lower case
    leaves the document as it is. *)
Lemma promotion_merges_config_witness :
  let address := "0x52908400098527886E0F7030069857D2E4169EE7" in
  let other := "0x00000000000000000000000000000000000000bb" in
  let call := big_buy 0 "2025-01-01" address in
  (exists m',
     config_file (consider (settings 1 5) (call_env call) address
                    (call_est_usd call) (started [other] "2025-01-01" 0)).2
     = Some (YMap m')
     /\ dict_get "whales_evm" m' = Some (YSeq [YStr other; YStr address])
     /\ dict_get "thresholds" m'
        = Some (YMap [("min_usd", YInt 50000); ("min_native", YInt 10)])
     /\ map fst m' = ["chains"; "whales_evm"; "thresholds"])
  /\ config_file (consider (settings 1 5) (call_env call) (lower address)
                    (call_est_usd call) (started [address] "2025-01-01" 0)).2
     = Some (config_doc [address]).
Proof.
  intros address other call. split.
  - pose proof (promotion_merges_config (settings 1 5) (call_env call) address
                  (call_est_usd call) (started [other] "2025-01-01" 0)
                  _ [other]
                  eq_refl eq_refl eq_refl eq_refl (or_introl eq_refl)) as Hm.
    cbn zeta in Hm.
    change (bool_decide (lower address ∈ map lower [other])) with false in Hm.
    destruct Hm as (m' & Hafter & Hw & Hother & Hkeys).
    exists m'. split; [exact Hafter|]. split; [exact Hw|].
    split; [by rewrite Hother|exact Hkeys].
  - pose proof (promotion_merges_config (settings 1 5) (call_env call)
                  (lower address) (call_est_usd call)
                  (started [address] "2025-01-01" 0)
                  _ [address]
                  eq_refl eq_refl eq_refl eq_refl (or_introl eq_refl)) as Hm.
    cbn zeta in Hm.
    change (bool_decide (lower (lower address) ∈ map lower [address]))
      with true in Hm.
    exact Hm.
Defined.

(** C4, at an instance: quota 2 already used, three more purchases that
    would each be enough. *)
Lemma quota_used_no_promotion_witness :
  let calls := [big_buy 0 "2025-01-01" buyer; big_buy 60 "2025-01-01" buyer;
                big_buy 120 "2025-01-01" buyer] in
  let w := started [] "2025-01-01" 2 in
  Forall (fun o => o = None) (run (settings 1 2) calls w).1
  /\ whales_set (run (settings 1 2) calls w).2 = whales_set w
  /\ added_today (state (run (settings 1 2) calls w).2) = 2
  /\ day (state (run (settings 1 2) calls w).2) = "2025-01-01".
Proof.
  intros calls w.
  apply (proj1 (quota_used_no_promotion (settings 1 2) w eq_refl) calls).
  repeat constructor.
Defined.

(** C3, counterexample.  (a) With [k = 2] and a window of one hour, a
    second purchase exactly one hour after the first promotes, although
    counting only the events strictly within the window leaves one entry at
    each call.  (b) With [k = 1] and a quota of 0, a purchase that is the
    first and only one needed does not promote. *)
Lemma promotion_claim_fails :
  let first := big_buy 0 "2025-01-01" buyer in
  let second := big_buy 3600 "2025-01-01" buyer in
  let w0 := started [] "2025-01-01" 0 in
  let w1 := (run (settings 2 5) [first] w0).2 in
  ((run (settings 2 5) [first; second] w0).1 = [None; Some buyer]
   /\ Z.of_nat (length (prune_strict 0 3600 (stored buyer w0) ++ [0])) < 2
   /\ Z.of_nat (length (prune_strict 3600 3600 (stored buyer w1) ++ [3600])) < 2)
  /\ (run (settings 1 0) [first] w0).1 = [None].
Proof. vm_compute. repeat split; reflexivity. Qed.

(** C2, the failing input.  The configuration lists a whale in mixed case.
    The watcher knows its sender address as a whale ([build_evm_cfgs]
    lower-cases the list), but [main] hands the list to [AutoLearn] as it
    is, so [consider] does not find the lower-cased address in
    [whales_set]: it records a timestamp on the first call and promotes
    the address on the third, using up one promotion of the day. *)
Lemma configured_whale_learned_again :
  let listed := "0x52908400098527886E0F7030069857D2E4169EE7" in
  let seen := "0x52908400098527886e0f7030069857d2e4169ee7" in
  let w0 := started [listed] "2025-01-01" 0 in
  let calls := [big_buy 0 "2025-01-01" seen; big_buy 600 "2025-01-01" seen;
                big_buy 1200 "2025-01-01" seen] in
  lower listed = seen
  /\ seen ∈ build_evm_cfgs_whales [listed]
  /\ (consider (settings 3 5) (call_env (big_buy 0 "2025-01-01" seen)) seen
        (Some 300000%float) w0).1 = None
  /\ stored seen (consider (settings 3 5) (call_env (big_buy 0 "2025-01-01" seen))
                    seen (Some 300000%float) w0).2 = [0]
  /\ (run (settings 3 5) calls w0).1 = [None; None; Some seen]
  /\ added_today (state (run (settings 3 5) calls w0).2) = 1.
Proof.
  cbn zeta. split; [reflexivity|]. split.
  { compute_done. }
  vm_compute. repeat split; reflexivity.
Qed.

(** The same through the watcher: a transfer of 5 ETH at 60000 USD from
    the whale listed in mixed case is alerted on as a whale's, and
    [consider] starts counting it. *)
Example configured_whale_counted_by_watcher :
  let listed := "0x52908400098527886E0F7030069857D2E4169EE7" in
  let tx := {| Evm.tx_to := Some router; Evm.tx_from := Some listed;
               Evm.tx_value := Evm.ValInt (5 * 10 ^ 18);
               Evm.tx_input := Evm.InStr "0x" |} in
  let step := Watcher.watch_evm_step (cfg 50000 10 [listed]) 60000%float
                (Some (settings 3 5)) (call_env (big_buy 0 "2025-01-01" listed))
                "0xh" tx (started [listed] "2025-01-01" 0) in
  Evm.is_whale (cfg 50000 10 [listed]) tx = true
  /\ is_Some step.1.1
  /\ step.1.2 = None
  /\ stored (lower listed) step.2 = [0].
Proof. vm_compute. repeat split; try reflexivity. eexists. reflexivity. Qed.

End LearnFacts.

(** ** Reconnecting subscriptions *)

Module ChannelFacts.
Import Json Channel.

Section Generator.

Context {A : Type} (on_message : string -> res (option A)).

Lemma delays_app (o1 o2 : list (output A)) : delays (o1 ++ o2) = delays o1 ++ delays o2.
Proof.
  induction o1 as [|[x|d] o1 IH]; cbn; [reflexivity|exact IH|by rewrite IH].
Qed.

Lemma items_app (o1 o2 : list (output A)) : items (o1 ++ o2) = items o1 ++ items o2.
Proof.
  induction o1 as [|[x|d] o1 IH]; cbn; [reflexivity|by rewrite IH|exact IH].
Qed.

Lemma delays_receive msgs : delays (receive on_message msgs) = [].
Proof.
  induction msgs as [|raw msgs IH]; cbn; [reflexivity|].
  destruct (on_message raw) as [[x|]|e]; cbn; auto.
Qed.

Lemma next_backoff_delay i : next_backoff (delay_at i) = delay_at (S i).
Proof.
  unfold next_backoff, delay_at.
  rewrite Nat2Z.inj_succ, Z.pow_succ_r by lia.
  assert (0 < 2 ^ Z.of_nat i) by (apply Z.pow_pos_nonneg; lia). lia.
Qed.

Lemma subscribe_delays attempts : forall i,
  delays (subscribe on_message (delay_at i) attempts).1
  = map delay_at (seq i (length attempts)).
Proof.
  induction attempts as [|a attempts IH]; intros i; cbn; [reflexivity|].
  rewrite next_backoff_delay.
  specialize (IH (S i)).
  destruct (subscribe on_message (delay_at (S i)) attempts) as [out b].
  cbn in *. rewrite delays_app. cbn. rewrite IH.
  destruct a; cbn; [reflexivity|]. by rewrite delays_receive.
Qed.

Lemma subscribe_items attempts : forall b,
  items (subscribe on_message b attempts).1 = flat_map (delivered on_message) attempts.
Proof.
  induction attempts as [|a attempts IH]; intros b; cbn; [reflexivity|].
  specialize (IH (next_backoff b)).
  destruct (subscribe on_message (next_backoff b) attempts) as [out b'].
  cbn in *. rewrite items_app. cbn. rewrite IH. by destruct a.
Qed.

(** The generator carries on after any number of attempts. *)
Lemma subscribe_app a1 a2 : forall b,
  subscribe on_message b (a1 ++ a2)
  = ((subscribe on_message b a1).1
       ++ (subscribe on_message (subscribe on_message b a1).2 a2).1,
     (subscribe on_message (subscribe on_message b a1).2 a2).2).
Proof.
  induction a1 as [|a a1 IH]; intros b; cbn.
  - by destruct (subscribe on_message b a2).
  - rewrite IH.
    destruct (subscribe on_message (next_backoff b) a1) as [o1 b1]. cbn.
    destruct (subscribe on_message b1 a2) as [o2 b2]. cbn.
    by rewrite <- app_assoc.
Qed.

(** The backoff the loop holds after the attempts. *)
Lemma subscribe_backoff attempts : forall i,
  (subscribe on_message (delay_at i) attempts).2
  = delay_at (i + length attempts).
Proof.
  induction attempts as [|a attempts IH]; intros i; cbn.
  - by rewrite Nat.add_0_r.
  - rewrite next_backoff_delay. specialize (IH (S i)).
    destruct (subscribe on_message (delay_at (S i)) attempts) as [o b].
    cbn in *. rewrite IH. f_equal. lia.
Qed.

(** C8, as amended.  Whatever the attempts, the delays slept are 2, 4, 8,
    16, 30, 30, ...: the delay starts at the minimum of 2 on the first
    failure, doubles on each failure and is capped at 30, whether or not
    connections succeeded in between (it never returns to the minimum).
    The sequence of items is not ended by a failure: the consumer receives
    what every connection delivers, in order, and the generator goes on
    with the attempts that follow. *)
Theorem backoff_doubles_and_sequence_survives attempts :
  delays (subscribe on_message 2 attempts).1
  = map delay_at (seq 0 (length attempts))
  /\ items (subscribe on_message 2 attempts).1 = flat_map (delivered on_message) attempts
  /\ (forall more,
        (subscribe on_message 2 (attempts ++ more)).1
        = (subscribe on_message 2 attempts).1
          ++ (subscribe on_message (delay_at (length attempts)) more).1).
Proof.
  split; [exact (subscribe_delays attempts 0)|].
  split; [apply subscribe_items|].
  intros more. rewrite subscribe_app. cbn [fst].
  change 2 with (delay_at 0). by rewrite subscribe_backoff.
Qed.

End Generator.

(** *** What [evm_ws_sub] yields *)

Lemma evm_on_message_hash raw x :
  evm_on_message raw = Ret (Some x) -> is_hash x.
Proof.
  unfold evm_on_message.
  destruct (json_loads raw) as [msg|e]; cbn -[startswith len]; [|done].
  destruct (py_get msg "method") as [meth|e]; cbn -[startswith len]; [|done].
  destruct (is_str meth "eth_subscription"); [|done].
  destruct (py_get msg "params") as [params|e]; cbn -[startswith len]; [|done].
  destruct (py_get (default (JObj []) params) "result") as [[[]|]|e];
    cbn -[startswith len]; try done.
  destruct (startswith "0x" s) eqn:Hs; cbn [andb]; [|done].
  destruct (len s =? 66) eqn:Hl; [|done].
  intros [= <-]. split; [done|by apply Z.eqb_eq].
Qed.

Lemma receive_hashes msgs :
  Forall is_hash (items (receive evm_on_message msgs)).
Proof.
  induction msgs as [|raw msgs IH]; cbn; [constructor|].
  destruct (evm_on_message raw) as [[x|]|e] eqn:E; cbn; [|done|constructor].
  constructor; [by apply (evm_on_message_hash raw)|done].
Qed.

Lemma evm_ws_sub_hashes attempts :
  Forall is_hash (items (evm_ws_sub attempts).1).
Proof.
  unfold evm_ws_sub. rewrite subscribe_items.
  induction attempts as [|a attempts IH]; cbn; [constructor|].
  apply Forall_app. split; [|done].
  destruct a; cbn; [constructor|apply receive_hashes].
Qed.

Lemma evm_other_method raw m :
  json_loads raw = Ret (JObj m) ->
  is_str (dict_get "method" m) "eth_subscription" = false ->
  evm_on_message raw = Ret None.
Proof. intros Hl Hm. unfold evm_on_message. rewrite Hl. cbn. by rewrite Hm. Qed.

Lemma evm_other_result raw m pm :
  json_loads raw = Ret (JObj m) ->
  default (JObj []) (dict_get "params" m) = JObj pm ->
  (forall s, dict_get "result" pm = Some (JStr s) ->
             startswith "0x" s && (len s =? 66) = false) ->
  evm_on_message raw = Ret None.
Proof.
  intros Hl Hp Hr. unfold evm_on_message. rewrite Hl. cbn -[startswith len].
  destruct (is_str _ _); [|done]. rewrite Hp. cbn -[startswith len].
  destruct (dict_get "result" pm) as [[]|] eqn:E; try done.
  by rewrite (Hr _ eq_refl).
Qed.

(** C10, as amended.  Every item [evm_ws_sub] yields starts with ["0x"]
    and has exactly 66 characters.  A message that is a JSON object and is
    not an [eth_subscription], or is one whose [params] is an object (or
    absent) and whose [result] is not such a string, yields nothing and
    leaves the connection as it is: the loop goes on with the next
    message. *)
Theorem evm_ws_sub_yields_hashes :
  (forall attempts, Forall is_hash (items (evm_ws_sub attempts).1))
  /\ (forall raw m,
        json_loads raw = Ret (JObj m) ->
        (is_str (dict_get "method" m) "eth_subscription" = false ->
         evm_on_message raw = Ret None)
        /\ (forall pm,
              default (JObj []) (dict_get "params" m) = JObj pm ->
              (forall s, dict_get "result" pm = Some (JStr s) ->
                         startswith "0x" s && (len s =? 66) = false) ->
              evm_on_message raw = Ret None))
  /\ (forall raw rest,
        evm_on_message raw = Ret None ->
        receive evm_on_message (raw :: rest) = receive evm_on_message rest).
Proof.
  split; [exact evm_ws_sub_hashes|]. split.
  - intros raw m Hl. split; [by apply evm_other_method|].
    intros pm. by apply evm_other_result.
  - intros raw rest E. cbn. by rewrite E.
Qed.

(** *** Examples *)

Import Sample.

Example notification_yields : evm_on_message notification = Ret (Some tx_hash).
Proof. vm_compute. reflexivity. Qed.

Example reply_dropped : evm_on_message subscribed = Ret None.
Proof. vm_compute. reflexivity. Qed.

(** C10, at an instance: the reply to the subscription is dropped and the
    notification behind it is yielded. *)
Lemma evm_ws_sub_yields_hashes_witness :
  is_hash tx_hash
  /\ (evm_ws_sub [Connected [subscribed; notification]]).1
     = [Yield tx_hash; Sleep 2].
Proof.
  destruct evm_ws_sub_yields_hashes as (Hh & _ & Hdrop).
  pose proof (Hh [Connected [notification]]) as H1.
  split.
  - by apply Forall_cons in H1 as [? _].
  - unfold evm_ws_sub. cbn [subscribe].
    rewrite (Hdrop subscribed [notification]); [|by vm_compute].
    by vm_compute.
Defined.

(** C10, counterexample.  A message that is not an [eth_subscription] (a
    JSON array), and an [eth_subscription] whose [params] is [null], are
    not dropped silently: handling them raises, which ends the connection
    (the notification that would have come next on it is never yielded)
    and sends the generator to sleep and reconnect. *)
Lemma message_ends_connection :
  evm_on_message batch = Raise AttributeError
  /\ evm_on_message null_params = Raise AttributeError
  /\ evm_ws_sub [Connected [subscribed; notification]]
     = ([Yield tx_hash; Sleep 2], 4)
  /\ evm_ws_sub [Connected [batch; notification]] = ([Sleep 2], 4)
  /\ evm_ws_sub [Connected [null_params; notification]] = ([Sleep 2], 4).
Proof. vm_compute. repeat split; reflexivity. Qed.

(** C8, counterexample.  Two refused attempts, then a connection that
    delivers a notification before it fails, then another refused attempt:
    the delays are 2, 4, 8, 16.  After the successful connection the delay
    is 8, not the minimum. *)
Lemma delay_not_reset_after_success :
  evm_ws_sub [Refused; Refused; Connected [notification]; Refused]
  = ([Sleep 2; Sleep 4; Yield tx_hash; Sleep 8; Sleep 16], 30).
Proof. vm_compute. reflexivity. Qed.

Lemma delay_at_values :
  map delay_at (seq 0 7) = [2; 4; 8; 16; 30; 30; 30].
Proof. reflexivity. Qed.

End ChannelFacts.

(** ** The JSON text format *)

Module JsonFacts.
Import Json DictFacts.

Lemma text_chars (s : string) : text (chars s) = s.
Proof. apply string_of_list_ascii_of_string. Qed.

Lemma chars_text (cs : list ascii) : chars (text cs) = cs.
Proof. apply list_ascii_of_string_of_list_ascii. Qed.

(** *** Strings *)

Lemma scan_escape_char (c : ascii) (rest : list ascii) :
  scan_string (escape_char c ++ rest)
  = match scan_string rest with
    | Some (s, r) => Some (c :: s, r)
    | None => None
    end.
Proof. destruct c as [[] [] [] [] [] [] [] []]; reflexivity. Qed.

Lemma scan_escape (cs rest : list ascii) :
  scan_string (escape cs ++ quote :: rest) = Some (cs, rest).
Proof.
  induction cs as [|c cs IH]; [reflexivity|].
  cbn [escape]. rewrite <- app_assoc, scan_escape_char, IH. reflexivity.
Qed.

Lemma scan_dump_string (s : string) (rest : list ascii) :
  exists body, dump_string s ++ rest = quote :: body
               /\ scan_string body = Some (chars s, rest).
Proof.
  exists (escape (chars s) ++ quote :: rest). split.
  - unfold dump_string. cbn. by rewrite <- app_assoc.
  - apply scan_escape.
Qed.

(** *** Integers *)

Lemma nzhead_head (u : Decimal.uint) :
  Decimal.nzhead u = Decimal.Nil \/ nonzero_head (Decimal.nzhead u).
Proof. induction u; cbn; auto. Qed.

Lemma to_uint_head (p : positive) : nonzero_head (Pos.to_uint p).
Proof.
  pose proof (DecimalPos.Unsigned.to_of (Pos.to_uint p)) as Hn.
  rewrite DecimalPos.Unsigned.of_to in Hn. cbn [N.to_uint] in Hn.
  pose proof (DecimalPos.Unsigned.to_uint_nonzero p) as Hz.
  unfold Decimal.unorm in Hn.
  destruct (nzhead_head (Pos.to_uint p)) as [E|Hh].
  - rewrite E in Hn. by rewrite Hn in Hz.
  - destruct (Decimal.nzhead (Pos.to_uint p)); cbn in Hh; try done;
      by rewrite Hn.
Qed.

Lemma scan_uint_chars (u : Decimal.uint) (rest : list ascii) :
  match rest with [] => True | c :: _ => is_digit c = false end ->
  scan_digits (uint_chars u ++ rest) = (u, rest).
Proof.
  intros Hr. induction u; cbn [uint_chars app];
    try (cbn; rewrite IHu; reflexivity).
  destruct rest as [|c rest]; cbn; [reflexivity|]. by rewrite Hr.
Qed.

Lemma scan_int_part_chars (u : Decimal.uint) (rest : list ascii) :
  u = Decimal.D0 Decimal.Nil \/ nonzero_head u ->
  match rest with [] => True | c :: _ => is_digit c = false end ->
  scan_int_part (uint_chars u ++ rest) = Some (u, rest).
Proof.
  intros [->|Hu] Hr; [reflexivity|].
  pose proof (scan_uint_chars u rest Hr) as Hs.
  destruct u; cbn in Hu; try done; cbn [uint_chars app] in *;
    unfold scan_int_part; cbn -[scan_digits]; by rewrite Hs.
Qed.

Lemma ends_number_digit (rest : list ascii) :
  ends_number rest -> match rest with [] => True | c :: _ => is_digit c = false end.
Proof. destruct rest; [done|]. by intros [? _]. Qed.

Lemma scan_frac_none (rest : list ascii) :
  ends_number rest -> scan_frac rest = ([], rest).
Proof.
  destruct rest as [|c [|d rest]]; [done..|].
  intros (_ & Hdot & _). unfold scan_frac.
  destruct (Ascii.eqb_spec c "."%char); [done|reflexivity].
Qed.

Lemma scan_exp_none (rest : list ascii) :
  ends_number rest -> scan_exp rest = ([], rest).
Proof.
  destruct rest as [|c rest]; [done|].
  intros (_ & _ & He & HE). unfold scan_exp.
  destruct (Ascii.eqb_spec c "e"%char); [done|].
  destruct (Ascii.eqb_spec c "E"%char); [done|]. reflexivity.
Qed.

Lemma scan_number_uint (neg : bool) (u : Decimal.uint) (rest : list ascii) :
  u = Decimal.D0 Decimal.Nil \/ nonzero_head u ->
  ends_number rest ->
  scan_number ((if neg then ["-"%char] else []) ++ uint_chars u ++ rest)
  = Some (JInt (Z.of_int (if neg then Decimal.Neg u else Decimal.Pos u)), rest).
Proof.
  intros Hu Hr.
  assert (Hs : scan_int_part (uint_chars u ++ rest) = Some (u, rest)).
  { apply scan_int_part_chars; [done|by apply ends_number_digit]. }
  unfold scan_number. destruct neg; cbn [app].
  - cbn [Ascii.eqb Bool.eqb]. cbn -[scan_int_part scan_frac scan_exp Z.of_int].
    rewrite Hs, scan_frac_none, scan_exp_none by done. reflexivity.
  - assert (Hh : exists c r, uint_chars u ++ rest = c :: r
                             /\ Ascii.eqb c "-"%char = false).
    { destruct Hu as [->|Hu]; [by eexists _, _|].
      destruct u; cbn in Hu; try done; by eexists _, _. }
    destruct Hh as (c & r & E & Hc). rewrite E in *. rewrite Hc, Hs.
    rewrite scan_frac_none, scan_exp_none by done. reflexivity.
Qed.

Lemma scan_dump_int (n : Z) (rest : list ascii) :
  ends_number rest -> scan_number (dump_int n ++ rest) = Some (JInt n, rest).
Proof.
  intros Hr. rewrite <- (DecimalZ.of_to n) at 2. unfold dump_int.
  destruct n as [|p|p]; cbn [Z.to_int].
  - apply (scan_number_uint false); auto.
  - apply (scan_number_uint false); [right; apply to_uint_head|done].
  - apply (scan_number_uint true (Pos.to_uint p)); [right; apply to_uint_head|done].
Qed.

(** *** Floats *)

Lemma uint_chars_head (u : Decimal.uint) (rest : list ascii) :
  u <> Decimal.Nil ->
  exists c r, uint_chars u ++ rest = c :: r /\ is_digit c = true.
Proof. destruct u; [done|..]; intros _; by eexists _, _. Qed.

Lemma uint_chars_nil (u : Decimal.uint) : uint_chars u = [] -> u = Decimal.Nil.
Proof. by destruct u. Qed.

Lemma digit_not_sign (c : ascii) :
  is_digit c = true ->
  Ascii.eqb c "-"%char = false /\ Ascii.eqb c "+"%char = false.
Proof. destruct c as [[] [] [] [] [] [] [] []]; intros Hc; try discriminate; done. Qed.

Lemma scan_frac_some (d : Decimal.uint) (rest : list ascii) :
  d <> Decimal.Nil ->
  match rest with [] => True | c :: _ => is_digit c = false end ->
  scan_frac ("."%char :: uint_chars d ++ rest) = ("."%char :: uint_chars d, rest).
Proof.
  intros Hd Hr. pose proof (scan_uint_chars d rest Hr) as Hs.
  destruct (uint_chars_head d rest Hd) as (c & r & E & Hc).
  rewrite E in *. unfold scan_frac.
  change (Ascii.eqb "."%char "."%char) with true. rewrite Hc. cbn [andb].
  by rewrite Hs.
Qed.

Lemma scan_frac_other (cs : list ascii) :
  match cs with [] => True | c :: _ => c <> "."%char end ->
  scan_frac cs = ([], cs).
Proof.
  destruct cs as [|c [|d r]]; [done..|]. intros Hc. unfold scan_frac.
  destruct (Ascii.eqb_spec c "."%char); [done|reflexivity].
Qed.

Lemma scan_exp_digits (c0 : ascii) (d : Decimal.uint) (rest : list ascii) :
  Ascii.eqb c0 "e"%char || Ascii.eqb c0 "E"%char = true ->
  d <> Decimal.Nil ->
  match rest with [] => True | c :: _ => is_digit c = false end ->
  scan_exp (c0 :: uint_chars d ++ rest) = (c0 :: uint_chars d, rest).
Proof.
  intros H0 Hd Hr. pose proof (scan_uint_chars d rest Hr) as Hs.
  destruct (uint_chars_head d rest Hd) as (c & r & E & Hc).
  destruct (digit_not_sign c Hc) as [Hm Hp].
  unfold scan_exp. rewrite H0, E. destruct r as [|d1 r1].
  - rewrite Hc. destruct (uint_chars d) as [|a l] eqn:Eu.
    { by apply uint_chars_nil in Eu. }
    cbn [app] in E. injection E as -> El.
    apply app_eq_nil in El as [-> ->]. reflexivity.
  - rewrite Hm, Hp, Hc. cbn [orb andb]. rewrite <- E, Hs. reflexivity.
Qed.

Lemma scan_exp_signed (c0 s : ascii) (d : Decimal.uint) (rest : list ascii) :
  Ascii.eqb c0 "e"%char || Ascii.eqb c0 "E"%char = true ->
  Ascii.eqb s "-"%char || Ascii.eqb s "+"%char = true ->
  d <> Decimal.Nil ->
  match rest with [] => True | c :: _ => is_digit c = false end ->
  scan_exp (c0 :: s :: uint_chars d ++ rest) = (c0 :: s :: uint_chars d, rest).
Proof.
  intros H0 Hsg Hd Hr. pose proof (scan_uint_chars d rest Hr) as Hs.
  destruct (uint_chars_head d rest Hd) as (c & r & E & Hc).
  unfold scan_exp. rewrite H0, E, Hsg, Hc. cbn [andb].
  rewrite <- E, Hs. reflexivity.
Qed.

Lemma scan_exp_some (x : exponent) (rest : list ascii) :
  edigits x <> Decimal.Nil ->
  match rest with [] => True | c :: _ => is_digit c = false end ->
  scan_exp (exp_text (Some x) ++ rest) = (exp_text (Some x), rest).
Proof.
  intros Hd Hr. destruct x as [up sg d]. cbn [exp_text upper esign edigits] in *.
  rewrite <- app_comm_cons, <- app_assoc.
  destruct sg as [[|]|]; cbn [app].
  - apply scan_exp_signed; [by destruct up|done..].
  - apply scan_exp_signed; [by destruct up|done..].
  - apply scan_exp_digits; [by destruct up|done..].
Qed.

Lemma tail_not_digit f e (rest : list ascii) :
  ends_number rest ->
  match frac_text f ++ exp_text e ++ rest with
  | [] => True
  | c :: _ => is_digit c = false
  end.
Proof.
  intros Hr. destruct f as [d|]; [done|]. cbn [frac_text app].
  destruct e as [[[] sg d]|]; [done..|]. by apply ends_number_digit.
Qed.

Lemma scan_frac_text f e (rest : list ascii) :
  f <> Some Decimal.Nil -> ends_number rest ->
  scan_frac (frac_text f ++ exp_text e ++ rest)
  = (frac_text f, exp_text e ++ rest).
Proof.
  intros Hf Hr. destruct f as [d|]; cbn [frac_text app].
  - apply scan_frac_some; [congruence|].
    apply (tail_not_digit None e rest Hr).
  - apply scan_frac_other. destruct e as [[[] sg d]|]; [done..|].
    destruct rest as [|c rest]; [done|]. by destruct Hr as (_ & ? & _).
Qed.

Lemma scan_exp_text e (rest : list ascii) :
  (forall x, e = Some x -> edigits x <> Decimal.Nil) -> ends_number rest ->
  scan_exp (exp_text e ++ rest) = (exp_text e, rest).
Proof.
  intros He Hr. destruct e as [x|].
  - apply scan_exp_some; [by apply He|by apply ends_number_digit].
  - by apply scan_exp_none.
Qed.

Lemma scan_number_float neg u f e (rest : list ascii) :
  u = Decimal.D0 Decimal.Nil \/ nonzero_head u ->
  f <> Some Decimal.Nil ->
  (forall x, e = Some x -> edigits x <> Decimal.Nil) ->
  is_Some f \/ is_Some e ->
  ends_number rest ->
  scan_number (float_text neg u f e ++ rest)
  = Some (JFloat (text (float_text neg u f e)), rest).
Proof.
  intros Hu Hf He Hfe Hr. unfold float_text.
  repeat rewrite <- app_assoc.
  assert (Hs : scan_int_part (uint_chars u ++ frac_text f ++ exp_text e ++ rest)
               = Some (u, frac_text f ++ exp_text e ++ rest)).
  { apply scan_int_part_chars; [done|by apply tail_not_digit]. }
  pose proof (scan_frac_text f e rest Hf Hr) as Hfr.
  pose proof (scan_exp_text e rest He Hr) as Hex.
  assert (Hne : forall (sign : list ascii),
             match frac_text f, exp_text e with
             | [], [] => Some (JInt 0, rest)
             | _, _ =>
                 Some (JFloat (text (sign ++ uint_chars u ++ frac_text f ++ exp_text e)),
                       rest)
             end
             = Some (JFloat (text (sign ++ uint_chars u ++ frac_text f ++ exp_text e)),
                     rest)).
  { intros sign. destruct Hfe as [[d ->]|[x ->]]; [done|].
    destruct f as [d|]; [done|]. by destruct x as [[] sg d]. }
  unfold scan_number. destruct neg; cbn [app].
  - cbn [Ascii.eqb Bool.eqb]. cbn -[scan_int_part scan_frac scan_exp Z.of_int text].
    rewrite Hs, Hfr, Hex.
    specialize (Hne ["-"%char]).
    destruct (frac_text f), (exp_text e); (done || exact Hne).
  - assert (Hh : exists c r, uint_chars u ++ frac_text f ++ exp_text e ++ rest = c :: r
                             /\ Ascii.eqb c "-"%char = false).
    { destruct Hu as [->|Hu]; [by eexists _, _|].
      destruct u; cbn in Hu; try done; by eexists _, _. }
    destruct Hh as (c & r & E & Hc). rewrite E in *. rewrite Hc, Hs, Hfr, Hex.
    specialize (Hne []).
    destruct (frac_text f), (exp_text e); (done || exact Hne).
Qed.

Lemma float_text_head neg u f e (rest : list ascii) :
  u = Decimal.D0 Decimal.Nil \/ nonzero_head u ->
  exists c r, float_text neg u f e ++ rest = c :: r
              /\ (is_digit c = true \/ c = "-"%char).
Proof.
  intros Hu. unfold float_text. destruct neg; cbn [app].
  { eexists _, _. split; [reflexivity|by right]. }
  rewrite <- app_assoc.
  destruct (uint_chars_head u ((frac_text f ++ exp_text e) ++ rest))
    as (c & r & E & Hc).
  { destruct Hu as [->|Hu]; [done|]. by destruct u. }
  exists c, r. auto.
Qed.

(** *** Unfolding the decoder on the first character *)

Lemma parse_value_string f r :
  parse_value (S f) (quote :: r)
  = match scan_string r with
    | Some (s, r') => Some (JStr (text s), r')
    | None => None
    end.
Proof. reflexivity. Qed.

Lemma parse_value_array f r :
  parse_value (S f) ("["%char :: r)
  = match skip_ws r with
    | c1 :: r1 =>
        if Ascii.eqb c1 "]"%char then Some (JArr [], r1)
        else match parse_elems f (c1 :: r1) with
             | Some (l, r2) => Some (JArr l, r2)
             | None => None
             end
    | [] => None
    end.
Proof. reflexivity. Qed.

Lemma parse_value_object f r :
  parse_value (S f) ("{"%char :: r)
  = match skip_ws r with
    | c1 :: r1 =>
        if Ascii.eqb c1 "}"%char then Some (JObj [], r1)
        else match parse_members f (c1 :: r1) with
             | Some (m, r2) => Some (JObj (dict_of_pairs m), r2)
             | None => None
             end
    | [] => None
    end.
Proof. reflexivity. Qed.

Lemma parse_value_number f c r :
  is_digit c = true \/ c = "-"%char ->
  parse_value (S f) (c :: r)
  = match scan_number (c :: r) with
    | Some v => Some v
    | None => scan_constant (c :: r)
    end.
Proof.
  destruct c as [[] [] [] [] [] [] [] []];
    intros [Hc|Hc]; try discriminate; reflexivity.
Qed.

Lemma parse_elems_step f cs :
  parse_elems (S f) cs
  = match parse_value f cs with
    | Some (v, r) =>
        match skip_ws r with
        | c :: r1 =>
            if Ascii.eqb c ","%char then
              match parse_elems f (skip_ws r1) with
              | Some (vs, r2) => Some (v :: vs, r2)
              | None => None
              end
            else if Ascii.eqb c "]"%char then Some ([v], r1)
            else None
        | [] => None
        end
    | None => None
    end.
Proof. reflexivity. Qed.

Lemma parse_members_step f r :
  parse_members (S f) (quote :: r)
  = match scan_string r with
    | Some (k, r1) =>
        match skip_ws r1 with
        | c :: r2 =>
            if Ascii.eqb c ":"%char then
              match parse_value f (skip_ws r2) with
              | Some (v, r3) =>
                  match skip_ws r3 with
                  | c' :: r4 =>
                      if Ascii.eqb c' ","%char then
                        match parse_members f (skip_ws r4) with
                        | Some (m, r5) => Some ((text k, v) :: m, r5)
                        | None => None
                        end
                      else if Ascii.eqb c' "}"%char then Some ([(text k, v)], r4)
                      else None
                  | [] => None
                  end
              | None => None
              end
            else None
        | [] => None
        end
    | None => None
    end.
Proof. reflexivity. Qed.

(** *** The first character of an encoded document *)

Lemma dump_int_head (n : Z) (rest : list ascii) :
  exists c r, dump_int n ++ rest = c :: r
              /\ (is_digit c = true \/ c = "-"%char).
Proof.
  unfold dump_int. destruct n as [|p|p]; cbn [Z.to_int].
  - by eexists _, _; split; [reflexivity|left].
  - destruct (uint_chars_head (Pos.to_uint p) rest) as (c & r & E & Hc);
      [apply DecimalPos.Unsigned.to_uint_nonnil|].
    exists c, r. auto.
  - eexists _, _. split; [reflexivity|by right].
Qed.

Lemma opens_value_digit c r :
  is_digit c = true \/ c = "-"%char -> opens_value (c :: r).
Proof.
  destruct c as [[] [] [] [] [] [] [] []];
    intros [Hc|Hc]; try discriminate; done.
Qed.

Lemma dumps_opens (j : json) (rest : list ascii) :
  plain j -> opens_value (dumps j ++ rest).
Proof.
  destruct j as [|[]|n|lit|s|l|m]; try done.
  - intros _. cbn [dumps].
    destruct (dump_int_head n rest) as (c & r & -> & Hc).
    by apply opens_value_digit.
  - intros (neg & u & f & e & -> & Hu & _). cbn [dumps]. rewrite chars_text.
    destruct (float_text_head neg u f e rest Hu) as (c & r & -> & Hc).
    by apply opens_value_digit.
Qed.

Lemma skip_ws_opens (cs : list ascii) : opens_value cs -> skip_ws cs = cs.
Proof. destruct cs as [|c cs]; [done|]. intros [Hw _]. cbn. by rewrite Hw. Qed.

(** *** Arrays and objects, element by element *)

Lemma depth_array l : depth (JArr l) = S (depth_elems l).
Proof. reflexivity. Qed.

Lemma depth_object m : depth (JObj m) = S (depth_members m).
Proof. reflexivity. Qed.

Lemma plain_array l : plain (JArr l) <-> Forall plain l.
Proof.
  cbn. induction l as [|x l IH]; [by split|].
  rewrite Forall_cons, IH. reflexivity.
Qed.

Lemma plain_object m :
  plain (JObj m) <-> NoDup (map fst m) /\ Forall (fun kv => plain kv.2) m.
Proof.
  cbn. apply and_iff_compat_l.
  induction m as [|x m IH]; [by split|].
  rewrite Forall_cons, IH. reflexivity.
Qed.

Lemma dumps_array l :
  dumps (JArr l) = "["%char :: join (map dumps l) ++ ["]"%char].
Proof. reflexivity. Qed.

Lemma dumps_object m :
  dumps (JObj m) = "{"%char :: join (map dump_member m) ++ ["}"%char].
Proof. reflexivity. Qed.

Lemma join_cons_cons (x y : list ascii) (r : list (list ascii)) :
  join (x :: y :: r) = x ++ ","%char :: " "%char :: join (y :: r).
Proof. reflexivity. Qed.

Lemma join_dumps_opens x l rest :
  plain x -> opens_value (join (map dumps (x :: l)) ++ rest).
Proof.
  intros Hx. destruct l as [|y l].
  - by apply dumps_opens.
  - cbn [map]. rewrite join_cons_cons, <- app_assoc. by apply dumps_opens.
Qed.

Lemma parse_elems_more f src x cs :
  parse_value f src = Some (x, ","%char :: " "%char :: cs) ->
  parse_elems (S f) src
  = match parse_elems f (skip_ws cs) with
    | Some (vs, r) => Some (x :: vs, r)
    | None => None
    end.
Proof. intros Hv. rewrite parse_elems_step, Hv. reflexivity. Qed.

Lemma parse_elems_last f src x cs :
  parse_value f src = Some (x, "]"%char :: cs) ->
  parse_elems (S f) src = Some ([x], cs).
Proof. intros Hv. rewrite parse_elems_step, Hv. reflexivity. Qed.

Lemma parse_elems_dumps l :
  l <> [] -> Forall reads_back l -> Forall plain l ->
  forall fuel rest,
    (depth_elems l <= fuel)%nat ->
    parse_elems fuel (join (map dumps l) ++ "]"%char :: rest) = Some (l, rest).
Proof.
  induction l as [|x l IH]; [done|]. intros _ Hrb Hpl fuel rest Hfuel.
  apply Forall_cons in Hrb as [Hx Hrb]. apply Forall_cons in Hpl as [Hpx Hpl].
  destruct fuel as [|f]; [cbn in Hfuel; lia|]. cbn [depth_elems] in Hfuel.
  destruct l as [|y l].
  - cbn [map join]. apply parse_elems_last. apply (Hx Hpx); [lia|done].
  - cbn [map]. rewrite join_cons_cons, <- app_assoc. cbn [app].
    erewrite parse_elems_more; cycle 1.
    { apply (Hx Hpx); [lia|done]. }
    assert (Hy : plain y) by (by apply Forall_cons in Hpl as [? _]).
    rewrite skip_ws_opens by (by apply (join_dumps_opens y l)).
    change (dumps y :: map dumps l) with (map dumps (y :: l)).
    rewrite (IH ltac:(done) Hrb Hpl) by lia. reflexivity.
Qed.

Lemma join_members_opens kv m rest :
  exists body, join (map dump_member (kv :: m)) ++ rest = quote :: body.
Proof.
  destruct m as [|kv' m]; cbn [map]; [|rewrite join_cons_cons];
    unfold dump_member at 1, dump_string; cbn; by eexists.
Qed.

Lemma parse_members_more f body k r v cs :
  scan_string body = Some (k, ":"%char :: " "%char :: r) ->
  parse_value f (skip_ws r) = Some (v, ","%char :: " "%char :: cs) ->
  parse_members (S f) (quote :: body)
  = match parse_members f (skip_ws cs) with
    | Some (m, r') => Some ((text k, v) :: m, r')
    | None => None
    end.
Proof.
  intros Hk Hv. rewrite parse_members_step, Hk.
  change (skip_ws (":"%char :: " "%char :: r)) with (":"%char :: " "%char :: r).
  cbv beta iota. change (Ascii.eqb ":"%char ":"%char) with true. cbv beta iota.
  change (skip_ws (" "%char :: r)) with (skip_ws r). rewrite Hv. reflexivity.
Qed.

Lemma parse_members_last f body k r v cs :
  scan_string body = Some (k, ":"%char :: " "%char :: r) ->
  parse_value f (skip_ws r) = Some (v, "}"%char :: cs) ->
  parse_members (S f) (quote :: body) = Some ([(text k, v)], cs).
Proof.
  intros Hk Hv. rewrite parse_members_step, Hk.
  change (skip_ws (":"%char :: " "%char :: r)) with (":"%char :: " "%char :: r).
  cbv beta iota. change (Ascii.eqb ":"%char ":"%char) with true. cbv beta iota.
  change (skip_ws (" "%char :: r)) with (skip_ws r). rewrite Hv. reflexivity.
Qed.

Lemma dump_member_app k v rest :
  dump_member (k, v) ++ rest
  = quote :: escape (chars k) ++ quote :: ":"%char :: " "%char :: dumps v ++ rest.
Proof.
  unfold dump_member, dump_string. cbn [fst snd app].
  repeat (rewrite <- app_assoc; cbn [app]). reflexivity.
Qed.

Lemma parse_members_dumps m :
  m <> [] -> Forall (fun kv => reads_back kv.2) m ->
  Forall (fun kv => plain kv.2) m ->
  forall fuel rest,
    (depth_members m <= fuel)%nat ->
    parse_members fuel (join (map dump_member m) ++ "}"%char :: rest)
    = Some (m, rest).
Proof.
  induction m as [|[k v] m IH]; [done|]. intros _ Hrb Hpl fuel rest Hfuel.
  apply Forall_cons in Hrb as [Hv Hrb]. apply Forall_cons in Hpl as [Hpv Hpl].
  cbn [snd] in Hv, Hpv.
  destruct fuel as [|f]; [cbn in Hfuel; lia|]. cbn [depth_members snd] in Hfuel.
  destruct m as [|kv' m].
  - cbn [map join]. rewrite dump_member_app.
    erewrite parse_members_last; [by rewrite text_chars|apply scan_escape|].
    rewrite skip_ws_opens by (by apply dumps_opens).
    apply (Hv Hpv); [lia|done].
  - cbn [map]. rewrite join_cons_cons, <- app_assoc, dump_member_app.
    cbn [app].
    erewrite parse_members_more; [|apply scan_escape|]; cycle 1.
    { rewrite skip_ws_opens by (by apply dumps_opens).
      apply (Hv Hpv); [lia|done]. }
    change (dump_member kv' :: map dump_member m)
      with (map dump_member (kv' :: m)).
    destruct (join_members_opens kv' m ("}"%char :: rest)) as (body & E).
    rewrite skip_ws_opens by (by rewrite E).
    rewrite (IH ltac:(done) Hrb Hpl) by lia.
    by rewrite text_chars.
Qed.

(** Decoding the text of a plain document gives the document back. *)
Theorem parse_dumps (j : json) : reads_back j.
Proof.
  induction j as [|b|n|lit|s|l IH|m IH] using json_nested_ind;
    intros Hp fuel rest Hfuel Hrest.
  - destruct fuel; [cbn in Hfuel; lia|]. reflexivity.
  - destruct fuel; [cbn in Hfuel; lia|]. by destruct b.
  - destruct fuel; [cbn in Hfuel; lia|]. cbn [dumps].
    destruct (dump_int_head n rest) as (c & r & E & Hc).
    rewrite E, parse_value_number, <- E by done.
    by rewrite scan_dump_int.
  - destruct Hp as (neg & u & f & e & -> & Hu & Hf & He & Hfe).
    destruct fuel; [cbn in Hfuel; lia|]. cbn [dumps]. rewrite chars_text.
    destruct (float_text_head neg u f e rest Hu) as (c & r & E & Hc).
    rewrite E, parse_value_number, <- E by done.
    by rewrite scan_number_float.
  - destruct fuel; [cbn in Hfuel; lia|]. cbn [dumps].
    destruct (scan_dump_string s rest) as (body & -> & Hb).
    by rewrite parse_value_string, Hb, text_chars.
  - rewrite depth_array in Hfuel. apply plain_array in Hp.
    destruct fuel as [|f]; [lia|].
    rewrite dumps_array. cbn [app]. rewrite parse_value_array.
    destruct l as [|x l]; [reflexivity|].
    rewrite <- app_assoc. cbn [app].
    assert (Ho : opens_value (join (map dumps (x :: l)) ++ "]"%char :: rest)).
    { apply join_dumps_opens. by apply Forall_cons in Hp as [? _]. }
    rewrite skip_ws_opens by done.
    destruct (join (map dumps (x :: l)) ++ "]"%char :: rest) as [|c1 r1] eqn:E;
      [done|].
    destruct Ho as (_ & -> & _). rewrite <- E.
    by rewrite parse_elems_dumps by (done || lia).
  - rewrite depth_object in Hfuel. apply plain_object in Hp as [Hnd Hp].
    destruct fuel as [|f]; [lia|].
    rewrite dumps_object. cbn [app]. rewrite parse_value_object.
    destruct m as [|kv m]; [reflexivity|].
    rewrite <- app_assoc. cbn [app].
    destruct (join_members_opens kv m ("}"%char :: rest)) as (body & E).
    rewrite E. change (skip_ws (quote :: body)) with (quote :: body).
    change (Ascii.eqb quote "}"%char) with false. cbn match. rewrite <- E.
    rewrite parse_members_dumps by (done || lia).
    by rewrite dict_of_pairs_nodup.
Qed.

(** *** [loads] after [dumps] *)

Lemma length_join_dumps l :
  Forall (fun x => (depth x <= length (dumps x) + 1)%nat) l ->
  (depth_elems l <= length (join (map dumps l)) + 2)%nat.
Proof.
  induction l as [|x l IH]; cbn [depth_elems]; [lia|].
  intros Hl. apply Forall_cons in Hl as [Hx Hl]. specialize (IH Hl).
  destruct l as [|y l].
  - cbn. lia.
  - cbn [map] in *. rewrite join_cons_cons, length_app. cbn [length]. lia.
Qed.

Lemma length_join_members m :
  Forall (fun kv => (depth kv.2 <= length (dumps kv.2) + 1)%nat) m ->
  (depth_members m <= length (join (map dump_member m)) + 2)%nat.
Proof.
  induction m as [|[k v] m IH]; cbn [depth_members]; [lia|].
  intros Hm. apply Forall_cons in Hm as [Hx Hm]. specialize (IH Hm).
  cbn [snd] in *. destruct m as [|kv m].
  - cbn [map join]. unfold dump_member. rewrite length_app. cbn. lia.
  - cbn [map] in *. rewrite join_cons_cons, length_app.
    unfold dump_member at 1. rewrite length_app. cbn [length snd]. lia.
Qed.

Lemma depth_le_length (j : json) : (depth j <= length (dumps j) + 1)%nat.
Proof.
  induction j as [|b|n|lit|s|l IH|m IH] using json_nested_ind;
    try (cbn; lia).
  - rewrite depth_array, dumps_array. cbn [length]. rewrite length_app.
    pose proof (length_join_dumps l IH). cbn [length]. lia.
  - rewrite depth_object, dumps_object. cbn [length]. rewrite length_app.
    pose proof (length_join_members m IH). cbn [length]. lia.
Qed.

(** [json.loads(json.dumps(j))] is [j]. *)
Theorem loads_dumps (j : json) : plain j -> loads (dumps_str j) = Some j.
Proof.
  intros Hp. unfold loads, dumps_str. rewrite chars_text.
  pose proof (dumps_opens j [] Hp) as Ho. rewrite app_nil_r in Ho.
  rewrite skip_ws_opens by done.
  pose proof (parse_dumps j Hp (2 * length (dumps j) + 2)%nat []) as Hr.
  rewrite app_nil_r in Hr. rewrite Hr; [reflexivity| |done].
  pose proof (depth_le_length j). lia.
Qed.

End JsonFacts.

(** ** The state file *)

Module StateFileFacts.
Import Json Yaml Learn DictFacts JsonFacts LearnFacts.

Lemma stamp_repr_literal (t : Z) : float_literal (stamp_repr t).
Proof.
  unfold stamp_repr, dump_int. destruct t as [|q|q]; cbn [Z.to_int].
  - exists false, (Decimal.D0 Decimal.Nil), (Some (Decimal.D0 Decimal.Nil)), None.
    split; [reflexivity|]. split; [by left|]. split; [done|].
    split; [done|]. left. by eexists.
  - exists false, (Pos.to_uint q), (Some (Decimal.D0 Decimal.Nil)), None.
    split; [reflexivity|]. split; [right; apply to_uint_head|]. split; [done|].
    split; [done|]. left. by eexists.
  - exists true, (Pos.to_uint q), (Some (Decimal.D0 Decimal.Nil)), None.
    split; [reflexivity|]. split; [right; apply to_uint_head|]. split; [done|].
    split; [done|]. left. by eexists.
Qed.

Lemma timestamp_plain (j : json) : timestamp j -> plain j.
Proof. by destruct j. Qed.

Lemma counter_state_plain (doc : json) : counter_state doc -> plain doc.
Proof.
  intros (cs & d & n & -> & Hnd & Hcs).
  apply plain_object. split; [compute_done|].
  apply Forall_cons. split; [|by repeat constructor].
  cbn [snd]. apply plain_object. split; [exact Hnd|].
  eapply Forall_impl; [exact Hcs|]. intros kv (ts & -> & Hts).
  apply plain_array. eapply Forall_impl; [exact Hts|]. apply timestamp_plain.
Qed.

(** The dictionary of a state is a state dictionary. *)
Lemma state_doc_counter_state (st : State) :
  NoDup (map fst (counters st)) -> counter_state (state_doc st).
Proof.
  intros Hnd. unfold state_doc. eexists _, _, _. split; [reflexivity|]. split.
  - rewrite map_map. cbn [fst]. exact Hnd.
  - apply Forall_map. apply Forall_forall. intros kv _. cbn [snd].
    eexists. split; [reflexivity|]. apply Forall_map, Forall_forall.
    intros t _. apply stamp_repr_literal.
Qed.

(** What is written is read back. *)
Lemma init_after_save today (doc : json) (file : option string) :
  counter_state doc -> init_state_doc today (save_doc true doc file) = doc.
Proof.
  intros Hc. unfold save_doc, init_state_doc.
  by rewrite loads_dumps by (by apply counter_state_plain).
Qed.



(** Shows that a string is a float literal, from its parts. *)
Ltac float_lit neg u f e :=
  exists neg, u, f, e;
  split; [vm_compute; reflexivity|];
  split; [(by left) || (right; vm_compute; exact I)|];
  split; [vm_compute; discriminate|];
  split; [intros x Hx;
          (discriminate Hx || (injection Hx as <-; vm_compute; discriminate))|];
  ((left; by eexists) || (right; by eexists)).

(** C7.  Take a state dictionary: counters from distinct addresses (as
    the keys of a [dict] are) to lists of timestamps, each a finite float
    or an integer, a day and a count.  If [_save_state] writes it, the
    constructor reading the file back holds the same dictionary: the same
    addresses in the same order, each with the same timestamps, the same
    [day] and the same [added_today].  The state [consider] keeps is such
    a dictionary, and so is read back as it was written. *)
Theorem state_round_trip env today :
  state_writable env = true ->
  (forall doc file,
     counter_state doc ->
     init_state_doc today (save_doc (state_writable env) doc file) = doc)
  /\ (forall w,
        NoDup (map fst (counters (state w))) ->
        counter_state (state_doc (state w))
        /\ init_state_doc today (state_file (_save_state env w))
           = state_doc (state w)).
Proof.
  intros Hw. rewrite Hw. split.
  - intros doc file Hc. by apply init_after_save.
  - intros w Hnd. pose proof (state_doc_counter_state (state w) Hnd) as Hc.
    split; [exact Hc|]. unfold _save_state. cbn [state_file]. rewrite Hw.
    by apply init_after_save.
Qed.

(** C7, at an instance: timestamps with fractions of a second, as
    [time.time()] returns them, one integer and one literal with an
    exponent; and the state of [Sample.counting]. *)
Lemma state_round_trip_witness :
  let env := {| now := 1735700000; today := "2025-01-01";
                state_writable := true; config_writable := true |} in
  let doc :=
    JObj [("counters",
           JObj [("0x00000000000000000000000000000000000000aa",
                  JArr [JFloat "1735689600.123456"; JFloat "1735693200.5"]);
                 ("0x00000000000000000000000000000000000000bb",
                  JArr [JFloat "1735700000.25"; JInt 1735700060;
                        JFloat "1.7357001e+09"])]);
          ("day", JStr "2025-01-01");
          ("added_today", JInt 1)] in
  init_state_doc "2025-01-02" (save_doc true doc None) = doc
  /\ init_state_doc "2025-01-02" (state_file (_save_state env Sample.counting))
     = state_doc (state Sample.counting).
Proof.
  intros env doc.
  destruct (state_round_trip env "2025-01-02" eq_refl) as [Hdoc Hst].
  split.
  - apply (Hdoc doc None). eexists _, _, _. split; [reflexivity|].
    split; [compute_done|].
    apply Forall_cons. split.
    { eexists. split; [reflexivity|].
      apply Forall_cons. split.
      { float_lit false (Pos.to_uint 1735689600) (Some (Pos.to_uint 123456))
          (@None exponent). }
      apply Forall_cons. split; [|apply Forall_nil_2].
      float_lit false (Pos.to_uint 1735693200) (Some (Pos.to_uint 5))
        (@None exponent). }
    apply Forall_cons. split; [|apply Forall_nil_2].
    eexists. split; [reflexivity|].
    apply Forall_cons. split.
    { float_lit false (Pos.to_uint 1735700000) (Some (Pos.to_uint 25))
        (@None exponent). }
    apply Forall_cons. split; [exact I|].
    apply Forall_cons. split; [|apply Forall_nil_2].
    float_lit false (Pos.to_uint 1) (Some (Pos.to_uint 7357001))
      (Some {| upper := false; esign := Some false;
               edigits := Decimal.D0 (Decimal.D9 Decimal.Nil) |}).
  - apply (Hst Sample.counting). compute_done.
Defined.

(** The text written for that state. *)
Example state_file_text :
  save_doc true (state_doc (state Sample.counting)) None
  = Some (text (chars "{" ++ dump_string "counters" ++ chars ": {"
               ++ dump_string "0x00000000000000000000000000000000000000aa"
               ++ chars ": [1735689600.0, 1735693200.0], "
               ++ dump_string "0x00000000000000000000000000000000000000bb"
               ++ chars ": [1735700000.0]}, "
               ++ dump_string "day" ++ chars ": " ++ dump_string "2025-01-01"
               ++ chars ", " ++ dump_string "added_today" ++ chars ": 1}")).
Proof. vm_compute. reflexivity. Qed.

End StateFileFacts.

(* ===================================================================== *)
(** * Properties of the price cache                                       *)
(* ===================================================================== *)

Module PricingFacts.
Import Pricing.

(** X1.  A price [get_native_usd] returns is either the cached one, when
    the entry is younger than [cache_seconds], with the cache left as it
    was; or the one just fetched, when there was no such entry, and then
    the cache holds it with the time of the call.  The id is never empty. *)
Theorem get_native_usd_sound cache now fetch id secs usd cache' :
  get_native_usd cache now fetch id secs = (Some usd, cache') ->
  id <> ""
  /\ ((exists e, cache !! id = Some e /\ now - t e < secs
                 /\ p e = Some usd /\ cache' = cache)
      \/ (fetch = Ret (Some usd)
          /\ cache' = <[id := {| p := Some usd; t := now |}]> cache
          /\ forall e, cache !! id = Some e -> secs <= now - t e)).
Proof.
  unfold get_native_usd. intros Hg.
  destruct (String.eqb id "") eqn:Eid; [discriminate|].
  apply String.eqb_neq in Eid. split; [exact Eid|].
  destruct (cache !! id) as [e|] eqn:Ec.
  - destruct (Z.ltb_spec (now - t e) secs) as [Hl|Hl].
    + left. exists e. by simplify_eq.
    + right. destruct fetch as [u|x]; simplify_eq.
      repeat split; [done..|]. intros e' He'. by simplify_eq.
  - right. destruct fetch as [u|x]; simplify_eq.
    repeat split; done.
Qed.

(** X1, at an instance: a fresh entry is served without the request. *)
Lemma get_native_usd_sound_witness :
  let cache : gmap string PriceEntry :=
    {["ethereum" := {| p := Some 3000%float; t := 100 |}]} in
  "ethereum" <> ""
  /\ ((exists e, cache !! "ethereum" = Some e /\ 130 - t e < 60
                 /\ p e = Some 3000%float /\ cache = cache)
      \/ (Raise ConnectionError = Ret (Some 3000%float)
          /\ cache = <["ethereum" := {| p := Some 3000%float; t := 130 |}]> cache
          /\ forall e, cache !! "ethereum" = Some e -> 60 <= 130 - t e)).
Proof.
  intros cache.
  apply (get_native_usd_sound cache 130 (Raise ConnectionError) "ethereum" 60).
  reflexivity.
Defined.

(** X2.  [get_native_usd] returns [None] in four cases only: the id is
    empty; the cache has an entry younger than [cache_seconds] whose price
    is [None]; there is no such entry and the request fails; there is no
    such entry and the request succeeds with a price that is [None].  In
    the first three the cache is left as it was, and an older entry is not
    served in place of a failed request.  In the last the [None] is
    stored with the time of the call, as any price is. *)
Theorem get_native_usd_none cache now fetch id secs cache' :
  get_native_usd cache now fetch id secs = (None, cache') ->
  (id = "" /\ cache' = cache)
  \/ (exists e, cache !! id = Some e /\ now - t e < secs
                /\ p e = None /\ cache' = cache)
  \/ ((forall e, cache !! id = Some e -> secs <= now - t e)
      /\ (((exists x, fetch = Raise x) /\ cache' = cache)
          \/ (fetch = Ret None
              /\ cache' = <[id := {| p := None; t := now |}]> cache))).
Proof.
  unfold get_native_usd. intros Hg.
  destruct (String.eqb id "") eqn:Eid.
  { apply String.eqb_eq in Eid. simplify_eq. by left. }
  right.
  assert (Hreq : (forall e, cache !! id = Some e -> secs <= now - t e) ->
                 match fetch with
                 | Ret usd => (usd, <[id := {| p := usd; t := now |}]> cache)
                 | Raise _ => (None, cache)
                 end = (None, cache') ->
                 (forall e, cache !! id = Some e -> secs <= now - t e)
                 /\ (((exists x, fetch = Raise x) /\ cache' = cache)
                     \/ (fetch = Ret None
                         /\ cache' = <[id := {| p := None; t := now |}]> cache))).
  { intros Hold Hf. split; [exact Hold|].
    destruct fetch as [u|x]; simplify_eq; [by right|left].
    split; [by exists x|done]. }
  destruct (cache !! id) as [e|] eqn:Ec.
  - destruct (Z.ltb_spec (now - t e) secs) as [Hl|Hl].
    + left. exists e. by simplify_eq.
    + right. apply Hreq; [|done]. intros e' He'. by simplify_eq.
  - right. apply Hreq; [|done]. done.
Qed.

(** X2, at an instance: a reply whose price is [null], with nothing
    cached, returns [None] and is stored. *)
Lemma get_native_usd_none_witness :
  get_native_usd ∅ 200 (Ret None) "ethereum" 60
  = (None, <["ethereum" := {| p := None; t := 200 |}]> ∅).
Proof.
  destruct (get_native_usd ∅ 200 (Ret None) "ethereum" 60) as [r c] eqn:E.
  assert (Hr : r = None) by (by injection E as <- _).
  subst r. f_equal.
  destruct (get_native_usd_none ∅ 200 (Ret None) "ethereum" 60 c E)
    as [[Hid _]|[(e & He & _)|[_ [[[x Hx] _]|[_ Hc]]]]].
  - discriminate.
  - by rewrite lookup_empty in He.
  - discriminate.
  - exact Hc.
Defined.

(** X3.  Once a price was fetched at [t0], every call for the same id
    less than [cache_seconds] later returns that price without regard to
    its own request, and changes nothing; the entries of the other ids are
    untouched by the fetch. *)
Theorem get_native_usd_reuse cache t0 t1 usd id secs fetch1 :
  id <> "" ->
  (forall e, cache !! id = Some e -> secs <= t0 - t e) ->
  t1 - t0 < secs ->
  let c1 := (get_native_usd cache t0 (Ret usd) id secs).2 in
  get_native_usd c1 t1 fetch1 id secs = (usd, c1)
  /\ forall id', id' <> id -> c1 !! id' = cache !! id'.
Proof.
  intros Hid Hold Hlt c1.
  assert (E : c1 = <[id := {| p := usd; t := t0 |}]> cache).
  { subst c1. unfold get_native_usd.
    apply String.eqb_neq in Hid. rewrite Hid.
    destruct (cache !! id) as [e|] eqn:Ec; [|done].
    destruct (Z.ltb_spec (t0 - t e) secs) as [Hl|Hl]; [|done].
    specialize (Hold e eq_refl). lia. }
  rewrite E. split.
  - unfold get_native_usd. apply String.eqb_neq in Hid. rewrite Hid.
    rewrite lookup_insert_eq. cbn [t p].
    by destruct (Z.ltb_spec (t1 - t0) secs) as [Hl|Hl]; [|lia].
  - intros id' Hne. by rewrite lookup_insert_ne.
Qed.

(** X3, at an instance. *)
Lemma get_native_usd_reuse_witness :
  let c1 := (get_native_usd ∅ 100 (Ret (Some 3000%float)) "ethereum" 60).2 in
  get_native_usd c1 159 (Raise ConnectionError) "ethereum" 60
  = (Some 3000%float, c1)
  /\ forall id', id' <> "ethereum" -> c1 !! id' = (∅ : gmap string PriceEntry) !! id'.
Proof.
  apply (get_native_usd_reuse ∅ 100 159 (Some 3000%float) "ethereum" 60
           (Raise ConnectionError)).
  - discriminate.
  - intros e He. by rewrite lookup_empty in He.
  - lia.
Defined.

End PricingFacts.

(* ===================================================================== *)
(** * Properties of the selectors                                         *)
(* ===================================================================== *)

Module SelectorFacts.
Import Uniswap UniswapFacts.

Section WithLibraries.

Context `{Libs}.

Lemma mapM_raises {A B} (f : A -> res B) (l : list A) :
  (forall x, raises (f x)) -> l <> [] -> raises (mapM f l).
Proof.
  intros Hf Hl. destruct l as [|a l]; [done|].
  destruct (Hf a) as [e He]. exists e. cbn. by rewrite He.
Qed.

Lemma decode_v2_never types ipath meth data :
  (forall v, raises (obj_hex v)) -> raises (decode_v2 types ipath meth data).
Proof.
  intros Hh. unfold decode_v2, mbind, res_bind, Py.bind.
  destruct (fromhex (bytes_hex data)) as [raw|e]; [|by exists e].
  destruct (abi_decode types raw) as [vals|e]; [|by exists e].
  destruct (index vals ipath) as [hops|e]; [|by exists e].
  destruct (obj_iter hops) as [ps|e]; [|by exists e].
  destruct ps as [|p ps].
  - cbn. by exists IndexError.
  - match goal with
    | |- context [mapM ?f (p :: ps)] =>
        destruct (mapM_raises f (p :: ps)) as [e He]
    end.
    + intros x. destruct (Hh x) as [e He]. exists e. by rewrite He.
    + done.
    + rewrite He. by exists e.
Qed.

Lemma decode_v3_never data :
  (forall v, raises (obj_hex v)) -> raises (decode_v3 data).
Proof.
  intros Hh. unfold decode_v3, mbind, res_bind, Py.bind.
  destruct (fromhex (bytes_hex data)) as [raw|e]; [|by exists e].
  destruct (abi_decode _ raw) as [vals|e]; [|by exists e].
  destruct (index vals 0) as [v0|e]; [|by exists e].
  destruct (Hh v0) as [e He]. rewrite He. by exists e.
Qed.

(** X4.  Every branch of [parse_uniswap_call] calls [hex()] on a decoded
    address before it builds the descriptor.  When that call raises on
    whatever the decoder returns (eth_abi returns an address as a [str],
    which has no such method), the exception is caught in the branch and
    [parse_uniswap_call] returns [None] for every input: no Swap
    Descriptor is ever produced. *)
Theorem parse_uniswap_call_never_decodes input :
  (forall v, raises (obj_hex v)) ->
  parse_uniswap_call input = Ret None.
Proof.
  intros Hh. unfold parse_uniswap_call.
  destruct (Z.of_nat (length input) <? 4); [done|]. cbv zeta.
  destruct (String.eqb _ SIG_V2_SWAP_EXACT_ETH_FOR_TOKENS).
  { apply catch_raise. by apply decode_v2_never. }
  destruct (String.eqb _ SIG_V2_SWAP_EXACT_TOKENS_FOR_TOKENS).
  { apply catch_raise. by apply decode_v2_never. }
  destruct (String.eqb _ SIG_V3_EXACT_INPUT_SINGLE); [|done].
  apply catch_raise. by apply decode_v3_never.
Qed.

(** [bytes.hex()] writes hex digits only. *)
Lemma bytes_hex_not_prefixed (bs : list byte) : startswith "0x" (bytes_hex bs) = false.
Proof. destruct bs as [|b r]; [reflexivity|]. destruct b; reflexivity. Qed.

(** X5.  The selector taken from the input is [bytes.hex()] of four
    bytes, which has no prefix.  So when the three constants computed at
    import time start with ["0x"], no input is ever recognised. *)
Theorem prefixed_selectors_never_match input :
  startswith "0x" SIG_V2_SWAP_EXACT_ETH_FOR_TOKENS = true ->
  startswith "0x" SIG_V2_SWAP_EXACT_TOKENS_FOR_TOKENS = true ->
  startswith "0x" SIG_V3_EXACT_INPUT_SINGLE = true ->
  parse_uniswap_call input = Ret None.
Proof.
  intros H1 H2 H3. unfold parse_uniswap_call.
  destruct (Z.of_nat (length input) <? 4); [done|]. cbv zeta.
  pose proof (bytes_hex_not_prefixed (take 4 input)) as Hn.
  destruct (String.eqb _ SIG_V2_SWAP_EXACT_ETH_FOR_TOKENS) eqn:E1.
  { apply String.eqb_eq in E1. congruence. }
  destruct (String.eqb _ SIG_V2_SWAP_EXACT_TOKENS_FOR_TOKENS) eqn:E2.
  { apply String.eqb_eq in E2. congruence. }
  destruct (String.eqb _ SIG_V3_EXACT_INPUT_SINGLE) eqn:E3; [|done].
  apply String.eqb_eq in E3. congruence.
Qed.

End WithLibraries.

(** X4, at an instance: the call data of [exactInputSingle], whose
    selector matches and whose arguments decode. *)
Lemma parse_uniswap_call_never_decodes_witness :
  @parse_uniswap_call Decoded.libs Sample.exact_input_single = Ret None.
Proof.
  apply (@parse_uniswap_call_never_decodes Decoded.libs).
  intros v. by exists AttributeError.
Defined.

(** X5, at an instance: the same call data, which the unprefixed
    selectors decode. *)
Lemma prefixed_selectors_never_match_witness :
  @parse_uniswap_call Prefixed.libs Sample.exact_input_single = Ret None.
Proof.
  apply (@prefixed_selectors_never_match Prefixed.libs); reflexivity.
Defined.

End SelectorFacts.

(* ===================================================================== *)
(** * Properties of runs of [consider]                                    *)
(* ===================================================================== *)

Module RunFacts.
Import Json Yaml Learn DictFacts PyFacts LearnFacts StateFileFacts JsonFacts.

Lemma run_cons_fst al c r w :
  (run al (c :: r) w).1
  = (consider al (call_env c) (call_address c) (call_est_usd c) w).1
    :: (run al r (consider al (call_env c) (call_address c) (call_est_usd c) w).2).1.
Proof.
  cbn [run].
  destruct (consider al (call_env c) (call_address c) (call_est_usd c) w) as [o w1].
  cbn [fst snd]. by destruct (run al r w1).
Qed.

Lemma run_cons_snd al c r w :
  (run al (c :: r) w).2
  = (run al r (consider al (call_env c) (call_address c) (call_est_usd c) w).2).2.
Proof.
  cbn [run].
  destruct (consider al (call_env c) (call_address c) (call_est_usd c) w) as [o w1].
  cbn [fst snd]. by destruct (run al r w1).
Qed.

(** What a call that passes the guards leaves behind, whichever branch it
    takes. *)
Lemma consider_guarded al env address est w :
  qualifying al address est w ->
  exists ws cf added,
    (consider al env address est w).2
    = _save_state env
        {| whales_set := ws;
           state := {| counters := dict_set (lower address) (counted al env address w)
                                     (counters (state w));
                       day := today env;
                       added_today := added |};
           state_file := state_file w;
           config_file := cf |}.
Proof.
  intros Hq. rewrite (consider_qualifying _ _ _ _ _ Hq).
  assert (Hc : counters (counted_state al env address w)
               = dict_set (lower address) (counted al env address w)
                   (counters (state w))).
  { unfold counted_state. by rewrite reset_counters. }
  assert (Hd : day (counted_state al env address w) = today env).
  { unfold counted_state. by rewrite reset_day. }
  destruct (_ && _); cbn [snd].
  - eexists _, _, _. by rewrite Hc, Hd.
  - eexists _, _, (added_today (counted_state al env address w)).
    f_equal. f_equal. rewrite <- Hc, <- Hd.
    by destruct (counted_state al env address w).
Qed.

Lemma consider_unguarded al env address est w :
  ~ qualifying al address est w -> consider al env address est w = (None, w).
Proof.
  intros Hn. destruct (enabled al) eqn:Ee; [|by apply consider_disabled].
  destruct (decide (lower address ∈ whales_set w)) as [Hin|Hin];
    [by apply consider_in_whales_set|].
  destruct (lt (float_or_zero est) (min_usd al)) eqn:El;
    [by apply consider_below_min|].
  exfalso. apply Hn. by repeat split.
Qed.

Lemma qualifying_dec al address est w :
  qualifying al address est w \/ ~ qualifying al address est w.
Proof.
  unfold qualifying.
  destruct (enabled al); [|right; intros (? & _); done].
  destruct (decide (lower address ∈ whales_set w)); [right; intros (_ & ? & _); done|].
  destruct (lt _ _); [right; intros (_ & _ & ?); done|].
  left. done.
Qed.

Lemma consider_whales_mono al env address est w :
  whales_set w ⊆ whales_set (consider al env address est w).2.
Proof.
  destruct (qualifying_dec al address est w) as [Hq|Hq].
  - rewrite (consider_qualifying _ _ _ _ _ Hq).
    destruct (_ && _); cbn; [|done]. apply union_subseteq_l.
  - by rewrite (consider_unguarded _ _ _ _ _ Hq).
Qed.

Lemma run_whales_mono al calls : forall w,
  whales_set w ⊆ whales_set (run al calls w).2.
Proof.
  induction calls as [|c r IH]; intros w; [done|].
  rewrite run_cons_snd. etrans; [|apply IH]. apply consider_whales_mono.
Qed.

Lemma run_known_none al calls : forall w j c,
  lower (call_address c) ∈ whales_set w ->
  calls !! j = Some c ->
  (run al calls w).1 !! j = Some None.
Proof.
  induction calls as [|c0 r IH]; intros w j c Hin Hj; [done|].
  rewrite run_cons_fst. destruct j as [|j]; cbn in Hj |- *.
  - simplify_eq. by rewrite consider_in_whales_set.
  - apply (IH _ _ c); [|done]. by apply consider_whales_mono.
Qed.

(** X6.  In a run of [consider], no address is returned twice, whatever
    the case it is written in; and an address of the whale set the run
    started with is never returned. *)
Theorem promoted_at_most_once al calls : forall w,
  (forall i j ci cj a b,
     (i < j)%nat ->
     calls !! i = Some ci -> calls !! j = Some cj ->
     (run al calls w).1 !! i = Some (Some a) ->
     (run al calls w).1 !! j = Some (Some b) ->
     lower (call_address ci) <> lower (call_address cj))
  /\ (forall j c, calls !! j = Some c ->
                  lower (call_address c) ∈ whales_set w ->
                  (run al calls w).1 !! j = Some None).
Proof.
  intros w. split; [|intros j c Hj Hin; by eapply run_known_none].
  revert w. induction calls as [|c0 r IH]; intros w i j ci cj a b Hij Hi Hj Hri Hrj;
    [done|].
  rewrite run_cons_fst in Hri, Hrj.
  destruct j as [|j]; [lia|]. cbn in Hj, Hrj.
  destruct i as [|i]; cbn in Hi, Hri.
  - simplify_eq. intros Heq.
    destruct (consider_promoted al (call_env ci) (call_address ci) (call_est_usd ci)
                w a) as (_ & Hin & _); [done|].
    rewrite Heq in Hin.
    rewrite (run_known_none _ _ _ _ _ Hin Hj) in Hrj. discriminate.
  - eapply (IH _ i j); [lia|done..].
Qed.

(** One call on the day the state is of. *)
Lemma consider_same_day al env address est w :
  today env = day (state w) ->
  day (state (consider al env address est w).2) = day (state w)
  /\ (((consider al env address est w).1 = None
       /\ added_today (state (consider al env address est w).2)
          = added_today (state w))
      \/ ((consider al env address est w).1 = Some address
          /\ added_today (state (consider al env address est w).2)
             = added_today (state w) + 1
          /\ added_today (state w) < max_new_per_day al)).
Proof.
  intros Hd. destruct (qualifying_dec al address est w) as [Hq|Hq].
  - rewrite (consider_qualifying _ _ _ _ _ Hq).
    assert (Hs : counted_state al env address w
                 = {| counters := dict_set (lower address) (counted al env address w)
                                    (counters (state w));
                      day := day (state w);
                      added_today := added_today (state w) |}).
    { unfold counted_state. by rewrite reset_same_day. }
    rewrite Hs. cbn [counters day added_today].
    destruct (occurrences al <=? _); cbn [andb]; [|split; [done|by left]].
    destruct (Z.ltb_spec (added_today (state w)) (max_new_per_day al)) as [Hl|Hl];
      cbn; split; [done| |done|]; [right|left]; done.
  - rewrite (consider_unguarded _ _ _ _ _ Hq). split; [done|by left].
Qed.

(** X7.  Over a run of calls made on the day the state is of, the counter
    [added_today] grows by exactly the number of addresses returned; it
    never passes [max_new_per_day] if it was not above it before. *)
Theorem promotions_counted al calls : forall w,
  Forall (fun c => today (call_env c) = day (state w)) calls ->
  added_today (state (run al calls w).2)
  = added_today (state w) + Z.of_nat (length (omap id (run al calls w).1))
  /\ day (state (run al calls w).2) = day (state w)
  /\ (added_today (state w) <= max_new_per_day al ->
      added_today (state (run al calls w).2) <= max_new_per_day al).
Proof.
  induction calls as [|c r IH]; intros w Hall.
  { cbn. split; [lia|done]. }
  apply Forall_cons in Hall as [Hc Hr].
  rewrite run_cons_fst, run_cons_snd.
  destruct (consider_same_day al (call_env c) (call_address c) (call_est_usd c) w Hc)
    as (Hday & Hcase).
  set (w1 := (consider al (call_env c) (call_address c) (call_est_usd c) w).2) in *.
  destruct (IH w1) as (Ha & Hd & Hm).
  { rewrite Hday. exact Hr. }
  rewrite Ha, Hd, Hday. split; [|split; [done|]].
  - destruct Hcase as [[-> E]|(-> & E & _)]; rewrite E; cbn; lia.
  - intros Hle. rewrite <- Ha. apply Hm.
    destruct Hcase as [[_ E]|(_ & E & Hl)]; rewrite E; lia.
Qed.

Lemma stored_save_state env w a : stored a (_save_state env w) = stored a w.
Proof. reflexivity. Qed.

(** X8.  A call of [consider] for one address leaves the timestamps kept
    for every other address as they were. *)
Theorem consider_frame al env address est w a :
  a <> lower address ->
  stored a (consider al env address est w).2 = stored a w.
Proof.
  intros Hne. destruct (qualifying_dec al address est w) as [Hq|Hq].
  - destruct (consider_guarded al env address est w Hq) as (ws & cf & added & ->).
    unfold stored. cbn. by rewrite dict_get_set_ne.
  - by rewrite (consider_unguarded _ _ _ _ _ Hq).
Qed.

(** X9.  After a call that passes the guards, the timestamps kept for
    the address are the earlier ones that lie within the window, in their
    order, and then the time of the call; with a window that is not
    negative, all of them are within the window of the call. *)
Theorem consider_keeps_window al env address est w :
  qualifying al address est w ->
  0 <= window_hours al ->
  let ts := stored (lower address) (consider al env address est w).2 in
  ts = filter (fun t => now env - t <= window_hours al * 3600)
         (stored (lower address) w) ++ [now env]
  /\ Forall (fun t => now env - t <= window_hours al * 3600) ts
  /\ (length ts <= S (length (stored (lower address) w)))%nat.
Proof.
  intros Hq Hw ts.
  assert (E : ts = filter (fun t => now env - t <= window_hours al * 3600)
                     (stored (lower address) w) ++ [now env]).
  { subst ts.
    destruct (consider_guarded al env address est w Hq) as (ws & cf & added & ->).
    unfold stored at 1. cbn. by rewrite dict_get_set_eq. }
  split; [exact E|]. rewrite E. split.
  - apply Forall_app. split.
    + apply Forall_forall. intros t Ht. by apply list_elem_of_filter in Ht as [Ht _].
    + apply Forall_singleton. lia.
  - rewrite length_app. cbn. pose proof (length_filter
      (fun t => now env - t <= window_hours al * 3600) (stored (lower address) w)).
    lia.
Qed.


Lemma lowered_app l1 l2 lows1 lows2 :
  lowered l1 = Ret lows1 -> lowered l2 = Ret lows2 ->
  lowered (l1 ++ l2) = Ret (lows1 ++ lows2).
Proof.
  revert lows1. induction l1 as [|y l1 IH]; intros lows1 H1 H2; cbn in *.
  - by simplify_eq.
  - destruct y; try discriminate.
    destruct (lowered l1) as [ls|e]; cbn in *; [|discriminate].
    simplify_eq. by rewrite (IH ls eq_refl H2).
Qed.

Lemma dict_set_cons {V} k (v : V) d : exists kv r, dict_set k v d = kv :: r.
Proof.
  destruct d as [|[k' v'] d]; cbn; [eauto|]. destruct (String.eqb k k'); eauto.
Qed.

(** X11.  Writing a learned address to the configuration is idempotent:
    once [whales_evm] was rewritten for an address, or found to list it
    already, doing so again for the same address in any case changes
    nothing. *)
Theorem persist_idempotent env env' address address' file :
  lower address' = lower address ->
  config_writable env = true ->
  persist env' address' (lower address')
    (persist env address (lower address) file)
  = persist env address (lower address) file.
Proof.
  intros Hl Hw. rewrite Hl. unfold persist at 2 3. unfold updated_config.
  destruct file as [doc|]; [|reflexivity].
  unfold mbind, res_bind, Py.bind.
  destruct (load_mapping doc) as [cfg_full|e] eqn:El.
  2:{ unfold persist, updated_config, mbind, res_bind, Py.bind. by rewrite El. }
  destruct (whales_evm_list cfg_full) as [lst|e] eqn:Ew.
  2:{ unfold persist, updated_config, mbind, res_bind, Py.bind. by rewrite El, Ew. }
  destruct (lowered lst) as [lows|e] eqn:Elo.
  2:{ unfold persist, updated_config, mbind, res_bind, Py.bind.
      by rewrite El, Ew, Elo. }
  case_bool_decide as Hin.
  { unfold persist, updated_config, mbind, res_bind, Py.bind.
    rewrite El, Ew, Elo. by rewrite bool_decide_eq_true_2. }
  rewrite Hw. unfold persist, updated_config, mbind, res_bind, Py.bind.
  assert (El' : load_mapping
                  (YMap (dict_set "whales_evm" (YSeq (lst ++ [YStr address])) cfg_full))
                = Ret (dict_set "whales_evm" (YSeq (lst ++ [YStr address])) cfg_full)).
  { unfold load_mapping, truthy.
    by destruct (dict_set_cons "whales_evm" (YSeq (lst ++ [YStr address])) cfg_full)
      as (kv & r & ->). }
  rewrite El'. unfold whales_evm_list. rewrite dict_get_set_eq.
  rewrite (lowered_app lst [YStr address] lows [lower address] Elo eq_refl).
  rewrite bool_decide_eq_true_2; [done|].
  apply elem_of_app. right. by apply list_elem_of_singleton.
Qed.

Import Sample.

(** X6, at an instance: two addresses, each promoted at its first call. *)
Lemma promoted_at_most_once_witness :
  let other := "0x00000000000000000000000000000000000000bb" in
  let calls := [big_buy 0 "2025-01-01" buyer; big_buy 60 "2025-01-01" other] in
  (run (settings 1 5) calls (started [] "2025-01-01" 0)).1
  = [Some buyer; Some other]
  /\ lower buyer <> lower other.
Proof.
  intros other calls. split; [vm_compute; reflexivity|].
  apply (proj1 (promoted_at_most_once (settings 1 5) calls
                  (started [] "2025-01-01" 0))
           0%nat 1%nat (big_buy 0 "2025-01-01" buyer)
           (big_buy 60 "2025-01-01" other) buyer other).
  - lia.
  - reflexivity.
  - reflexivity.
  - vm_compute. reflexivity.
  - vm_compute. reflexivity.
Defined.

(** X7, at an instance: three buyers and a quota of two. *)
Lemma promotions_counted_witness :
  let b2 := "0x00000000000000000000000000000000000000bb" in
  let b3 := "0x00000000000000000000000000000000000000cc" in
  let calls := [big_buy 0 "2025-01-01" buyer; big_buy 60 "2025-01-01" b2;
                big_buy 120 "2025-01-01" b3] in
  let w := started [] "2025-01-01" 0 in
  (run (settings 1 2) calls w).1 = [Some buyer; Some b2; None]
  /\ added_today (state (run (settings 1 2) calls w).2) = 2.
Proof.
  intros b2 b3 calls w.
  assert (E : (run (settings 1 2) calls w).1 = [Some buyer; Some b2; None])
    by (vm_compute; reflexivity).
  split; [exact E|].
  destruct (promotions_counted (settings 1 2) calls w) as (Ha & _ & _).
  - repeat constructor.
  - rewrite Ha, E. reflexivity.
Defined.

(** X8, at an instance: a purchase by one address, with another being
    counted. *)
Lemma consider_frame_witness :
  let call := big_buy 1735700100 "2025-01-01" buyer in
  stored "0x00000000000000000000000000000000000000bb"
    (consider (settings 3 5) (call_env call) buyer (call_est_usd call) counting).2
  = [1735700000].
Proof.
  intros call.
  rewrite (consider_frame (settings 3 5) (call_env call) buyer (call_est_usd call)
             counting "0x00000000000000000000000000000000000000bb").
  - reflexivity.
  - discriminate.
Defined.

(** X9, at an instance: of the two timestamps kept for the buyer, the
    first is more than an hour old at the third purchase. *)
Lemma consider_keeps_window_witness :
  let call := big_buy 1735693700 "2025-01-01" buyer in
  stored (lower buyer)
    (consider (settings 5 5) (call_env call) buyer (call_est_usd call) counting).2
  = [1735693200; 1735693700].
Proof.
  intros call.
  destruct (consider_keeps_window (settings 5 5) (call_env call) buyer
              (call_est_usd call) counting) as (E & _ & _).
  - repeat split. vm_compute. intros Hin. discriminate.
  - vm_compute. discriminate.
  - rewrite E. reflexivity.
Defined.


(** X11, at an instance: the address is seen again in lower case. *)
Lemma persist_idempotent_witness :
  let address := "0x52908400098527886E0F7030069857D2E4169EE7" in
  let env := call_env (big_buy 0 "2025-01-01" address) in
  let once := persist env address (lower address) (Some (config_doc [])) in
  persist env (lower address) (lower (lower address)) once = once.
Proof.
  intros address env once.
  apply (persist_idempotent env env address (lower address) (Some (config_doc []))).
  - reflexivity.
  - reflexivity.
Defined.

End RunFacts.

(* ===================================================================== *)
(** * Promotion, call by call                                             *)
(* ===================================================================== *)

Module PromotionFacts.
Import Json Yaml Learn DictFacts PyFacts LearnFacts RunFacts.

Lemma run_snoc_fst al pre c : forall w,
  (run al (pre ++ [c]) w).1
  = (run al pre w).1
    ++ [(consider al (call_env c) (call_address c) (call_est_usd c)
           (run al pre w).2).1].
Proof.
  induction pre as [|c0 pre IH]; intros w.
  - cbn [app]. by rewrite run_cons_fst.
  - rewrite <- app_comm_cons, !run_cons_fst, run_cons_snd, IH. reflexivity.
Qed.

Lemma run_snoc_snd al pre c : forall w,
  (run al (pre ++ [c]) w).2
  = (consider al (call_env c) (call_address c) (call_est_usd c)
       (run al pre w).2).2.
Proof.
  induction pre as [|c0 pre IH]; intros w.
  - cbn [app]. by rewrite run_cons_snd.
  - rewrite <- app_comm_cons, !run_cons_snd, IH. reflexivity.
Qed.

(** What an earlier call pruned is out of the window of a later one. *)
Lemma window_filter_filter (T t0 W : Z) (l : list Z) :
  t0 <= T ->
  filter (fun t => T - t <= W) (filter (fun t => t0 - t <= W) l)
  = filter (fun t => T - t <= W) l.
Proof.
  intros Hle. induction l as [|x l IH]; [done|].
  rewrite (filter_cons (fun t => t0 - t <= W)), (filter_cons (fun t => T - t <= W) x l).
  destruct (decide (t0 - x <= W)) as [H0|H0].
  - rewrite filter_cons. destruct (decide (T - x <= W)); by rewrite IH.
  - rewrite IH. destruct (decide (T - x <= W)); [lia|done].
Qed.

(** The timestamps a call that passes the guards leaves for its address. *)
Lemma stored_after_guarded al env address est w :
  qualifying al address est w ->
  stored (lower address) (consider al env address est w).2
  = filter (fun t => now env - t <= window_hours al * 3600)
      (stored (lower address) w) ++ [now env].
Proof.
  intros Hq.
  destruct (consider_guarded al env address est w Hq) as (ws & cf & added & ->).
  unfold stored at 1. cbn. by rewrite dict_get_set_eq.
Qed.

(** Within the window of a time [T] not before any call of the run, the
    timestamps kept for an address that is still outside [whales_set] are
    those it started with and those of its events in the run. *)
Lemma stored_history al addr T :
  enabled al = true ->
  forall pre w,
    addr ∉ whales_set (run al pre w).2 ->
    Forall (fun c' => now (call_env c') <= T) pre ->
    filter (fun t => T - t <= window_hours al * 3600)
      (stored addr (run al pre w).2)
    = filter (fun t => T - t <= window_hours al * 3600)
        (stored addr w ++ events al addr pre).
Proof.
  intros Hen. induction pre as [|c0 pre IH]; intros w Hout Hall.
  { unfold events, times. cbn. by rewrite app_nil_r. }
  apply Forall_cons in Hall as [H0 Hall].
  rewrite run_cons_snd in Hout |- *.
  set (w1 := (consider al (call_env c0) (call_address c0) (call_est_usd c0) w).2)
    in *.
  assert (Hout1 : addr ∉ whales_set w1).
  { intros Hin. apply Hout. by apply run_whales_mono. }
  assert (Hout0 : addr ∉ whales_set w).
  { intros Hin. apply Hout1. by apply consider_whales_mono. }
  rewrite (IH w1 Hout Hall). rewrite !filter_app. unfold events, times.
  rewrite filter_cons.
  destruct (decide (lower (call_address c0) = addr
                    /\ lt (float_or_zero (call_est_usd c0)) (min_usd al) = false))
    as [[Ha Hv]|Hno].
  - assert (Hq : qualifying al (call_address c0) (call_est_usd c0) w).
    { split; [done|]. split; [by rewrite Ha|done]. }
    pose proof (stored_after_guarded al (call_env c0) _ _ _ Hq) as Hs.
    rewrite Ha in Hs. fold w1 in Hs. rewrite Hs.
    rewrite filter_app, window_filter_filter by done.
    cbn [map]. rewrite (filter_cons _ (now (call_env c0))).
    rewrite <- !app_assoc. f_equal.
    rewrite filter_cons, filter_nil.
    by destruct (decide (T - now (call_env c0) <= window_hours al * 3600)).
  - f_equal. f_equal. subst w1.
    destruct (decide (lower (call_address c0) = addr)) as [Ha|Ha].
    + rewrite consider_below_min; [done|].
      destruct (lt (float_or_zero (call_est_usd c0)) (min_usd al)) eqn:E; [done|].
      exfalso. by apply Hno.
    + destruct (qualifying_dec al (call_address c0) (call_est_usd c0) w) as [Hq|Hq].
      * destruct (consider_guarded al (call_env c0) (call_address c0)
                    (call_est_usd c0) w Hq) as (ws & cf & added & ->).
        unfold stored. cbn. by rewrite dict_get_set_ne.
      * by rewrite (consider_unguarded _ _ _ _ _ Hq).
Qed.

(** C3, as amended.  In a run of calls for any addresses, take a call
    for an address that is outside [whales_set] when the call is made,
    with a value that reaches the threshold, at a time not before the
    earlier calls, learning enabled.  Count the events of that address
    that are at most [W = window_hours * 3600] old at the call (one exactly
    [W] old counts): the timestamps it started with and its earlier
    qualifying calls in the run.  The call promotes exactly when that
    count plus one reaches [occurrences] and the daily quota is open at the
    call, that is, [added_today], read as 0 when the state's day is not
    today, is below [max_new_per_day].  It then returns the address as
    passed and adds it, in lower case, to [whales_set]; otherwise it
    returns [None] and [whales_set] is as before.  Either way the
    timestamps kept for the address are the counted ones and the time of
    the call. *)
Theorem promotion_on_kth_event al w pre c :
  enabled al = true ->
  lower (call_address c) ∉ whales_set (run al pre w).2 ->
  lt (float_or_zero (call_est_usd c)) (min_usd al) = false ->
  Forall (fun c' => now (call_env c') <= now (call_env c)) pre ->
  let addr := lower (call_address c) in
  let before := (run al pre w).2 in
  let recent :=
    filter (fun t => now (call_env c) - t <= window_hours al * 3600)
      (stored addr w ++ events al addr pre) in
  let used :=
    if String.eqb (day (state before)) (today (call_env c))
    then added_today (state before) else 0 in
  let promoted :=
    (occurrences al <=? Z.of_nat (length recent) + 1)
    && (used <? max_new_per_day al) in
  (run al (pre ++ [c]) w).1
  = (run al pre w).1 ++ [if promoted then Some (call_address c) else None]
  /\ whales_set (run al (pre ++ [c]) w).2
     = (if promoted then whales_set before ∪ {[addr]} else whales_set before)
  /\ stored addr (run al (pre ++ [c]) w).2 = recent ++ [now (call_env c)].
Proof.
  intros Hen Hout Hv Hall addr before recent used promoted.
  assert (Hq : qualifying al (call_address c) (call_est_usd c) before)
    by (by repeat split).
  pose proof (stored_history al addr (now (call_env c)) Hen pre w Hout Hall) as Hh.
  assert (Hcount : counted al (call_env c) (call_address c) before
                   = recent ++ [now (call_env c)]).
  { exact (f_equal (fun l => l ++ [now (call_env c)]) Hh). }
  assert (Hused : added_today (counted_state al (call_env c) (call_address c) before)
                  = used).
  { unfold counted_state, _reset_day_if_needed, used. cbn [day added_today].
    by destruct (String.eqb _ _). }
  assert (Hlen : Z.of_nat (length (counted al (call_env c) (call_address c) before))
                 = Z.of_nat (length recent) + 1).
  { rewrite Hcount, length_app. cbn. lia. }
  rewrite run_snoc_fst, run_snoc_snd. fold before.
  split; [|split].
  - f_equal. rewrite (consider_qualifying _ _ _ _ _ Hq), Hlen, Hused.
    fold promoted. by destruct promoted.
  - rewrite (consider_qualifying _ _ _ _ _ Hq), Hlen, Hused.
    fold promoted. by destruct promoted.
  - rewrite (stored_after_guarded _ _ _ _ _ Hq).
    exact (f_equal (fun l => l ++ [now (call_env c)]) Hh).
Qed.

Import Sample.

(** C3, at instances: the calls of two buyers interleaved, with two
    occurrences asked for within one hour.  The second call of each
    promotes; with a quota of one, the first buyer's second call finds the
    quota used by the other and does not; and a second call more than an
    hour after the first counts alone and does not. *)
Lemma promotion_on_kth_event_witness :
  let other := "0x00000000000000000000000000000000000000bb" in
  let calls := [big_buy 0 "2025-01-01" buyer; big_buy 10 "2025-01-01" other;
                big_buy 20 "2025-01-01" other; big_buy 30 "2025-01-01" buyer] in
  let late := [big_buy 0 "2025-01-01" buyer; big_buy 10 "2025-01-01" other;
               big_buy 3601 "2025-01-01" buyer] in
  (run (settings 2 5) calls (started [] "2025-01-01" 0)).1
  = [None; None; Some other; Some buyer]
  /\ (run (settings 2 1) calls (started [] "2025-01-01" 0)).1
     = [None; None; Some other; None]
  /\ (run (settings 2 5) late (started [] "2025-01-01" 0)).1
     = [None; None; None]
  /\ stored buyer (run (settings 2 5) late (started [] "2025-01-01" 0)).2
     = [3601].
Proof.
  intros other calls late. split; [|split].
  - destruct (promotion_on_kth_event (settings 2 5) (started [] "2025-01-01" 0)
                [big_buy 0 "2025-01-01" buyer; big_buy 10 "2025-01-01" other;
                 big_buy 20 "2025-01-01" other]
                (big_buy 30 "2025-01-01" buyer)) as (Hr & _ & _).
    + reflexivity.
    + vm_compute. intros Hin. discriminate.
    + reflexivity.
    + repeat (apply Forall_cons_2; [cbn; lia|]). apply Forall_nil_2.
    + etrans; [exact Hr|]. vm_compute. reflexivity.
  - destruct (promotion_on_kth_event (settings 2 1) (started [] "2025-01-01" 0)
                [big_buy 0 "2025-01-01" buyer; big_buy 10 "2025-01-01" other;
                 big_buy 20 "2025-01-01" other]
                (big_buy 30 "2025-01-01" buyer)) as (Hr & _ & _).
    + reflexivity.
    + vm_compute. intros Hin. discriminate.
    + reflexivity.
    + repeat (apply Forall_cons_2; [cbn; lia|]). apply Forall_nil_2.
    + etrans; [exact Hr|]. vm_compute. reflexivity.
  - destruct (promotion_on_kth_event (settings 2 5) (started [] "2025-01-01" 0)
                [big_buy 0 "2025-01-01" buyer; big_buy 10 "2025-01-01" other]
                (big_buy 3601 "2025-01-01" buyer)) as (Hr & _ & Hs).
    + reflexivity.
    + vm_compute. intros Hin. discriminate.
    + reflexivity.
    + repeat (apply Forall_cons_2; [cbn; lia|]). apply Forall_nil_2.
    + split.
      * etrans; [exact Hr|]. vm_compute. reflexivity.
      * etrans; [exact Hs|]. vm_compute. reflexivity.
Defined.

End PromotionFacts.

(* ===================================================================== *)
(** * Properties of the loop of [watch_evm]                               *)
(* ===================================================================== *)

Module LoopFacts.
Import Loop Learn PyFacts LearnFacts RunFacts.

Section WithLibraries.

Context `{Libs}.

Lemma watch_evm_from_cons_fst cfg built native_usd autolearn p r w :
  (watch_evm_from cfg built native_usd autolearn (p :: r) w).1
  = (watch_evm_iteration cfg built native_usd autolearn p w).1
    :: (watch_evm_from cfg built native_usd autolearn r
          (watch_evm_iteration cfg built native_usd autolearn p w).2).1.
Proof.
  cbn [watch_evm_from].
  destruct (watch_evm_iteration cfg built native_usd autolearn p w) as [[e a] w1].
  cbn [fst snd]. by destruct (watch_evm_from cfg built native_usd autolearn r w1).
Qed.

Lemma watch_evm_from_cons_snd cfg built native_usd autolearn p r w :
  (watch_evm_from cfg built native_usd autolearn (p :: r) w).2
  = (watch_evm_from cfg built native_usd autolearn r
       (watch_evm_iteration cfg built native_usd autolearn p w).2).2.
Proof.
  cbn [watch_evm_from].
  destruct (watch_evm_iteration cfg built native_usd autolearn p w) as [[e a] w1].
  cbn [fst snd]. by destruct (watch_evm_from cfg built native_usd autolearn r w1).
Qed.

Lemma resolve_without_http cfg built lk :
  str_truthy (Evm.http cfg) = false -> resolve cfg built lk = None.
Proof. unfold resolve, w3_http. by intros ->. Qed.

(** X12.  With no HTTP endpoint configured, no pending transaction is
    ever resolved: the watcher sends nothing and learns nothing, whatever
    the subscription yields. *)
Theorem watch_evm_without_http cfg built rate autolearn pending w :
  str_truthy (Evm.http cfg) = false ->
  watch_evm cfg built rate autolearn pending w
  = (map (fun _ => (None, None)) pending, w).
Proof.
  intros Hh. unfold watch_evm.
  induction pending as [|p r IH]; [reflexivity|].
  cbn [watch_evm_from]. unfold watch_evm_iteration at 1.
  rewrite (resolve_without_http _ _ _ Hh). by rewrite IH.
Qed.

(** One iteration with the rate that reads as 0. *)
Lemma step_without_rate cfg al env tx_hash tx w :
  lt 0%float (min_usd al) = true ->
  (Watcher.watch_evm_step cfg 0%float (Some al) env tx_hash tx w).1.2 = None
  /\ (Watcher.watch_evm_step cfg 0%float (Some al) env tx_hash tx w).2 = w.
Proof.
  intros Hm. unfold Watcher.watch_evm_step.
  destruct (Evm.watch_evm_body cfg 0%float tx_hash tx); [|done].
  change (Evm.est_usd 0%float tx) with (@None float).
  rewrite consider_below_min; [done|]. exact Hm.
Qed.

(** X13.  The rate is read once, before the loop.  If that reading gave
    nothing (or zero), every transaction reaches [consider] with no fiat
    estimate, which counts as 0: with a positive auto-learn threshold the
    watcher announces no address and its auto-learn state never changes,
    however many transactions follow. *)
Theorem watch_evm_learns_nothing_without_rate cfg built rate al pending w :
  Evm.native_usd_of rate = 0%float ->
  lt 0%float (min_usd al) = true ->
  Forall (fun o => o.2 = None) (watch_evm cfg built rate (Some al) pending w).1
  /\ (watch_evm cfg built rate (Some al) pending w).2 = w.
Proof.
  intros Hr Hm. unfold watch_evm. rewrite Hr.
  induction pending as [|p r IH]; [by split|].
  rewrite watch_evm_from_cons_fst, watch_evm_from_cons_snd.
  assert (E : (watch_evm_iteration cfg built 0%float (Some al) p w).1.2 = None
              /\ (watch_evm_iteration cfg built 0%float (Some al) p w).2 = w).
  { unfold watch_evm_iteration. destruct (resolve cfg built (lookup p)); [|done].
    by apply step_without_rate. }
  destruct E as [E1 E2]. rewrite E2. destruct IH as [IH1 IH2].
  split; [|done]. by apply Forall_cons.
Qed.

Lemma iteration_whales_mono cfg built native_usd autolearn p w :
  whales_set w ⊆ whales_set (watch_evm_iteration cfg built native_usd autolearn p w).2.
Proof.
  unfold watch_evm_iteration, Watcher.watch_evm_step.
  destruct (resolve _ _ _) as [tx|]; [|done].
  destruct (Evm.watch_evm_body _ _ _ _); [|done].
  destruct autolearn as [al|]; [|done].
  pose proof (consider_whales_mono al (env p) (Evm.frm tx)
                (Evm.est_usd native_usd tx) w) as Hm.
  by destruct (consider _ _ _ _ _) as [o w'].
Qed.

Lemma from_whales_mono cfg built native_usd autolearn pending : forall w,
  whales_set w ⊆ whales_set (watch_evm_from cfg built native_usd autolearn pending w).2.
Proof.
  induction pending as [|p r IH]; intros w; [done|].
  rewrite watch_evm_from_cons_snd. etrans; [|apply IH]. apply iteration_whales_mono.
Qed.

Lemma iteration_announced cfg built native_usd autolearn p w a :
  (watch_evm_iteration cfg built native_usd autolearn p w).1.2 = Some a ->
  is_Some (watch_evm_iteration cfg built native_usd autolearn p w).1.1
  /\ a <> "" /\ lower a = a
  /\ a ∈ whales_set (watch_evm_iteration cfg built native_usd autolearn p w).2
  /\ a ∉ whales_set w.
Proof.
  unfold watch_evm_iteration, Watcher.watch_evm_step.
  destruct (resolve _ _ _) as [tx|]; [|done].
  destruct (Evm.watch_evm_body _ _ _ _); [|done].
  destruct autolearn as [al|]; [|done].
  pose proof (consider_promoted al (env p) (Evm.frm tx)
                (Evm.est_usd native_usd tx) w) as Hp.
  pose proof (consider_in_whales_set al (env p) (Evm.frm tx)
                (Evm.est_usd native_usd tx) w) as Hk.
  assert (Hl : lower (Evm.frm tx) = Evm.frm tx)
    by (unfold Evm.frm; apply lower_idempotent).
  rewrite Hl in Hp, Hk.
  destruct (consider _ _ _ _ _) as [o w']. cbn in *.
  destruct o as [[|c r]|]; [done| |done]. intros [= <-].
  destruct (Hp _ eq_refl) as (Ha & Hin & _).
  split; [by eexists|]. split; [done|]. rewrite Ha.
  split; [done|]. split; [done|].
  intros Hin'. specialize (Hk Hin'). discriminate.
Qed.

(** X14.  The loop of [watch_evm] handles each pending hash once.  An
    address is announced as learned only in an iteration that also sent an
    alert; it is not empty, is in lower case, and belongs to the whale set
    from then on.  The whale set only grows.  Without auto-learn nothing
    is announced and the state is left alone. *)
Theorem watch_evm_announcements cfg built rate autolearn pending : forall w,
  let r := watch_evm cfg built rate autolearn pending w in
  length r.1 = length pending
  /\ Forall (fun o => forall a, o.2 = Some a ->
               is_Some o.1 /\ a <> "" /\ lower a = a /\ a ∈ whales_set r.2) r.1
  /\ whales_set w ⊆ whales_set r.2
  /\ (autolearn = None -> r.2 = w /\ Forall (fun o => o.2 = None) r.1).
Proof.
  unfold watch_evm. generalize (Evm.native_usd_of rate) as native_usd.
  intros native_usd. induction pending as [|p r IH]; intros w; cbv zeta.
  { cbn. repeat split; done. }
  rewrite watch_evm_from_cons_fst, watch_evm_from_cons_snd.
  set (it := watch_evm_iteration cfg built native_usd autolearn p w).
  destruct (IH it.2) as (Hlen & Hall & Hmono & Hnone). cbv zeta in *.
  split; [cbn; by rewrite Hlen|]. split; [|split].
  - apply Forall_cons. split; [|done].
    intros a Ha. destruct (iteration_announced _ _ _ _ _ _ _ Ha)
      as (Hs & Hne & Hl & Hin & _).
    repeat split; [done..|]. by apply Hmono.
  - etrans; [apply iteration_whales_mono|]. exact Hmono.
  - intros ->. destruct (Hnone eq_refl) as (Hw & Hn).
    assert (E : it.1.2 = None /\ it.2 = w).
    { subst it. unfold watch_evm_iteration, Watcher.watch_evm_step.
      destruct (resolve _ _ _); [|done]. by destruct (Evm.watch_evm_body _ _ _ _). }
    destruct E as [E1 E2]. rewrite E2 in Hw, Hn |- *. split; [done|].
    by apply Forall_cons.
Qed.

(** X15.  A sender is announced at most once by the loop: after the
    iteration that announced it, no later one announces the same
    address. *)
Theorem watch_evm_announces_once cfg built rate autolearn pending : forall w i j a b,
  (i < j)%nat ->
  (watch_evm cfg built rate autolearn pending w).1 !! i = Some a ->
  (watch_evm cfg built rate autolearn pending w).1 !! j = Some b ->
  is_Some a.2 -> a.2 <> b.2.
Proof.
  unfold watch_evm. generalize (Evm.native_usd_of rate) as native_usd.
  intros native_usd.
  assert (Hknown : forall pending w j b x,
            x ∈ whales_set w ->
            (watch_evm_from cfg built native_usd autolearn pending w).1 !! j = Some b ->
            b.2 <> Some x).
  { clear. induction pending as [|p r IH]; intros w j b x Hx Hj; [done|].
    rewrite watch_evm_from_cons_fst in Hj. destruct j as [|j]; cbn in Hj.
    - simplify_eq. intros Ha.
      by destruct (iteration_announced _ _ _ _ _ _ _ Ha) as (_ & _ & _ & _ & Hn).
    - eapply IH; [|done]. by apply iteration_whales_mono. }
  induction pending as [|p r IH]; intros w i j a b Hij Hi Hj [x Hx]; [done|].
  rewrite watch_evm_from_cons_fst in Hi, Hj.
  destruct j as [|j]; [lia|]. cbn in Hj.
  destruct i as [|i]; cbn in Hi.
  - simplify_eq. rewrite Hx.
    destruct (iteration_announced _ _ _ _ _ _ _ Hx) as (_ & _ & _ & Hin & _).
    intros Heq. by eapply Hknown.
  - eapply (IH _ i j); [lia|done..|by exists x].
Qed.

(** X26.  Which transactions are alerted, and with what embed, is
    decided by the configuration, the rate read before the loop and the
    transaction alone: auto-learn, its state and what it learned during the
    run have no part in it (the whale set the loop matches senders against
    is the one the configuration gave). *)
Theorem watch_evm_alerts cfg built rate autolearn pending : forall w,
  map fst (watch_evm cfg built rate autolearn pending w).1
  = map (fun p => match resolve cfg built (lookup p) with
                  | Some tx =>
                      Evm.watch_evm_body cfg (Evm.native_usd_of rate) (tx_hash p) tx
                  | None => None
                  end) pending.
Proof.
  unfold watch_evm. induction pending as [|p r IH]; intros w; [reflexivity|].
  rewrite watch_evm_from_cons_fst. cbn [map]. rewrite IH. f_equal.
  unfold watch_evm_iteration, Watcher.watch_evm_step.
  destruct (resolve cfg built (lookup p)) as [tx|]; [|done].
  destruct (Evm.watch_evm_body _ _ _ _); [|done].
  destruct autolearn as [al|]; [|done].
  by destruct (consider _ _ _ _ _).
Qed.

End WithLibraries.

Import Sample.

(** X12, at an instance: the configuration of [Sample] without ["http"]. *)
Lemma watch_evm_without_http_witness :
  let cfg0 :=
    {| Evm.name := "ethereum"; Evm.ws := "wss://node"; Evm.http := None;
       Evm.explorer := "https://etherscan.io/tx/"; Evm.native_symbol := "ETH";
       Evm.native_coingecko := "ethereum"; Evm.routers := [("UniswapV2", router)];
       Evm.min_usd := 50000%float; Evm.min_native := 10%float;
       Evm.whales := ∅ |} in
  let p := {| Loop.tx_hash := Sample.tx_hash;
              lookup := {| primary := Ret (Some swap_call);
                           fallback := Ret (Some swap_call) |};
              env := call_env (big_buy 0 "2025-01-01" buyer) |} in
  watch_evm cfg0 false (Some 3000%float) (Some (settings 1 5)) [p]
    (started [] "2025-01-01" 0)
  = ([(None, None)], started [] "2025-01-01" 0).
Proof.
  intros cfg0 p.
  apply (watch_evm_without_http cfg0 false (Some 3000%float) (Some (settings 1 5)) [p]).
  reflexivity.
Defined.

(** X13, at an instance: a transfer of 5 ETH to the router, seen three
    times, with no rate: three alerts, nothing learned. *)
Lemma watch_evm_learns_nothing_without_rate_witness :
  let p := {| Loop.tx_hash := Sample.tx_hash;
              lookup := {| primary := Ret (Some (transfer router (5 * 10 ^ 18)));
                           fallback := Raise ConnectionError |};
              env := call_env (big_buy 0 "2025-01-01" buyer) |} in
  let r := watch_evm (cfg 50000 1 []) true None (Some (settings 1 5)) [p; p; p]
             (started [] "2025-01-01" 0) in
  map (fun o => bool_decide (is_Some o.1)) r.1 = [true; true; true]
  /\ Forall (fun o => o.2 = None) r.1 /\ r.2 = started [] "2025-01-01" 0.
Proof.
  intros p. split; [vm_compute; reflexivity|].
  apply (watch_evm_learns_nothing_without_rate (cfg 50000 1 []) true None
           (settings 1 5) [p; p; p] (started [] "2025-01-01" 0)).
  - reflexivity.
  - reflexivity.
Defined.

(** X15, at an instance: with a rate of 60000 USD the same transfer, seen
    twice, is announced the first time only. *)
Lemma watch_evm_announces_once_witness :
  let p := {| Loop.tx_hash := Sample.tx_hash;
              lookup := {| primary := Ret (Some (transfer router (5 * 10 ^ 18)));
                           fallback := Raise ConnectionError |};
              env := call_env (big_buy 0 "2025-01-01" buyer) |} in
  let r := watch_evm (cfg 50000 10 []) true (Some 60000%float) (Some (settings 1 5))
             [p; p] (started [] "2025-01-01" 0) in
  map snd r.1 = [Some buyer; None] /\ Some buyer <> @None string.
Proof.
  intros p r.
  assert (E : map snd r.1 = [Some buyer; None]) by (vm_compute; reflexivity).
  split; [exact E|].
  destruct r.1 as [|a [|b l]] eqn:Er; [discriminate|discriminate|].
  injection E as Ea Eb _. rewrite <- Ea, <- Eb.
  apply (watch_evm_announces_once (cfg 50000 10 []) true (Some 60000%float)
           (Some (settings 1 5)) [p; p] (started [] "2025-01-01" 0) 0%nat 1%nat a b).
  - lia.
  - fold r. by rewrite Er.
  - fold r. by rewrite Er.
  - rewrite Ea. by eexists.
Defined.

End LoopFacts.

(* ===================================================================== *)
(** * Properties of [discord_send]                                        *)
(* ===================================================================== *)

Module DiscordFacts.
Import Discord.

Lemma str_take_length n s : String.length (str_take n s) = Nat.min n (String.length s).
Proof.
  revert s. induction n as [|n IH]; intros [|c s]; cbn; [done..|]. by rewrite IH.
Qed.

Lemma str_take_drop n s : s = str_take n s +:+ str_drop n s.
Proof.
  revert s. induction n as [|n IH]; intros [|c s]; cbn; [done..|].
  change (String c s = String c (str_take n s +:+ str_drop n s)).
  by rewrite <- IH.
Qed.

Lemma str_take_all n s : (String.length s <= n)%nat -> str_take n s = s.
Proof.
  revert s. induction n as [|n IH]; intros [|c s]; cbn; intros Hl; [done|lia|done|].
  rewrite IH; [done|lia].
Qed.

(** X16.  Whatever [discord_send] is given, what it posts is within the
    limits: the content is the first 1900 characters of the text, and the
    embeds are the first ten of those given, the key being absent when
    there are none.  Nothing is posted unless the webhook is set to a
    string that is not empty. *)
Theorem discord_send_payload {E} WEBHOOK post text (embed_list : option (list E)) pl :
  (discord_send WEBHOOK post text embed_list).1 = Some pl ->
  (exists c r, WEBHOOK = Some (String c r))
  /\ (String.length (content pl) <= 1900)%nat
  /\ text = content pl +:+ str_drop 1900 text
  /\ match embeds pl with
     | Some l => l <> [] /\ (length l <= 10)%nat
                 /\ exists given, embed_list = Some given /\ l = take 10 given
     | None => embed_list = None \/ embed_list = Some []
     end.
Proof.
  unfold discord_send. destruct WEBHOOK as [[|c r]|]; [done| |done].
  cbn [fst]. intros Hp. apply (inj Some) in Hp. subst pl. cbn [content embeds].
  split; [by eexists _, _|]. split; [rewrite str_take_length; lia|].
  split; [apply str_take_drop|].
  destruct embed_list as [[|e l]|]; [by right| |by left].
  split; [done|]. split; [rewrite length_take; lia|]. by eexists.
Qed.

(** X17.  A message within the limits is posted as it is. *)
Theorem discord_send_unchanged {E} WEBHOOK post text (l : list E) :
  str_or WEBHOOK "" <> "" ->
  (String.length text <= 1900)%nat ->
  l <> [] -> (length l <= 10)%nat ->
  (discord_send WEBHOOK post text (Some l)).1
  = Some {| content := text; embeds := Some l |}.
Proof.
  intros Hw Ht Hl Hn. unfold discord_send.
  destruct WEBHOOK as [[|c r]|]; [done| |done]. cbn [fst].
  destruct l as [|e l]; [done|].
  rewrite str_take_all by done. by rewrite take_ge by done.
Qed.

(** X16, at an instance: twelve embeds and no text. *)
Lemma discord_send_payload_witness :
  let sent := (discord_send (Some "https://discord.com/api/webhooks/1/x")
                 (fun _ => Ret 204) "" (Some (seq 0 12))).1 in
  sent = Some {| content := ""; embeds := Some (seq 0 10) |}
  /\ match sent with
     | Some pl => (String.length (content pl) <= 1900)%nat
     | None => False
     end.
Proof.
  intros sent. split; [reflexivity|].
  destruct (discord_send_payload (Some "https://discord.com/api/webhooks/1/x")
              (fun _ => Ret 204) "" (Some (seq 0 12))
              {| content := ""; embeds := Some (seq 0 10) |})
    as (_ & Hc & _).
  - reflexivity.
  - exact Hc.
Defined.

(** X17, at an instance: the one embed the watcher sends. *)
Lemma discord_send_unchanged_witness :
  (discord_send (Some "https://discord.com/api/webhooks/1/x")
     (fun _ => Raise ConnectionError) "" (Some ["embed"])).1
  = Some {| content := ""; embeds := Some ["embed"] |}.
Proof.
  apply (discord_send_unchanged (Some "https://discord.com/api/webhooks/1/x")
           (fun _ => Raise ConnectionError) "" ["embed"]).
  - discriminate.
  - cbn. lia.
  - discriminate.
  - cbn. lia.
Defined.

End DiscordFacts.

(* ===================================================================== *)
(** * Properties of the Solana watcher                                    *)
(* ===================================================================== *)

Module SolanaFacts.
Import Discord Solana DiscordFacts.

Lemma length_append (s1 s2 : string) :
  String.length (s1 +:+ s2) = (String.length s1 + String.length s2)%nat.
Proof.
  induction s1 as [|c s1 IH]; [done|].
  change (String c s1 +:+ s2) with (String c (s1 +:+ s2)). cbn. by rewrite IH.
Qed.

(** X18.  [handle_filter] alerts on a result exactly when its signature
    is a string that is not empty.  The alert links to the explorer page
    of that signature, and its description is at most 216 characters
    longer than the signature: of the logs only the first line is quoted,
    cut to 180 characters. *)
Theorem handle_result_alert cfg res :
  match handle_result cfg res with
  | Some e =>
      exists sig, signature res = Some sig /\ sig <> ""
        /\ Evm.url e = explorer_tx cfg +:+ sig
        /\ (String.length (Evm.description e) <= String.length sig + 216)%nat
  | None => signature res = None \/ signature res = Some ""
  end.
Proof.
  unfold handle_result. destruct (signature res) as [[|c r]|]; [by right| |by left].
  exists (String c r). split; [done|]. split; [done|]. split; [done|].
  cbn [Evm.description]. rewrite !length_append.
  assert (Hf : (String.length (first_line res) <= 180)%nat).
  { unfold first_line. rewrite str_take_length. lia. }
  cbn -[first_line]. lia.
Qed.

(** X19.  Over what one subscription yields, the alerts sent are, in
    order, those of the results that carry a signature. *)
Theorem handle_filter_urls cfg results :
  map Evm.url (handle_filter cfg results)
  = map (fun sig => explorer_tx cfg +:+ sig)
      (filter (fun sig => sig <> "") (omap signature results)).
Proof.
  unfold handle_filter. induction results as [|res r IH]; [reflexivity|].
  cbn [omap list_omap]. unfold handle_result at 1.
  destruct (signature res) as [[|c s]|].
  - rewrite filter_cons_False; [done|]. intros Hn. by apply Hn.
  - rewrite filter_cons_True by done. cbn [map Evm.url]. by rewrite IH.
  - done.
Qed.

End SolanaFacts.

(* ===================================================================== *)
(** * Properties of [csv_env] and of the generated whale list             *)
(* ===================================================================== *)

Module GenConfigFacts.
Import Json GenConfig JsonFacts Learn LearnFacts PyFacts.

Lemma lstrip_head cs :
  match lstrip cs with
  | [] => True
  | c :: _ => is_space c = false
  end.
Proof.
  induction cs as [|a cs IH]; cbn [lstrip]; [done|].
  destruct (is_space a) eqn:E; [exact IH|exact E].
Qed.

Lemma lstrip_snoc l c : is_space c = false -> lstrip (l ++ [c]) = lstrip l ++ [c].
Proof.
  intros Hc. induction l as [|a l IH]; cbn [lstrip app]; [by rewrite Hc|].
  by destruct (is_space a).
Qed.

Lemma rstrip_cons c r : is_space c = false -> rstrip (c :: r) = c :: rstrip r.
Proof.
  intros Hc. unfold rstrip. rewrite reverse_cons, lstrip_snoc by done.
  by rewrite reverse_snoc.
Qed.

Lemma lstrip_idem x : lstrip (lstrip x) = lstrip x.
Proof.
  induction x as [|a x IH]; cbn [lstrip]; [done|].
  destruct (is_space a) eqn:E; [exact IH|]. cbn [lstrip]. by rewrite E.
Qed.

Lemma rstrip_idem x : rstrip (rstrip x) = rstrip x.
Proof. unfold rstrip. by rewrite reverse_involutive, lstrip_idem. Qed.

Lemma strip_idem x : strip (strip x) = strip x.
Proof.
  unfold strip. pose proof (lstrip_head x) as Hh.
  destruct (lstrip x) as [|c r]; [reflexivity|].
  rewrite rstrip_cons by done. cbn [lstrip]. rewrite Hh.
  rewrite rstrip_cons by done. by rewrite rstrip_idem.
Qed.

Lemma lstrip_subset x cs : x ∈ lstrip cs -> x ∈ cs.
Proof.
  induction cs as [|a cs IH]; cbn [lstrip]; [done|].
  destruct (is_space a); [|done]. intros Hx. right. by apply IH.
Qed.

Lemma strip_subset x cs : x ∈ strip cs -> x ∈ cs.
Proof.
  unfold strip, rstrip. rewrite elem_of_reverse. intros Hx.
  apply lstrip_subset in Hx. rewrite elem_of_reverse in Hx.
  by apply lstrip_subset.
Qed.

Lemma split_comma_no_comma cs : Forall (fun x => ","%char ∉ x) (split_comma cs).
Proof.
  induction cs as [|a cs IH]; cbn [split_comma].
  - apply Forall_singleton. apply not_elem_of_nil.
  - destruct (Ascii.eqb_spec a ","%char) as [->|Hne].
    + apply Forall_cons. split; [apply not_elem_of_nil|done].
    + destruct (split_comma cs) as [|x xs].
      * apply Forall_singleton. apply not_elem_of_cons. split; [done|].
        apply not_elem_of_nil.
      * apply Forall_cons in IH as [Hx Hxs]. apply Forall_cons. split; [|done].
        apply not_elem_of_cons. by split.
Qed.

Lemma csv_chars_clean cs : Forall clean (csv_chars cs).
Proof.
  unfold csv_chars. apply Forall_forall. intros x Hx.
  apply list_elem_of_filter in Hx as [Hne Hx].
  apply list_elem_of_fmap in Hx as (y & -> & Hy).
  split; [done|]. split; [|apply strip_idem].
  intros Hc. apply strip_subset in Hc.
  pose proof (split_comma_no_comma cs) as Hall.
  rewrite Forall_forall in Hall. by apply (Hall y).
Qed.

(** X20.  Every item [csv_env] returns is a non-empty string without a
    comma and without white space at either end, whatever the variable
    holds. *)
Theorem csv_env_clean v : Forall (fun s => clean (chars s)) (csv_env v).
Proof.
  unfold csv_env. apply Forall_fmap. eapply Forall_impl; [apply csv_chars_clean|].
  intros x Hx. cbn. by rewrite chars_text.
Qed.

Lemma split_comma_single x : ","%char ∉ x -> split_comma x = [x].
Proof.
  induction x as [|a x IH]; cbn [split_comma]; [done|].
  rewrite not_elem_of_cons. intros [Hne Hx].
  destruct (Ascii.eqb_spec a ","%char) as [->|_]; [done|]. by rewrite IH.
Qed.

Lemma split_comma_app x rest :
  ","%char ∉ x -> split_comma (x ++ ","%char :: rest) = x :: split_comma rest.
Proof.
  induction x as [|a x IH]; cbn [split_comma app]; [done|].
  rewrite not_elem_of_cons. intros [Hne Hx].
  destruct (Ascii.eqb_spec a ","%char) as [->|_]; [done|]. by rewrite IH.
Qed.

Lemma split_join items :
  items <> [] -> Forall (fun x => ","%char ∉ x) items ->
  split_comma (join_comma items) = items.
Proof.
  induction items as [|x r IH]; [done|]. intros _ Hall.
  apply Forall_cons in Hall as [Hx Hr].
  destruct r as [|y r]; cbn [join_comma]; [by apply split_comma_single|].
  rewrite split_comma_app by done. f_equal. by apply IH.
Qed.

Lemma csv_chars_join items :
  Forall clean items -> csv_chars (join_comma items) = items.
Proof.
  intros Hall. destruct (decide (items = [])) as [->|Hne]; [reflexivity|].
  unfold csv_chars. rewrite split_join; [|done|].
  2:{ eapply Forall_impl; [exact Hall|]. by intros x (_ & Hc & _). }
  induction Hall as [|x r (Hx & _ & Hs) Hr IH]; [done|].
  cbn [map]. rewrite Hs. rewrite filter_cons_True by done.
  destruct (decide (r = [])) as [->|Hr']; [done|]. by rewrite IH.
Qed.

(** X21.  Items that are not empty, hold no comma and have no white space
    at either end come back from [csv_env] as they were joined with
    commas: the same items in the same order. *)
Theorem csv_env_join items :
  Forall (fun s => clean (chars s)) items ->
  csv_env (text (join_comma (map chars items))) = items.
Proof.
  intros Hall. unfold csv_env. rewrite chars_text.
  rewrite csv_chars_join by (by apply Forall_fmap).
  rewrite <- list_fmap_compose. rewrite <- (list_fmap_id items) at 2.
  apply list_fmap_ext. intros i s _. cbn. apply text_chars.
Qed.

(** X22.  The whale list [generate_config] writes is in lower case.  So
    on a configuration it wrote, the set [main] hands to [AutoLearn] is
    the set the watcher matches senders against; and [consider] turns
    down every listed address, in whatever case it is seen, without
    touching its state. *)
Theorem generated_whale_not_learned al env v address est w x :
  main_whales_set (WHALES_EVM v) ⊆ whales_set w ->
  x ∈ csv_env v ->
  lower x = lower address ->
  consider al env address est w = (None, w)
  /\ main_whales_set (WHALES_EVM v) = build_evm_cfgs_whales (WHALES_EVM v).
Proof.
  intros Hsub Hx Hl. split.
  - apply consider_in_whales_set. apply Hsub. unfold main_whales_set, WHALES_EVM.
    apply elem_of_list_to_set. rewrite <- Hl. apply list_elem_of_fmap. eauto.
  - unfold main_whales_set, build_evm_cfgs_whales, WHALES_EVM. f_equal.
    rewrite <- list_fmap_compose. apply list_fmap_ext. intros i s _. cbn.
    symmetry. apply lower_idempotent.
Qed.

Import Sample.

(** X21, at an instance. *)
Lemma csv_env_join_witness :
  csv_env "0xAbC,sol whale,x" = ["0xAbC"; "sol whale"; "x"].
Proof.
  apply (csv_env_join ["0xAbC"; "sol whale"; "x"]).
  repeat constructor; try discriminate; compute_done.
Defined.

(** X22, at an instance: the address is configured in mixed case and seen
    in lower case. *)
Lemma generated_whale_not_learned_witness :
  let v := " 0x52908400098527886E0F7030069857D2E4169EE7 , " in
  let seen := "0x52908400098527886e0f7030069857d2e4169ee7" in
  let w := started (WHALES_EVM v) "2025-01-01" 0 in
  consider (settings 1 5) (call_env (big_buy 0 "2025-01-01" seen)) seen
    (Some 300000%float) w = (None, w).
Proof.
  intros v seen w.
  apply (generated_whale_not_learned (settings 1 5)
           (call_env (big_buy 0 "2025-01-01" seen)) v seen (Some 300000%float) w
           "0x52908400098527886E0F7030069857D2E4169EE7").
  - reflexivity.
  - vm_compute. left.
  - reflexivity.
Defined.

End GenConfigFacts.

(* ===================================================================== *)
(** * Properties of the message handlers                                  *)
(* ===================================================================== *)

Module MessageFacts.
Import Json Channel.

(** X23.  Within one connection, messages are handled one after the
    other as long as none raises; the first that raises ends the
    connection, and nothing delivered after it is yielded. *)
Theorem receive_app {A} (on_message : string -> res (option A)) l1 l2 :
  (Forall (fun raw => returns (on_message raw)) l1 ->
   receive on_message (l1 ++ l2)
   = receive on_message l1 ++ receive on_message l2)
  /\ (Exists (fun raw => raises (on_message raw)) l1 ->
      receive on_message (l1 ++ l2) = receive on_message l1).
Proof.
  split.
  - induction 1 as [|raw l1 [r Hr] Hall IH]; [done|].
    cbn [receive app]. rewrite Hr. destruct r; by rewrite IH.
  - induction 1 as [raw l1 [e He]|raw l1 Hex IH]; cbn [receive app].
    + by rewrite He.
    + destruct (on_message raw) as [[x|]|e]; by rewrite ?IH.
Qed.

Lemma is_str_spec x s : is_str x s = true <-> x = Some (JStr s).
Proof.
  unfold is_str. destruct x as [[]|]; try (split; [discriminate|congruence]).
  rewrite String.eqb_eq. split; congruence.
Qed.

(** X24.  [solana_logs_sub] yields from a message exactly when the
    message is an object whose ["method"] is ["logsNotification"] and
    whose ["params"] is an object with a ["result"]; what it yields is
    that result. *)
Theorem solana_on_message_yields raw r :
  solana_on_message raw = Ret (Some r)
  <-> exists m pm,
        json_loads raw = Ret (JObj m)
        /\ dict_get "method" m = Some (JStr "logsNotification")
        /\ dict_get "params" m = Some (JObj pm)
        /\ dict_get "result" pm = Some r.
Proof.
  unfold solana_on_message, mbind, res_bind, Py.bind. split.
  - destruct (json_loads raw) as [msg|e]; [|discriminate].
    destruct msg as [| | | | | |m]; try discriminate. cbn [py_get].
    destruct (is_str _ _) eqn:Em; [|discriminate].
    apply is_str_spec in Em. cbn [py_item].
    destruct (dict_get "params" m) as [params|] eqn:Ep; [|discriminate].
    destruct params as [| | | | | |pm]; try discriminate. cbn [py_item].
    destruct (dict_get "result" pm) as [v|] eqn:Er; [|discriminate].
    intros [= <-]. by exists m, pm.
  - intros (m & pm & -> & Hm & Hp & Hr). cbn [py_get py_item].
    rewrite Hm, Hp. cbn. by rewrite Hr.
Qed.

(** X25.  [evm_ws_sub] yields from a message exactly when the message is
    an object whose ["method"] is ["eth_subscription"] and whose
    ["params"], an object, has for ["result"] a string of the shape of a
    transaction hash; what it yields is that string. *)
Theorem evm_on_message_yields raw x :
  evm_on_message raw = Ret (Some x)
  <-> exists m pm,
        json_loads raw = Ret (JObj m)
        /\ dict_get "method" m = Some (JStr "eth_subscription")
        /\ default (JObj []) (dict_get "params" m) = JObj pm
        /\ dict_get "result" pm = Some (JStr x)
        /\ is_hash x.
Proof.
  unfold evm_on_message, mbind, res_bind, Py.bind, is_hash. split.
  - destruct (json_loads raw) as [msg|e]; [|discriminate].
    destruct msg as [| | | | | |m]; try discriminate. cbn [py_get].
    destruct (is_str _ _) eqn:Em; [|discriminate].
    apply is_str_spec in Em.
    destruct (default (JObj []) (dict_get "params" m)) as [| | | | | |pm] eqn:Ep;
      try discriminate.
    cbn [py_get].
    destruct (dict_get "result" pm) as [[| | | |s| |]|] eqn:Er; try discriminate.
    destruct (startswith "0x" s) eqn:E0; [|discriminate].
    destruct (Z.eqb_spec (len s) 66) as [E66|]; [|discriminate].
    cbn [andb]. intros [= <-]. by exists m, pm.
  - intros (m & pm & -> & Hm & Hp & Hr & H0 & H66). cbn [py_get].
    rewrite Hm. cbn [is_str]. rewrite String.eqb_refl, Hp. cbn [py_get].
    rewrite Hr, H0, H66. reflexivity.
Qed.

End MessageFacts.
